(** * NextBite: the functions of [netlify/functions]

    A shallow embedding of the recommendation handler of
    [netlify/functions/recommendations.js], in its newer revision (the one
    with [enhanceWithGemini] and rate-limit routing) and in the older one
    that the file also holds, and of the feedback endpoint, followed by
    their properties.

    Conventions of the embedding.
    - JavaScript values reachable in this program are JSON values, [undefined],
      and members inherited from [Object.prototype] (reached only through a
      table lookup with a caller-chosen key).
    - A JavaScript string is a Rocq [string]: the bytes of its UTF-8 form. A
      surrogate pair written as two escapes is one character.
    - A number is the numeric literal of the JSON text; which binary64
      number it denotes, and how that number prints, rounds and tests for
      zero, is the host's, and is taken as given; so are [toLowerCase],
      [includes] and [encodeURIComponent] on strings.
    - A conversion to a string, a number or a property key raises TypeError
      where JavaScript does: on an object with a [toString] member of its
      own, which no JSON value can call, and on an array that holds one.
    - An [async] function is a function into [completion]: [Ok v] for a
      fulfilled promise, [Throw e] for a rejected one; what a [try] block
      catches is what is inside [try_catch].
    - The network is an oracle from requests to outcomes; the clock gives
      the weekday and the formatted local time. *)

From Stdlib Require Import String Ascii List ZArith Bool Lia DecimalString.
Import ListNotations.
Open Scope string_scope.

(** ** Values *)

Record number := mkNum { mant : Z; exp10 : Z }.

#[local] Set Warnings "-register-all".

Inductive value :=
| VUndefined
| VNull
| VBool (b : bool)
| VNum (n : number)
| VStr (s : string)
| VArr (elems : list value)
| VObj (fields : list (string * value))
| VNative (name : string).

Definition VInt (z : Z) : value := VNum (mkNum z 0).

(** Errors a JavaScript operation of this program can raise. *)
Inductive error := TypeError | SyntaxError | URIError | RangeError | FetchError.

Inductive completion (A : Type) :=
| Ok (a : A)
| Throw (e : error).
Arguments Ok {A} a.
Arguments Throw {A} e.

Definition bind {A B} (c : completion A) (k : A -> completion B) : completion B :=
  match c with
  | Ok a => k a
  | Throw e => Throw e
  end.

Notation "x <- c ;; k" := (bind c (fun x => k))
  (at level 61, c at next level, right associativity).

(** [try { body } catch (error) { handler }] *)
Definition try_catch {A} (body : completion A) (handler : error -> completion A)
  : completion A :=
  match body with
  | Ok a => Ok a
  | Throw e => handler e
  end.

(** ** Characters and strings *)

Definition dquote : ascii := ascii_of_nat 34.
Definition backslash : ascii := ascii_of_nat 92.
Definition dq : string := String dquote EmptyString.
(** [q s] is [s] between double quotes. *)
Definition q (s : string) : string := dq ++ s ++ dq.

Definition is_digit (c : ascii) : bool :=
  let n := nat_of_ascii c in (48 <=? n)%nat && (n <=? 57)%nat.

Definition digit_val (c : ascii) : Z := Z.of_nat (nat_of_ascii c) - 48.

Fixpoint join (sep : string) (l : list string) : string :=
  match l with
  | [] => ""
  | [s] => s
  | s :: r => s ++ sep ++ join sep r
  end.

Fixpoint repeat_string (s : string) (n : nat) : string :=
  match n with
  | O => ""
  | S m => s ++ repeat_string s m
  end.

Fixpoint is_prefix (p s : string) : bool :=
  match p, s with
  | EmptyString, _ => true
  | String a p', String b s' => Ascii.eqb a b && is_prefix p' s'
  | String _ _, EmptyString => false
  end.

(** ** [JSON.parse] *)

Module Json.

Definition is_ws (c : ascii) : bool :=
  match nat_of_ascii c with
  | 32 | 9 | 10 | 13 => true
  | _ => false
  end.

Fixpoint skip_ws (s : list ascii) : list ascii :=
  match s with
  | c :: r => if is_ws c then skip_ws r else s
  | [] => []
  end.

Definition hex_val (c : ascii) : option N :=
  let n := N_of_ascii c in
  if is_digit c then Some (n - 48)%N
  else if ((65 <=? n) && (n <=? 70))%N then Some (n - 55)%N
  else if ((97 <=? n) && (n <=? 102))%N then Some (n - 87)%N
  else None.

Definition hex4 (a b c d : ascii) : option N :=
  match hex_val a, hex_val b, hex_val c, hex_val d with
  | Some x, Some y, Some z, Some w => Some (((x * 16 + y) * 16 + z) * 16 + w)%N
  | _, _, _, _ => None
  end.

(** The bytes (UTF-8) of a character. *)
Definition utf8 (n : N) : list ascii :=
  (if n <? 128 then [ascii_of_N n]
   else if n <? 2048 then
     [ascii_of_N (192 + n / 64); ascii_of_N (128 + n mod 64)]
   else if n <? 65536 then
     [ascii_of_N (224 + n / 4096); ascii_of_N (128 + (n / 64) mod 64);
      ascii_of_N (128 + n mod 64)]
   else
     [ascii_of_N (240 + n / 262144); ascii_of_N (128 + (n / 4096) mod 64);
      ascii_of_N (128 + (n / 64) mod 64); ascii_of_N (128 + n mod 64)])%N.

(** The two halves of a surrogate pair, and the character they stand for. *)
Definition is_high (n : N) : bool := ((55296 <=? n) && (n <=? 56319))%N.
Definition is_low (n : N) : bool := ((56320 <=? n) && (n <=? 57343))%N.
Definition pair_code (hi lo : N) : N :=
  (65536 + (hi - 55296) * 1024 + (lo - 56320))%N.

(** The character that a one-letter escape stands for. *)
Definition simple_escape (e : ascii) : option ascii :=
  if Ascii.eqb e dquote then Some dquote
  else if Ascii.eqb e backslash then Some backslash
  else if Ascii.eqb e "/" then Some "/"%char
  else if Ascii.eqb e "b" then Some (ascii_of_nat 8)
  else if Ascii.eqb e "f" then Some (ascii_of_nat 12)
  else if Ascii.eqb e "n" then Some (ascii_of_nat 10)
  else if Ascii.eqb e "r" then Some (ascii_of_nat 13)
  else if Ascii.eqb e "t" then Some (ascii_of_nat 9)
  else None.

(** The characters of a string literal, after its opening quote. *)
Fixpoint parse_chars (s acc : list ascii) : option (string * list ascii) :=
  match s with
  | [] => None
  | c :: r =>
      if Ascii.eqb c dquote then Some (string_of_list_ascii (rev acc), r)
      else if Ascii.eqb c backslash then
        match r with
        | [] => None
        | e :: r' =>
            if Ascii.eqb e "u" then
              match r' with
              | h1 :: h2 :: h3 :: h4 :: r'' =>
                  match hex4 h1 h2 h3 h4 with
                  | Some n =>
                      match r'' with
                      | b :: u :: k1 :: k2 :: k3 :: k4 :: r3 =>
                          match (if is_high n && Ascii.eqb b backslash && Ascii.eqb u "u"
                                 then hex4 k1 k2 k3 k4 else None) with
                          | Some m =>
                              if is_low m
                              then parse_chars r3 (rev (utf8 (pair_code n m)) ++ acc)%list
                              else parse_chars r'' (rev (utf8 n) ++ acc)%list
                          | None => parse_chars r'' (rev (utf8 n) ++ acc)%list
                          end
                      | _ => parse_chars r'' (rev (utf8 n) ++ acc)%list
                      end
                  | None => None
                  end
              | _ => None
              end
            else
              match simple_escape e with
              | Some x => parse_chars r' (x :: acc)
              | None => None
              end
        end
      else if (nat_of_ascii c <? 32)%nat then None
      else parse_chars r (c :: acc)
  end.

Fixpoint take_digits (s : list ascii) : list ascii * list ascii :=
  match s with
  | c :: r =>
      if is_digit c then let (ds, rest) := take_digits r in (c :: ds, rest)
      else ([], s)
  | [] => ([], [])
  end.

Definition digits_val (ds : list ascii) : Z :=
  fold_left (fun a c => (10 * a + digit_val c)%Z) ds 0%Z.

(** The text after [c], when the text starts with [c]. *)
Definition eat (c : ascii) (s : list ascii) : option (list ascii) :=
  match s with
  | d :: r => if Ascii.eqb d c then Some r else None
  | [] => None
  end.

Definition leading_zero (ds : list ascii) : bool :=
  match ds with
  | d :: _ :: _ => Ascii.eqb d "0"
  | _ => false
  end.

Definition is_nil {A} (l : list A) : bool :=
  match l with
  | [] => true
  | _ => false
  end.

(** [frac?]: the digits after the point, none when there is no point. *)
Definition parse_frac (s : list ascii) : option (list ascii * list ascii) :=
  match eat "." s with
  | Some r =>
      let (fp, r') := take_digits r in
      if is_nil fp then None else Some (fp, r')
  | None => Some ([], s)
  end.

(** [exp?]: the exponent, zero when there is none. *)
Definition parse_exp (s : list ascii) : option (Z * list ascii) :=
  match (match eat "e" s with Some r => Some r | None => eat "E" s end) with
  | Some r =>
      let (eneg, r1) :=
        match eat "-" r with
        | Some t => (true, t)
        | None => match eat "+" r with Some t => (false, t) | None => (false, r) end
        end in
      let (ep, r2) := take_digits r1 in
      if is_nil ep then None
      else Some ((if eneg then - digits_val ep else digits_val ep)%Z, r2)
  | None => Some (0%Z, s)
  end.

(** [-? int frac? exp?] *)
Definition parse_number (s : list ascii) : option (number * list ascii) :=
  let (neg, s1) := match eat "-" s with Some r => (true, r) | None => (false, s) end in
  let (ip, s2) := take_digits s1 in
  if is_nil ip || leading_zero ip then None
  else
    match parse_frac s2 with
    | None => None
    | Some (fp, s3) =>
        match parse_exp s3 with
        | None => None
        | Some (e, s4) =>
            let m := digits_val (ip ++ fp) in
            Some (mkNum (if neg then - m else m)%Z
                        (e - Z.of_nat (List.length fp))%Z, s4)
        end
    end.

(** The literal names [true], [false] and [null]. *)
Definition parse_literal (s : list ascii) : option (value * list ascii) :=
  match s with
  | "t"%char :: "r"%char :: "u"%char :: "e"%char :: rest => Some (VBool true, rest)
  | "f"%char :: "a"%char :: "l"%char :: "s"%char :: "e"%char :: rest =>
      Some (VBool false, rest)
  | "n"%char :: "u"%char :: "l"%char :: "l"%char :: rest => Some (VNull, rest)
  | _ => None
  end.

(** The text after [c], when [c] comes next, white space apart. *)
Definition closes (c : ascii) (s : list ascii) : option (list ascii) :=
  match skip_ws s with
  | d :: rest => if Ascii.eqb d c then Some rest else None
  | [] => None
  end.

Definition is_letter (c : ascii) : bool :=
  Ascii.eqb c "t" || Ascii.eqb c "f" || Ascii.eqb c "n".

(** One value, then the members of an array or of an object. Every call
    consumes one unit of [fuel]; see [parse_value_fuel] for why twice the
    length of the text is enough. *)
Fixpoint parse_value (fuel : nat) (s : list ascii) : option (value * list ascii) :=
  match fuel with
  | O => None
  | S f =>
      match skip_ws s with
      | [] => None
      | c :: r =>
          if Ascii.eqb c dquote then
            match parse_chars r [] with
            | Some (str, rest) => Some (VStr str, rest)
            | None => None
            end
          else if Ascii.eqb c "[" then
            match closes "]" r with
            | Some rest => Some (VArr [], rest)
            | None => parse_elements f r []
            end
          else if Ascii.eqb c "{" then
            match closes "}" r with
            | Some rest => Some (VObj [], rest)
            | None => parse_members f r []
            end
          else if is_letter c then parse_literal (c :: r)
          else
            match parse_number (c :: r) with
            | Some (n, rest) => Some (VNum n, rest)
            | None => None
            end
      end
  end
with parse_elements (fuel : nat) (s : list ascii) (acc : list value)
  : option (value * list ascii) :=
  match fuel with
  | O => None
  | S f =>
      match parse_value f s with
      | Some (v, r) =>
          match skip_ws r with
          | c :: rest =>
              if Ascii.eqb c "," then parse_elements f rest (v :: acc)
              else if Ascii.eqb c "]" then Some (VArr (rev (v :: acc)), rest)
              else None
          | [] => None
          end
      | None => None
      end
  end
with parse_members (fuel : nat) (s : list ascii) (acc : list (string * value))
  : option (value * list ascii) :=
  match fuel with
  | O => None
  | S f =>
      match skip_ws s with
      | c :: r =>
          if Ascii.eqb c dquote then
            match parse_chars r [] with
            | Some (key, r1) =>
                match closes ":" r1 with
                | Some r2 =>
                    match parse_value f r2 with
                    | Some (v, r3) =>
                        match skip_ws r3 with
                        | d :: rest =>
                            if Ascii.eqb d "," then parse_members f rest ((key, v) :: acc)
                            else if Ascii.eqb d "}"
                            then Some (VObj (rev ((key, v) :: acc)), rest)
                            else None
                        | [] => None
                        end
                    | None => None
                    end
                | None => None
                end
            | None => None
            end
          else None
      | [] => None
      end
  end.

(** Fuel that is enough for a text. *)
Definition enough (s : list ascii) : nat := 2 * List.length s + 2.

Definition parse (text : string) : completion value :=
  let s := list_ascii_of_string text in
  match parse_value (enough s) s with
  | Some (v, rest) =>
      match skip_ws rest with
      | [] => Ok v
      | _ => Throw SyntaxError
      end
  | None => Throw SyntaxError
  end.

End Json.

Definition JSON_parse : string -> completion value := Json.parse.

Example JSON_parse_empty_array : JSON_parse "[]" = Ok (VArr []).
Proof. reflexivity. Qed.
Example JSON_parse_nested :
  JSON_parse ("[{" ++ q "name" ++ ": " ++ q "A" ++ ", " ++ q "n" ++ ": [1, -2.50e1, true, null]}]")
  = Ok (VArr [VObj [("name", VStr "A");
                    ("n", VArr [VInt 1; VNum (mkNum (-250) (-1)); VBool true; VNull])]]).
Proof. reflexivity. Qed.
Example JSON_parse_trailing : JSON_parse "[1] [x]" = Throw SyntaxError.
Proof. reflexivity. Qed.
Example JSON_parse_unclosed : JSON_parse "[1, 2" = Throw SyntaxError.
Proof. reflexivity. Qed.
Example JSON_parse_numbers :
  JSON_parse " [0, -0, 12.5, 1e3, 2E-2, 7.25e+1] "
  = Ok (VArr [VInt 0; VInt 0; VNum (mkNum 125 (-1)); VNum (mkNum 1 3);
              VNum (mkNum 2 (-2)); VNum (mkNum 725 (-1))]).
Proof. reflexivity. Qed.
Example JSON_parse_leading_zero : JSON_parse "01" = Throw SyntaxError.
Proof. reflexivity. Qed.
Example JSON_parse_bare_point : JSON_parse "[1., .5]" = Throw SyntaxError.
Proof. reflexivity. Qed.
Example JSON_parse_escapes :
  JSON_parse (q ("a" ++ String backslash "n" ++ String backslash "u0041"
                 ++ String backslash dq ++ String backslash "/"))
  = Ok (VStr ("a" ++ String (ascii_of_nat 10) "A" ++ dq ++ "/")).
Proof. reflexivity. Qed.
Example JSON_parse_surrogate_pair :
  JSON_parse (q (String backslash "ud83d" ++ String backslash "ude00"))
  = Ok (VStr (string_of_list_ascii
                [ascii_of_nat 240; ascii_of_nat 159; ascii_of_nat 152; ascii_of_nat 128])).
Proof. reflexivity. Qed.
Example JSON_parse_duplicate_key :
  JSON_parse ("{" ++ q "a" ++ ":1," ++ q "a" ++ ":2}")
  = Ok (VObj [("a", VInt 1); ("a", VInt 2)]).
Proof. reflexivity. Qed.
Example JSON_parse_trailing_comma : JSON_parse "[1,]" = Throw SyntaxError.
Proof. reflexivity. Qed.
Example JSON_parse_literal : JSON_parse "nul" = Throw SyntaxError.
Proof. reflexivity. Qed.

(** ** [text.match(/\[[\s\S]*\]/)]

    The leftmost match starts at the first opening bracket that has a
    closing bracket after it, which is the first opening bracket of the
    text; the star is greedy, so the match ends at the last closing
    bracket. *)

Fixpoint from_first_open (s : list ascii) : option (list ascii) :=
  match s with
  | [] => None
  | c :: r => if Ascii.eqb c "[" then Some r else from_first_open r
  end.

Fixpoint through_last_close (s : list ascii) : option (list ascii) :=
  match s with
  | [] => None
  | c :: r =>
      match through_last_close r with
      | Some p => Some (c :: p)
      | None => if Ascii.eqb c "]" then Some [c] else None
      end
  end.

Definition match_brackets (text : string) : option string :=
  match from_first_open (list_ascii_of_string text) with
  | Some r =>
      match through_last_close r with
      | Some p => Some (string_of_list_ascii ("["%char :: p))
      | None => None
      end
  | None => None
  end.

Example match_brackets_prose :
  match_brackets "Sure! [1, [2]] done] ok" = Some "[1, [2]] done]".
Proof. reflexivity. Qed.
Example match_brackets_none : match_brackets "] no array [" = None.
Proof. reflexivity. Qed.


(** ** Built-ins of the host that the embedding takes as given *)

Record Builtins := {
  (** [s.toLowerCase()] *)
  toLowerCase : string -> string;
  (** [s.includes(t)] *)
  includes : string -> string -> bool;
  (** [encodeURIComponent(s)]; [None] when it raises URIError. *)
  encodeURIComponent : string -> option string;
  (** ToBoolean of the number that a literal denotes *)
  Number_truthy : number -> bool;
  (** the text of the number that a literal denotes *)
  Number_toString : number -> string;
  (** the text of [Math.round(p)] for a primitive [p] *)
  Math_round_text : value -> string;
  (** the count [n] of ['$'.repeat(p)] for a primitive [p]; [None] when it
      raises RangeError. *)
  repeat_count : value -> option nat;
  (** [p > 0] for a primitive [p] *)
  positive : value -> bool;
  (** the text of a member inherited from [Object.prototype] *)
  native_text : string -> string
}.

(** The own and inherited property names of [Object.prototype]. *)
Definition object_prototype_keys : list string :=
  ["constructor"; "__defineGetter__"; "__defineSetter__"; "hasOwnProperty";
   "__lookupGetter__"; "__lookupSetter__"; "isPrototypeOf";
   "propertyIsEnumerable"; "toString"; "valueOf"; "__proto__";
   "toLocaleString"].

Definition is_prototype_key (k : string) : bool :=
  existsb (String.eqb k) object_prototype_keys.

(** The last binding of a key wins, as in [JSON.parse] and in an object
    literal that spreads an object and then sets a key. *)
Fixpoint own (fields : list (string * value)) (k : string) : option value :=
  match fields with
  | [] => None
  | (k', v) :: r =>
      match own r k with
      | Some w => Some w
      | None => if k' =? k then Some v else None
      end
  end.

Definition has_own (fields : list (string * value)) (k : string) : bool :=
  match own fields k with
  | Some _ => true
  | None => false
  end.

(** An array index written canonically: decimal digits, no leading zero. *)
Definition index_of_key (k : string) : option nat :=
  match list_ascii_of_string k with
  | [] => None
  | "0"%char :: _ :: _ => None
  | ds => if forallb is_digit ds then Some (Z.to_nat (Json.digits_val ds)) else None
  end.

Definition char_string (c : ascii) : string := String c EmptyString.

(** [v[k]] for a value that is neither [undefined] nor [null], and a key
    that no prototype defines. *)
Definition member (v : value) (k : string) : value :=
  match v with
  | VObj fields =>
      match own fields k with Some w => w | None => VUndefined end
  | VArr elems =>
      if k =? "length" then VInt (Z.of_nat (List.length elems))
      else match index_of_key k with
           | Some i => nth i elems VUndefined
           | None => VUndefined
           end
  | VStr s =>
      if k =? "length" then VInt (Z.of_nat (String.length s))
      else match index_of_key k with
           | Some i =>
               match String.get i s with
               | Some c => VStr (char_string c)
               | None => VUndefined
               end
           | None => VUndefined
           end
  | _ => VUndefined
  end.

(** [v.k]: TypeError on [undefined] and [null]. *)
Definition get (v : value) (k : string) : completion value :=
  match v with
  | VUndefined | VNull => Throw TypeError
  | _ => Ok (member v k)
  end.

(** [v?.k] *)
Definition get_opt (v : value) (k : string) : value :=
  match v with
  | VUndefined | VNull => VUndefined
  | _ => member v k
  end.

(** [array.find(p)] *)
Fixpoint find (p : value -> completion bool) (l : list value) : completion value :=
  match l with
  | [] => Ok VUndefined
  | h :: r => b <- p h ;; if b then Ok h else find p r
  end.

(** [await Promise.all(promises)], and [array.map(f)] for an [f] that can
    raise. *)
Fixpoint all {A} (promises : list (completion A)) : completion (list A) :=
  match promises with
  | [] => Ok []
  | c :: r => a <- c ;; rest <- all r ;; Ok (a :: rest)
  end.

(** ** The environment of one invocation *)

Record request := {
  url : string;
  method : string;
  headers : list (string * string);
  payload : option value
}.

Inductive fetch_outcome :=
| Rejected
| Response (status : Z) (body : string).

Record World := {
  FOURSQUARE_API_KEY : option string;
  GEMINI_API_KEY : option string;
  fetch : request -> fetch_outcome;
  (** [new Date().toLocaleDateString('en-US', { weekday: 'long' })] *)
  today : string;
  (** [new Date().toLocaleString('en-US', { timeZone: ..., weekday: 'long' })] *)
  currentTime : string
}.

(** [process.env.KEY] as a value. *)
Definition env_value (k : option string) : value :=
  match k with
  | Some s => VStr s
  | None => VUndefined
  end.

Definition env_text (k : option string) : string :=
  match k with
  | Some s => s
  | None => "undefined"
  end.

(** [!process.env.KEY] is false: the variable is set and not empty. *)
Definition key_set (k : option string) : bool :=
  match k with
  | Some s => negb (s =? "")
  | None => false
  end.

(** [response.ok] *)
Definition ok_status (status : Z) : bool := ((200 <=? status) && (status <=? 299))%Z.


Definition nat_to_string (n : nat) : string :=
  NilZero.string_of_uint (Nat.to_uint n).

Definition nl : string := String (ascii_of_nat 10) EmptyString.

(** * The newer revision (lines 230-662) *)

Section Embedding.

Variable B : Builtins.

(** ToBoolean *)
Definition truthy (v : value) : bool :=
  match v with
  | VUndefined | VNull => false
  | VBool b => b
  | VNum n => Number_truthy B n
  | VStr s => negb (s =? "")
  | VArr _ | VObj _ | VNative _ => true
  end.

(** [a || b] for a [b] whose evaluation cannot raise. *)
Definition or_else (a b : value) : value := if truthy a then a else b.

(** ToString, as a template literal, [join] and a property key apply it.

    An object of [JSON.parse] inherits [toString] from [Object.prototype]
    unless it has a property of that name of its own; the own property is
    never callable, [valueOf] then returns the object itself, and the
    conversion raises TypeError.  An array is joined with commas, [null]
    and [undefined] giving the empty text. *)
Fixpoint ToString (v : value) : completion string :=
  match v with
  | VUndefined => Ok "undefined"
  | VNull => Ok "null"
  | VBool true => Ok "true"
  | VBool false => Ok "false"
  | VNum n => Ok (Number_toString B n)
  | VStr s => Ok s
  | VArr elems =>
      let item x :=
        match x with
        | VUndefined | VNull => Ok ""
        | _ => ToString x
        end in
      (fix items (l : list value) : completion string :=
         match l with
         | [] => Ok ""
         | [x] => item x
         | x :: r => a <- item x ;; b <- items r ;; Ok (a ++ "," ++ b)
         end) elems
  | VObj fields =>
      if has_own fields "toString" then Throw TypeError else Ok "[object Object]"
  | VNative name => Ok (native_text B name)
  end.

(** ToPrimitive, with either hint: the two orders of [valueOf] and
    [toString] give the same result on these values. *)
Definition ToPrimitive (v : value) : completion value :=
  match v with
  | VArr _ | VObj _ | VNative _ => s <- ToString v ;; Ok (VStr s)
  | _ => Ok v
  end.

(** The text of one element in [array.join(sep)]. *)
Definition item_text (x : value) : completion string :=
  match x with
  | VUndefined | VNull => Ok ""
  | _ => ToString x
  end.

(** [array.join(sep)] *)
Definition join_values (sep : string) (l : list value) : completion string :=
  texts <- all (map item_text l) ;;
  Ok (join sep texts).

(** [table[key]] for an object literal [table]: the key is converted
    first, then own properties are searched, then what [Object.prototype]
    provides. *)
Definition lookup (table : list (string * value)) (key : value) : completion value :=
  k <- ToString key ;;
  Ok (match own table k with
      | Some v => v
      | None => if is_prototype_key k then VNative k else VUndefined
      end).

(** ** Mock Recommendation Table *)

Definition mock (name description distance : string) : value :=
  VObj [("name", VStr name); ("address", VStr "Multiple locations");
        ("description", VStr description); ("distance", VStr distance);
        ("hours", VStr "Open now")].

Definition mockData : list (string * value) :=
  [("coffee", VArr
     [mock "Starbucks" "Cozy corner cafe with artisanal coffee and fresh pastries. Perfect for your caffeine fix!" "5 min walk";
      mock "Peet's Coffee" "Known for bold, rich roasts and excellent espresso drinks." "8 min walk"]);
   ("quick-bite", VArr
     [mock "Chipotle" "Fast-casual spot with delicious burritos and bowls ready in minutes." "3 min walk";
      mock "Panera Bread" "Quick service restaurant with fresh sandwiches and soups." "5 min walk"]);
   ("healthy", VArr
     [mock "Sweetgreen" "Farm-to-table salads and grain bowls for the health-conscious." "7 min walk";
      mock "Panera Bread" "Nutrient-packed meals with healthy options available." "10 min walk"]);
   ("comfort", VArr
     [mock "Applebee's" "Hearty comfort food classics and American favorites." "8 min drive";
      mock "Chili's" "Warm, inviting spot serving up comfort favorites." "12 min drive"]);
   ("date-night", VArr
     [mock "The Cheesecake Factory" "Upscale casual dining with an extensive menu perfect for date night." "10 min drive";
      mock "Olive Garden" "Italian classics in a romantic atmosphere." "15 min drive"]);
   ("adventure", VArr
     [mock "P.F. Chang's" "Explore bold Asian-inspired flavors and creative dishes." "12 min drive";
      mock "Benihana" "Japanese hibachi experience with entertaining chefs." "15 min drive"])].

(** [mockData[mood] || mockData['quick-bite']] *)
Definition getMockRecommendations (mood : value) : completion value :=
  found <- lookup mockData mood ;;
  if truthy found then Ok found else lookup mockData (VStr "quick-bite").

(** ** Address and hours formatting *)

Definition push_if (field : value) (parts : list value) : list value :=
  if truthy field then (parts ++ [field])%list else parts.

(** The array [parts] before it is joined. *)
Definition address_parts (location : value) : list value :=
  let parts := [] in
  let parts := push_if (member location "address") parts in
  let parts := push_if (member location "locality") parts in
  let parts := push_if (member location "region") parts in
  let parts := push_if (member location "postcode") parts in
  parts.

Definition formatAddress (location : value) : completion value :=
  if negb (truthy location) then Ok VNull
  else
    text <- join_values ", " (address_parts location) ;;
    Ok (or_else (VStr text) VNull).

Definition days : list string :=
  ["Sunday"; "Monday"; "Tuesday"; "Wednesday"; "Thursday"; "Friday"; "Saturday"].

(** [days[k] === today] for a converted key [k]: only an element of the
    array can be strictly equal to a string ([length] is a number,
    inherited members are functions or objects). *)
Definition days_is_today (w : World) (k : string) : bool :=
  match index_of_key k with
  | Some i =>
      match nth_error days i with
      | Some name => name =? today w
      | None => false
      end
  | None => false
  end.

(** [h => days[h.day] === today] *)
Definition is_today (w : World) (h : value) : completion bool :=
  d <- get h "day" ;;
  k <- ToString d ;;
  Ok (days_is_today w k).

(** [hours.regular?.find(...)]: of the values of [JSON.parse] only an
    array has a callable [find]. *)
Definition find_today (w : World) (regular : value) : completion value :=
  match regular with
  | VUndefined | VNull => Ok VUndefined
  | VArr entries => find (is_today w) entries
  | _ => Throw TypeError
  end.

Definition formatHours (w : World) (hours : value) : completion value :=
  if negb (truthy hours) || negb (truthy (member hours "display")) then Ok VNull
  else
    todayHours <- find_today w (member hours "regular") ;;
    if truthy todayHours then
      open <- ToString (member todayHours "open") ;;
      close <- ToString (member todayHours "close") ;;
      Ok (VStr ("Open " ++ open ++ "-" ++ close))
    else
      Ok (VStr (if truthy (member hours "open_now") then "Open now" else "Check hours")).

(** ** Places Lookup *)

Definition moodToQuery : list (string * value) :=
  [("coffee", VStr "coffee");
   ("quick-bite", VStr "fast food");
   ("healthy", VStr "healthy food salad");
   ("comfort", VStr "comfort food american");
   ("date-night", VStr "fine dining romantic");
   ("adventure", VStr "unique restaurant")].

Definition moodToCategory : list (string * value) :=
  [("coffee", VStr "13035");
   ("quick-bite", VStr "13145");
   ("healthy", VStr "13377");
   ("comfort", VStr "13065");
   ("date-night", VStr "13003");
   ("adventure", VStr "13000")].

(** Lines 335-336, which run before the [try] block is entered: the pair
    of [query] and [categoryId]. *)
Definition mood_terms (mood : value) : completion (value * value) :=
  query <- lookup moodToQuery mood ;;
  categoryId <- lookup moodToCategory mood ;;
  Ok (or_else query (VStr "restaurant"), or_else categoryId (VStr "13000")).

(** [encodeURIComponent(v)] *)
Definition encode (v : value) : completion string :=
  s <- ToString v ;;
  match encodeURIComponent B s with
  | Some t => Ok t
  | None => Throw URIError
  end.

Definition foursquare_headers (w : World) : list (string * string) :=
  [("Authorization", env_text (FOURSQUARE_API_KEY w)); ("Accept", "application/json")].

(** [await fetch(rq)], with the status and the body of the response. *)
Definition await_fetch (w : World) (rq : request) : completion (Z * string) :=
  match fetch w rq with
  | Rejected => Throw FetchError
  | Response status body => Ok (status, body)
  end.

(** The argument of the first [fetch], built inside the [try] block from
    the two terms of the mood. *)
Definition build_search_request (w : World) (location : value) (terms : value * value)
  : completion request :=
  let (query, categoryId) := terms in
  eq <- encode query ;;
  el <- encode location ;;
  ec <- ToString categoryId ;;
  Ok {| url := "https://api.foursquare.com/v3/places/search?query=" ++ eq
               ++ "&near=" ++ el ++ "&categories=" ++ ec
               ++ "&limit=5&sort=RELEVANCE&open_now=true";
        method := "GET";
        headers := foursquare_headers w;
        payload := None |}.

(** The search request of [getPlacesFromFoursquare(location, mood, maxDistance)]. *)
Definition search_request (w : World) (location mood maxDistance : value)
  : completion request :=
  terms <- mood_terms mood ;;
  build_search_request w location terms.

Definition detail_request (w : World) (fsq_id : string) : request :=
  {| url := "https://api.foursquare.com/v3/places/" ++ fsq_id
            ++ "?fields=name,location,hours,rating,price,categories,distance";
     method := "GET";
     headers := foursquare_headers w;
     payload := None |}.

(** [d ? `${Math.round(d)} meters` : null] *)
Definition distance_text (d : value) : completion value :=
  if truthy d then
    p <- ToPrimitive d ;;
    Ok (VStr (Math_round_text B p ++ " meters"))
  else Ok VNull.

(** [r ? `${r}/10` : null] *)
Definition rating_text (r : value) : completion value :=
  if truthy r then
    t <- ToString r ;;
    Ok (VStr (t ++ "/10"))
  else Ok VNull.

(** [p ? '$'.repeat(p) : null] *)
Definition price_text (p : value) : completion value :=
  if truthy p then
    c <- ToPrimitive p ;;
    match repeat_count B c with
    | Some n => Ok (VStr (repeat_string "$" n))
    | None => Throw RangeError
    end
  else Ok VNull.

(** The entry built from the search result alone. *)
Definition coarse_entry (place : value) : completion value :=
  name <- get place "name" ;;
  location <- get place "location" ;;
  address <- formatAddress location ;;
  d <- get place "distance" ;;
  distance <- distance_text d ;;
  Ok (VObj [("name", name); ("address", address); ("distance", distance)]).

(** The entry built from the detail response. *)
Definition full_entry (w : World) (place detail : value) : completion value :=
  name <- get detail "name" ;;
  address <- formatAddress (member detail "location") ;;
  d <- get place "distance" ;;
  distance <- distance_text d ;;
  rating <- rating_text (member detail "rating") ;;
  price <- price_text (member detail "price") ;;
  hours <- formatHours w (member detail "hours") ;;
  Ok (VObj [("name", name);
            ("address", address);
            ("distance", distance);
            ("rating", rating);
            ("price", price);
            ("hours", hours);
            ("category",
             or_else (get_opt (get_opt (member detail "categories") "0") "name") VNull)]).

(** The body of the [async (place) => ...] mapped over the search results:
    what the [catch] block raises is raised by the mapper. *)
Definition detailed_entry (w : World) (place : value) : completion value :=
  try_catch
    (id <- get place "fsq_id" ;;
     fsq_id <- ToString id ;;
     r <- await_fetch w (detail_request w fsq_id) ;;
     let (status, body) := r in
     if ok_status status then
       detail <- JSON_parse body ;;
       full_entry w place detail
     else coarse_entry place)
    (fun _ => coarse_entry place).

Record lookup_result := { places : list value; rateLimited : bool }.

Definition no_places : lookup_result := {| places := []; rateLimited := false |}.

(** [places.slice(0, 3)] followed by [.map]: only an array has both. *)
Definition slice_0_3 (v : value) : completion (list value) :=
  match v with
  | VArr elems => Ok (firstn 3 elems)
  | _ => Throw TypeError
  end.

Definition not_null (p : value) : bool :=
  match p with
  | VNull => false
  | _ => true
  end.

(** The [try] block of [getPlacesFromFoursquare]. *)
Definition getPlacesFromFoursquare_try (w : World) (location : value)
  (terms : value * value) : completion lookup_result :=
  rq <- build_search_request w location terms ;;
  r <- await_fetch w rq ;;
  let (status, body) := r in
  if ((status =? 429) || (status =? 402))%Z then
    Ok {| places := []; rateLimited := true |}
  else if negb (ok_status status) then
    Ok {| places := []; rateLimited := false |}
  else
    searchData <- JSON_parse body ;;
    results <- get searchData "results" ;;
    first3 <- slice_0_3 (or_else results (VArr [])) ;;
    detailedPlaces <- all (map (detailed_entry w) first3) ;;
    Ok {| places := filter not_null detailedPlaces; rateLimited := false |}.

Definition getPlacesFromFoursquare (w : World) (location mood maxDistance : value)
  : completion lookup_result :=
  terms <- mood_terms mood ;;
  try_catch
    (getPlacesFromFoursquare_try w location terms)
    (fun _ => Ok no_places).

(** ** Text-Generation Client *)

Definition gemini_request (w : World) (prompt : string) : request :=
  {| url := "https://generativelanguage.googleapis.com/v1beta/models/gemini-2.0-flash:generateContent";
     method := "POST";
     headers := [("Content-Type", "application/json");
                 ("x-goog-api-key", env_text (GEMINI_API_KEY w))];
     payload := Some (VObj
       [("contents", VArr [VObj [("parts", VArr [VObj [("text", VStr prompt)]])]]);
        ("generationConfig", VObj [("temperature", VNum (mkNum 7 (-1)));
                                   ("maxOutputTokens", VInt 1024)])]) |}.

(** [data.candidates?.[0]?.content?.parts?.[0]?.text] *)
Definition candidate_text (data : value) : completion value :=
  candidates <- get data "candidates" ;;
  Ok (get_opt (get_opt (get_opt (get_opt (get_opt candidates "0") "content")
                                "parts") "0") "text").

(** [text.match(/\[[\s\S]*\]/)] for a truthy [text]: of the values of
    [JSON.parse] only a string has a callable [match]. *)
Definition text_match (text : value) : completion (option string) :=
  match text with
  | VStr t => Ok (match_brackets t)
  | _ => Throw TypeError
  end.

(** The own enumerable properties that [{...v}] copies. *)
Definition spread (v : value) : list (string * value) :=
  match v with
  | VObj fields => fields
  | VArr elems => combine (map nat_to_string (seq 0 (List.length elems))) elems
  | VStr s =>
      combine (map nat_to_string (seq 0 (String.length s)))
              (map (fun c => VStr (char_string c)) (list_ascii_of_string s))
  | _ => []
  end.

(** [{ ...place, description }] *)
Definition with_description (description : value) (place : value) : value :=
  VObj (spread place ++ [("description", description)]).

(** [places.map(place => ({ ...place, description: `...` }))]: the
    template is evaluated once for each place. *)
Definition describe (text : completion string) (places : list value)
  : completion (list value) :=
  all (map (fun place => t <- text ;; Ok (with_description (VStr t) place)) places).

(** [`A great ${mood} spot in ${location}.`] *)
Definition in_location_text (mood location : value) : completion string :=
  m <- ToString mood ;;
  l <- ToString location ;;
  Ok ("A great " ++ m ++ " spot in " ++ l ++ ".").

(** [`A popular ${mood} destination.`] *)
Definition popular_text (mood : value) : completion string :=
  m <- ToString mood ;;
  Ok ("A popular " ++ m ++ " destination.").

(** [`A great ${mood} spot worth checking out.`] *)
Definition worth_text (mood : value) : completion string :=
  m <- ToString mood ;;
  Ok ("A great " ++ m ++ " spot worth checking out.").

(** [v.toLowerCase()]: of the values of [JSON.parse] only a string has a
    callable [toLowerCase]. *)
Definition lower (v : value) : completion string :=
  match v with
  | VStr s => Ok (toLowerCase B s)
  | _ => Throw TypeError
  end.

(** The predicate of [descriptions.find] in the merge. *)
Definition name_matches (place d : value) : completion bool :=
  dname <- get d "name" ;;
  dl <- lower dname ;;
  pname <- get place "name" ;;
  pl <- lower pname ;;
  Ok ((dl =? pl) || includes B pl dl || includes B dl pl).

(** The mapper of the merge, lines 516-526. *)
Definition merge_description (descriptions : list value) (mood : value) (place : value)
  : completion value :=
  aiData <- find (name_matches place) descriptions ;;
  let ai := get_opt aiData "description" in
  if truthy ai then Ok (with_description ai place)
  else
    t <- worth_text mood ;;
    Ok (with_description (VStr t) place).

Definition enhance_moodDescriptions : list (string * value) :=
  [("coffee", VStr "looking for a great coffee shop or cafe");
   ("quick-bite", VStr "needs a quick and satisfying meal");
   ("healthy", VStr "wants healthy, nutritious food options");
   ("comfort", VStr "is craving comfort food");
   ("date-night", VStr "is planning a romantic dinner");
   ("adventure", VStr "wants to try something new and exciting")].

(** [`- ${p.name} (${p.category || 'restaurant'})`] *)
Definition place_line (p : value) : completion string :=
  name <- get p "name" ;;
  n <- ToString name ;;
  c <- ToString (or_else (member p "category") (VStr "restaurant")) ;;
  Ok ("- " ++ n ++ " (" ++ c ++ ")").

(** The prompt of line 463 from the texts of its three substitutions. *)
Definition enhance_prompt_text (user location placesInfo : string) : string :=
  "A user " ++ user ++ " in " ++ location ++ "." ++ nl ++ nl
  ++ "Here are real places they could visit:" ++ nl
  ++ placesInfo ++ nl ++ nl
  ++ "For each place, write a brief, engaging 1-2 sentence description of why it would be great for their mood. Be specific and enthusiastic."
  ++ nl ++ nl
  ++ "Format your response as a JSON array with objects containing just "
  ++ q "name" ++ " and " ++ q "description" ++ "." ++ nl ++ nl
  ++ "Example:" ++ nl
  ++ "[" ++ nl
  ++ "  {" ++ q "name" ++ ": " ++ q "Starbucks" ++ ", " ++ q "description" ++ ": "
  ++ q "Perfect for a cozy coffee break with their signature lattes and comfortable seating."
  ++ "}," ++ nl
  ++ "  {" ++ q "name" ++ ": " ++ q "Peet's Coffee" ++ ", " ++ q "description" ++ ": "
  ++ q "Known for bold, rich roasts that will energize your day." ++ "}" ++ nl
  ++ "]" ++ nl ++ nl
  ++ "Respond ONLY with the JSON array, no other text.".

(** Lines 461-478, which run before the [try] block is entered. *)
Definition enhance_prompt (places : list value) (mood location : value)
  : completion string :=
  lines <- all (map place_line places) ;;
  let placesInfo := join nl lines in
  d <- lookup enhance_moodDescriptions mood ;;
  user <- ToString (or_else d (VStr "is looking for food")) ;;
  l <- ToString location ;;
  Ok (enhance_prompt_text user l placesInfo).

(** What the [try] block of [enhanceWithGemini] does with the text of the
    first candidate: [None] when it falls through to line 530. *)
Definition merge_generated (places : list value) (mood : value) (text : value)
  : completion (option (list value)) :=
  if truthy text then
    jsonMatch <- text_match text ;;
    match jsonMatch with
    | Some m =>
        descriptions <- JSON_parse m ;;
        match descriptions with
        | VArr ds =>
            l <- all (map (merge_description ds mood) places) ;;
            Ok (Some l)
        | _ => Throw TypeError
        end
    | None => Ok None
    end
  else Ok None.

(** The [try] block of [enhanceWithGemini]. *)
Definition enhanceWithGemini_try (w : World) (places : list value) (mood : value)
  (prompt : string) : completion (list value) :=
  r <- await_fetch w (gemini_request w prompt) ;;
  let (status, body) := r in
  if negb (ok_status status) then describe (popular_text mood) places
  else
    data <- JSON_parse body ;;
    text <- candidate_text data ;;
    merged <- merge_generated places mood text ;;
    match merged with
    | Some l => Ok l
    | None => describe (popular_text mood) places
    end.

Definition enhanceWithGemini (w : World) (places : list value) (mood location : value)
  : completion (list value) :=
  if negb (key_set (GEMINI_API_KEY w)) then
    describe (in_location_text mood location) places
  else
    prompt <- enhance_prompt places mood location ;;
    try_catch
      (enhanceWithGemini_try w places mood prompt)
      (fun _ => describe (in_location_text mood location) places).

Definition moodDescriptions : list (string * value) :=
  [("coffee", VStr "looking for a great coffee shop or cafe");
   ("quick-bite", VStr "need a quick and satisfying meal");
   ("healthy", VStr "want healthy, nutritious food options");
   ("comfort", VStr "craving comfort food");
   ("date-night", VStr "planning a romantic dinner");
   ("adventure", VStr "want to try something new and exciting")].

Definition example_line (name address description distance hours : string) : string :=
  "  {" ++ q "name" ++ ": " ++ q name ++ ", " ++ q "address" ++ ": " ++ q address
  ++ ", " ++ q "description" ++ ": " ++ q description ++ ", " ++ q "distance" ++ ": "
  ++ q distance ++ ", " ++ q "hours" ++ ": " ++ q hours ++ "}".

(** The prompt of line 562 from the texts of its substitutions. *)
Definition generate_prompt_text (w : World) (location user timeAvailable maxDistance : string)
  : string :=
  "You are a helpful restaurant recommendation assistant. A user in "
  ++ location ++ " is " ++ user
  ++ ". They have " ++ timeAvailable
  ++ " minutes and can travel up to " ++ maxDistance ++ " meters." ++ nl ++ nl
  ++ "Current time: " ++ currentTime w ++ nl ++ nl
  ++ "IMPORTANT RULES:" ++ nl
  ++ "1. ONLY recommend major chains or well-established franchises (like Starbucks, Peet's Coffee, Dutch Bros, Panera, Chipotle, etc.) that are guaranteed to still be in business" ++ nl
  ++ "2. DO NOT recommend small local cafes or independent restaurants as they may have closed" ++ nl
  ++ "3. Only recommend places likely to be OPEN at this time based on typical business hours" ++ nl
  ++ "4. Focus on popular, nationwide or regional chains with multiple locations" ++ nl ++ nl
  ++ "Please provide 2-3 restaurant recommendations. For each recommendation, provide:" ++ nl
  ++ "1. A major chain or well-established franchise name that has locations in "
  ++ location ++ nl
  ++ "2. The specific street address of a real location in " ++ location ++ nl
  ++ "3. A brief, engaging description of why it fits their mood" ++ nl
  ++ "4. Estimated distance/time if applicable" ++ nl
  ++ "5. Typical hours to confirm it's likely open now" ++ nl ++ nl
  ++ "Format your response as a JSON array with objects containing: name, description, address, distance, rating (optional), hours."
  ++ nl ++ nl
  ++ "Example format:" ++ nl
  ++ "[" ++ nl
  ++ example_line "Starbucks Reserve" "123 Main St, Seattle, WA 98101"
       "Perfect cozy spot for your coffee craving with artisanal brews and fresh pastries."
       "5 min walk" "Open until 9 PM" ++ "," ++ nl
  ++ example_line "Sweetgreen" "456 Pike St, Seattle, WA 98101"
       "Fresh, healthy options with amazing grain bowls and smoothies."
       "10 min walk" "Open until 10 PM" ++ nl
  ++ "]" ++ nl ++ nl
  ++ "Respond ONLY with the JSON array, no other text.".

(** Line 562, which runs before the [try] block is entered. *)
Definition generate_prompt (w : World) (location mood timeAvailable maxDistance : value)
  : completion string :=
  l <- ToString location ;;
  d <- lookup moodDescriptions mood ;;
  user <- ToString (or_else d (VStr "looking for food")) ;;
  t <- ToString timeAvailable ;;
  m <- ToString maxDistance ;;
  Ok (generate_prompt_text w l user t m).

(** What the [try] block of [getGeminiRecommendations] does with the text
    of the first candidate. *)
Definition parse_generated (mood : value) (text : value) : completion value :=
  if negb (truthy text) then getMockRecommendations mood
  else
    jsonMatch <- text_match text ;;
    match jsonMatch with
    | Some m => JSON_parse m
    | None => getMockRecommendations mood
    end.

(** The [try] block of [getGeminiRecommendations]. *)
Definition getGeminiRecommendations_try (w : World) (mood : value) (prompt : string)
  : completion value :=
  r <- await_fetch w (gemini_request w prompt) ;;
  let (status, body) := r in
  if negb (ok_status status) then getMockRecommendations mood
  else
    data <- JSON_parse body ;;
    text <- candidate_text data ;;
    parse_generated mood text.

Definition getGeminiRecommendations (w : World)
  (location mood timeAvailable maxDistance : value) : completion value :=
  if negb (key_set (GEMINI_API_KEY w)) then getMockRecommendations mood
  else
    prompt <- generate_prompt w location mood timeAvailable maxDistance ;;
    try_catch
      (getGeminiRecommendations_try w mood prompt)
      (fun _ => getMockRecommendations mood).

(** ** Recommendation Assembler *)

Record Event := { httpMethod : string; event_body : value }.

(** The object given to [JSON.stringify] for the body of the response. *)
Inductive response_body :=
| EmptyBody
| ErrorBody (error : string)
| Envelope (recommendations : value) (source : string) (rateLimitReached : bool)
           (message : value).

Record http_response := {
  statusCode : Z;
  response_headers : list (string * string);
  body : response_body
}.

Definition cors_headers : list (string * string) :=
  [("Access-Control-Allow-Origin", "*");
   ("Access-Control-Allow-Headers", "Content-Type");
   ("Access-Control-Allow-Methods", "POST, OPTIONS");
   ("Content-Type", "application/json")].

Definition respond (code : Z) (b : response_body) : http_response :=
  {| statusCode := code; response_headers := cors_headers; body := b |}.

Definition rate_limit_message : value :=
  VStr "Live data temporarily unavailable. Showing AI-generated recommendations.".

(** The success response, from the final values of the three variables. *)
Definition success (recommendations : value) (source : string) (rateLimitReached : bool)
  : http_response :=
  respond 200
    (Envelope recommendations source rateLimitReached
       (if rateLimitReached then rate_limit_message else VNull)).

Definition server_error : http_response :=
  respond 500 (ErrorBody "Failed to get recommendations").

(** Lines 266-304. *)
Definition assemble (w : World) (location mood timeAvailable maxDistance : value)
  : completion http_response :=
  let source := "foursquare" in
  let rateLimitReached := false in
  if key_set (FOURSQUARE_API_KEY w) then
    foursquareResult <- getPlacesFromFoursquare w location mood maxDistance ;;
    if rateLimited foursquareResult then
      let rateLimitReached := true in
      let source := "ai" in
      recommendations <- getGeminiRecommendations w location mood timeAvailable maxDistance ;;
      Ok (success recommendations source rateLimitReached)
    else if (0 <? List.length (places foursquareResult))%nat then
      recommendations <- enhanceWithGemini w (places foursquareResult) mood location ;;
      Ok (success (VArr recommendations) source rateLimitReached)
    else
      let source := "ai" in
      recommendations <- getGeminiRecommendations w location mood timeAvailable maxDistance ;;
      Ok (success recommendations source rateLimitReached)
  else
    let source := "ai" in
    recommendations <- getGeminiRecommendations w location mood timeAvailable maxDistance ;;
    Ok (success recommendations source rateLimitReached).

(** [JSON.parse(event.body)] *)
Definition parse_body (event : Event) : completion value :=
  text <- ToString (event_body event) ;;
  JSON_parse text.

(** The [try] block of the handler. *)
Definition handler_try (w : World) (event : Event) : completion http_response :=
  parsed <- parse_body event ;;
  location <- get parsed "location" ;;
  let mood := member parsed "mood" in
  let timeAvailable := member parsed "timeAvailable" in
  let maxDistance := member parsed "maxDistance" in
  if negb (truthy location) || negb (truthy mood) then
    Ok (respond 400 (ErrorBody "Location and mood are required"))
  else assemble w location mood timeAvailable maxDistance.

Definition handler (w : World) (event : Event) : http_response :=
  if httpMethod event =? "OPTIONS" then respond 200 EmptyBody
  else if negb (httpMethod event =? "POST") then respond 405 (ErrorBody "Method not allowed")
  else
    match handler_try w event with
    | Ok response => response
    | Throw _ => server_error
    end.

End Embedding.

(** * The older revision (lines 1-229)

    The file holds an older revision of the same function before the
    newer one: its lookup returns the search results as they are, its
    generation takes them as context for the prompt, and its response
    carries the recommendations alone. *)

Module Older.

Definition moodToCategory : list (string * value) :=
  [("coffee", VStr "13035");
   ("quick-bite", VStr "13145");
   ("healthy", VStr "13377");
   ("comfort", VStr "13065");
   ("date-night", VStr "13003");
   ("adventure", VStr "13000")].

(** Line 78, which runs before the [try] block is entered. *)
Definition category (B : Builtins) (mood : value) : completion value :=
  c <- lookup B moodToCategory mood ;;
  Ok (or_else B c (VStr "13000")).

(** The argument of [fetch], built inside the [try] block. *)
Definition build_search_request (B : Builtins) (w : World)
  (location categoryId maxDistance : value) : completion request :=
  el <- encode B location ;;
  ec <- ToString B categoryId ;;
  em <- ToString B maxDistance ;;
  Ok {| url := "https://api.foursquare.com/v3/places/search?query=restaurant&near="
               ++ el ++ "&categories=" ++ ec ++ "&limit=5&radius=" ++ em;
        method := "GET";
        headers := foursquare_headers w;
        payload := None |}.

Definition search_request (B : Builtins) (w : World) (location mood maxDistance : value)
  : completion request :=
  categoryId <- category B mood ;;
  build_search_request B w location categoryId maxDistance.

End Older.

Module OlderRevision.

Section Functions.

Variable B : Builtins.

(** The [try] block of [getPlacesFromFoursquare]. *)
Definition getPlacesFromFoursquare_try (w : World)
  (location categoryId maxDistance : value) : completion value :=
  rq <- Older.build_search_request B w location categoryId maxDistance ;;
  r <- await_fetch w rq ;;
  let (status, body) := r in
  if negb (ok_status status) then Ok (VArr [])
  else
    data <- JSON_parse body ;;
    results <- get data "results" ;;
    Ok (or_else B results (VArr [])).

Definition getPlacesFromFoursquare (w : World) (location mood maxDistance : value)
  : completion value :=
  categoryId <- Older.category B mood ;;
  try_catch
    (getPlacesFromFoursquare_try w location categoryId maxDistance)
    (fun _ => Ok (VArr [])).

Definition mock (name description distance : string) : value :=
  VObj [("name", VStr name); ("description", VStr description);
        ("distance", VStr distance)].

Definition mockData : list (string * value) :=
  [("coffee", VArr
     [mock "Brew & Bean Cafe" "Cozy corner cafe with artisanal coffee and fresh pastries. Perfect for your caffeine fix!" "5 min walk";
      mock "The Daily Grind" "Hip coffee spot with excellent espresso drinks and comfortable seating." "8 min walk"]);
   ("quick-bite", VArr
     [mock "Urban Eats" "Fast-casual spot with delicious wraps, bowls, and sandwiches ready in minutes." "3 min walk";
      mock "Grab & Go Grill" "Quick service restaurant with tasty burgers and fresh-cut fries." "5 min walk"]);
   ("healthy", VArr
     [mock "Green Leaf Kitchen" "Farm-to-table salads, grain bowls, and fresh smoothies for the health-conscious." "7 min walk";
      mock "Vitality Cafe" "Nutrient-packed meals with vegan and gluten-free options available." "10 min walk"]);
   ("comfort", VArr
     [mock "Mama's Kitchen" "Hearty comfort food classics like mac & cheese, meatloaf, and pot pie." "8 min walk";
      mock "The Cozy Corner" "Warm, inviting spot serving up comfort favorites with a modern twist." "12 min walk"]);
   ("date-night", VArr
     [mock "Bella Notte" "Romantic Italian restaurant with candlelit tables and an extensive wine list." "10 min drive";
      mock "The Secret Garden" "Upscale dining with a beautiful patio setting, perfect for a special evening." "15 min drive"]);
   ("adventure", VArr
     [mock "Spice Route" "Explore bold flavors from around the world with rotating international menus." "12 min drive";
      mock "Fusion Alley" "Creative fusion cuisine that combines unexpected ingredients in delightful ways." "8 min walk"])].

(** [mockData[mood] || mockData['quick-bite']] *)
Definition getMockRecommendations (mood : value) : completion value :=
  found <- lookup B mockData mood ;;
  if truthy B found then Ok found else lookup B mockData (VStr "quick-bite").

(** [`Here are ... ${places.map(p => p.name).join(', ')}.`] *)
Definition places_sentence (l : list value) : completion string :=
  names <- all (map (fun p => get p "name") l) ;;
  text <- join_values B ", " names ;;
  Ok ("Here are some real places in the area to consider: " ++ text ++ ".").

(** [places.length > 0 ? `...` : ''], lines 121-123: of the values of
    [JSON.parse] only an array has a callable [map]. *)
Definition placesContext (places : value) : completion string :=
  match places with
  | VArr l => if (0 <? List.length l)%nat then places_sentence l else Ok ""
  | VStr s => if (0 <? String.length s)%nat then Throw TypeError else Ok ""
  | VObj _ =>
      n <- ToPrimitive B (member places "length") ;;
      if positive B n then Throw TypeError else Ok ""
  | VUndefined | VNull => Throw TypeError
  | _ => Ok ""
  end.

Definition example_line (name description distance hours : string) : string :=
  "  {" ++ q "name" ++ ": " ++ q name ++ ", " ++ q "description" ++ ": " ++ q description
  ++ ", " ++ q "distance" ++ ": " ++ q distance ++ ", " ++ q "hours" ++ ": " ++ q hours
  ++ "}".

(** The prompt of line 127 from the texts of its substitutions. *)
Definition generate_prompt_text (w : World)
  (location user timeAvailable maxDistance context : string) : string :=
  "You are a helpful restaurant recommendation assistant. A user in "
  ++ location ++ " is " ++ user
  ++ ". They have " ++ timeAvailable
  ++ " minutes and can travel up to " ++ maxDistance ++ " meters." ++ nl ++ nl
  ++ "Current time: " ++ currentTime w ++ nl ++ nl
  ++ context ++ nl ++ nl
  ++ "IMPORTANT RULES:" ++ nl
  ++ "1. ONLY recommend major chains or well-established franchises (like Starbucks, Peet's Coffee, Dutch Bros, Panera, Chipotle, etc.) that are guaranteed to still be in business" ++ nl
  ++ "2. DO NOT recommend small local cafes or independent restaurants as they may have closed" ++ nl
  ++ "3. Only recommend places likely to be OPEN at this time based on typical business hours" ++ nl
  ++ "4. Focus on popular, nationwide or regional chains with multiple locations" ++ nl ++ nl
  ++ "Please provide 2-3 restaurant recommendations. For each recommendation, provide:" ++ nl
  ++ "1. A major chain or well-established franchise name that has locations in "
  ++ location ++ nl
  ++ "2. A brief, engaging description of why it fits their mood" ++ nl
  ++ "3. Estimated distance/time if applicable" ++ nl
  ++ "4. Typical hours to confirm it's likely open now" ++ nl ++ nl
  ++ "Format your response as a JSON array with objects containing: name, description, address (optional), distance (optional), rating (optional), hours (optional)."
  ++ nl ++ nl
  ++ "Example format:" ++ nl
  ++ "[" ++ nl
  ++ example_line "Starbucks Reserve"
       "Perfect cozy spot for your coffee craving with artisanal brews and fresh pastries."
       "5 min walk" "Open until 9 PM" ++ "," ++ nl
  ++ example_line "Sweetgreen"
       "Fresh, healthy options with amazing grain bowls and smoothies."
       "10 min walk" "Open until 10 PM" ++ nl
  ++ "]" ++ nl ++ nl
  ++ "Respond ONLY with the JSON array, no other text.".

(** Lines 121-153, which run before the [try] block is entered. *)
Definition generate_prompt (w : World)
  (location mood timeAvailable maxDistance places : value) : completion string :=
  context <- placesContext places ;;
  l <- ToString B location ;;
  d <- lookup B moodDescriptions mood ;;
  user <- ToString B (or_else B d (VStr "looking for food")) ;;
  t <- ToString B timeAvailable ;;
  m <- ToString B maxDistance ;;
  Ok (generate_prompt_text w l user t m context).

(** What the [try] block does with the text of the first candidate. *)
Definition parse_generated (mood : value) (text : value) : completion value :=
  if negb (truthy B text) then getMockRecommendations mood
  else
    jsonMatch <- text_match text ;;
    match jsonMatch with
    | Some m => JSON_parse m
    | None => getMockRecommendations mood
    end.

(** The [try] block of [getGeminiRecommendations]. *)
Definition getGeminiRecommendations_try (w : World) (mood : value) (prompt : string)
  : completion value :=
  r <- await_fetch w (gemini_request w prompt) ;;
  let (status, body) := r in
  if negb (ok_status status) then getMockRecommendations mood
  else
    data <- JSON_parse body ;;
    text <- candidate_text data ;;
    parse_generated mood text.

Definition getGeminiRecommendations (w : World)
  (location mood timeAvailable maxDistance places : value) : completion value :=
  if negb (key_set (GEMINI_API_KEY w)) then getMockRecommendations mood
  else
    prompt <- generate_prompt w location mood timeAvailable maxDistance places ;;
    try_catch
      (getGeminiRecommendations_try w mood prompt)
      (fun _ => getMockRecommendations mood).

Inductive older_body :=
| Nothing
| Problem (error : string)
| Recommendations (recommendations : value).

Record older_response := {
  code : Z;
  sent_headers : list (string * string);
  sent : older_body
}.

Definition reply (c : Z) (b : older_body) : older_response :=
  {| code := c; sent_headers := cors_headers; sent := b |}.

(** The [try] block of the handler. *)
Definition handler_try (w : World) (event : Event) : completion older_response :=
  parsed <- parse_body B event ;;
  location <- get parsed "location" ;;
  let mood := member parsed "mood" in
  let timeAvailable := member parsed "timeAvailable" in
  let maxDistance := member parsed "maxDistance" in
  if negb (truthy B location) || negb (truthy B mood) then
    Ok (reply 400 (Problem "Location and mood are required"))
  else
    places <-
      (if key_set (FOURSQUARE_API_KEY w)
       then getPlacesFromFoursquare w location mood maxDistance
       else Ok (VArr [])) ;;
    recommendations <-
      getGeminiRecommendations w location mood timeAvailable maxDistance places ;;
    Ok (reply 200 (Recommendations recommendations)).

Definition handler (w : World) (event : Event) : older_response :=
  if httpMethod event =? "OPTIONS" then reply 200 Nothing
  else if negb (httpMethod event =? "POST") then reply 405 (Problem "Method not allowed")
  else
    match handler_try w event with
    | Ok response => response
    | Throw _ => reply 500 (Problem "Failed to get recommendations")
    end.

End Functions.

End OlderRevision.

(** * The feedback endpoint

    The second function of the repository: it takes a rating of a
    recommendation and only logs it. *)

Module Feedback.

(** What the function writes to the console. *)
Inductive log :=
| Received (feedback : value)
| Failed (e : error).

Inductive feedback_body :=
| NoBody
| Refused (error : string)
| Accepted (success : bool) (message : string).

Record feedback_response := {
  status : Z;
  headers : list (string * string);
  content : feedback_body
}.

Definition answer (code : Z) (b : feedback_body) : feedback_response :=
  {| status := code; headers := cors_headers; content := b |}.

(** The [try] block: the three fields taken from the parsed body. *)
Definition received (B : Builtins) (event : Event) : completion value :=
  parsed <- parse_body B event ;;
  recommendationId <- get parsed "recommendationId" ;;
  let rating := member parsed "rating" in
  let comment := member parsed "comment" in
  Ok (VObj [("recommendationId", recommendationId);
            ("rating", rating);
            ("comment", comment)]).

(** The response and the lines written to the console. *)
Definition handler (B : Builtins) (event : Event) : feedback_response * list log :=
  if httpMethod event =? "OPTIONS" then (answer 200 NoBody, [])
  else if negb (httpMethod event =? "POST")
  then (answer 405 (Refused "Method not allowed"), [])
  else
    match received B event with
    | Ok feedback =>
        (answer 200 (Accepted true "Thank you for your feedback!"), [Received feedback])
    | Throw e => (answer 500 (Refused "Failed to submit feedback"), [Failed e])
    end.

End Feedback.

(** * A host for running the embedding

    [Builtins] for the examples: binary64 numbers with the shortest
    decimal that reads back, percent-encoding of UTF-8 bytes, and
    [toLowerCase] on ASCII letters (other letters are left as they are). *)

Module Host.

(** ** binary64 *)

(** A number other than zero is [m * 2^e], with [2^52 <= m < 2^53] and
    [-1074 <= e <= 971], or [m < 2^52] and [e = -1074]. The sign of a zero
    is not kept: no operation here tells the two zeros apart. *)
Inductive double :=
| Zero
| Finite (negative : bool) (m e : Z)
| Infinity (negative : bool)
| NaN.

(** The number nearest to [num / den], ties to even, for [0 <= num] and
    [0 < den]. *)
Definition nearest (negative : bool) (num den : Z) : double :=
  if (num =? 0)%Z then Zero
  else
    let e0 := (Z.log2 num - Z.log2 den - 52)%Z in
    let q0 := (if (0 <=? e0)%Z then num / (den * 2 ^ e0)
               else (num * 2 ^ (- e0)) / den)%Z in
    let e1 := (if (q0 <? 2 ^ 52)%Z then e0 - 1 else e0)%Z in
    let e := Z.max e1 (-1074) in
    let n := (if (0 <=? e)%Z then num else num * 2 ^ (- e))%Z in
    let d := (if (0 <=? e)%Z then den * 2 ^ e else den)%Z in
    let q := (n / d)%Z in
    let r := (n mod d)%Z in
    let q := (if (d <? 2 * r)%Z || ((d =? 2 * r)%Z && Z.odd q) then q + 1 else q)%Z in
    let m := (if (q =? 2 ^ 53)%Z then 2 ^ 52 else q)%Z in
    let e := (if (q =? 2 ^ 53)%Z then e + 1 else e)%Z in
    if (m =? 0)%Z then Zero
    else if (971 <? e)%Z then Infinity negative
    else Finite negative m e.

Definition digits_of (z : Z) : list ascii :=
  list_ascii_of_string (NilZero.string_of_uint (N.to_uint (Z.to_N z))).

Definition digit_count (z : Z) : Z := Z.of_nat (List.length (digits_of z)).

(** The number nearest to [mant * 10^exp], for [0 <= mant]. *)
Definition of_decimal (negative : bool) (mant exp : Z) : double :=
  if (mant =? 0)%Z then Zero
  else
    let d := digit_count mant in
    if (310 <? d + exp)%Z then Infinity negative
    else if (d + exp <? -330)%Z then Zero
    else if (0 <=? exp)%Z then nearest negative (mant * 10 ^ exp) 1
    else nearest negative mant (10 ^ (- exp)).

(** The value of a numeric literal of JSON. *)
Definition of_literal (x : number) : double :=
  of_decimal (mant x <? 0)%Z (Z.abs (mant x)) (exp10 x).

Definition of_Z (z : Z) : double := nearest (z <? 0)%Z (Z.abs z) 1.

(** [floor (log10 (num / den))] for a positive [num / den] that is not a
    power of ten below one. *)
Definition log10_floor (num den : Z) : Z :=
  if (den <=? num)%Z then digit_count (num / den) - 1
  else - digit_count (den / num).

(** The shortest decimal [s * 10^scale] that reads back as [m * 2^e],
    the nearest one when two are as short: the digits of Number::toString. *)
Fixpoint shortest (fuel : nat) (k : Z) (m e : Z) : Z * Z :=
  let num := (if (0 <=? e)%Z then m * 2 ^ e else m)%Z in
  let den := (if (0 <=? e)%Z then 1 else 2 ^ (- e))%Z in
  let scale := (log10_floor num den + 1 - k)%Z in
  (* [num / den / 10^scale] as [a / b] *)
  let a := (if (0 <=? scale)%Z then num else num * 10 ^ (- scale))%Z in
  let b := (if (0 <=? scale)%Z then den * 10 ^ scale else den)%Z in
  let lo := (a / b)%Z in
  let hi := (lo + 1)%Z in
  let reads s :=
    match of_decimal false s scale with
    | Finite _ m' e' => (m' =? m)%Z && (e' =? e)%Z
    | _ => false
    end in
  let r := (a mod b)%Z in
  let lo_nearer := ((2 * r <? b) || ((2 * r =? b) && Z.even lo))%Z in
  match fuel with
  | O => (lo, scale)
  | S fuel' =>
      match reads lo, reads hi with
      | true, true => (if lo_nearer then lo else hi, scale)
      | true, false => (lo, scale)
      | false, true => (hi, scale)
      | false, false => shortest fuel' (k + 1)%Z m e
      end
  end.

Fixpoint strip_zeros (rev_digits : list ascii) : list ascii :=
  match rev_digits with
  | c :: r => if Ascii.eqb c "0" then strip_zeros r else rev_digits
  | [] => []
  end.

Definition zeros (n : nat) : list ascii := repeat "0"%char n.

(** Number::toString, radix 10, of the positive [s * 10^scale] whose
    digits are the shortest. *)
Definition decimal_text (s scale : Z) : string :=
  let all := digits_of s in
  let s := rev (strip_zeros (rev all)) in
  let k := Z.of_nat (List.length s) in
  let n := (Z.of_nat (List.length all) + scale)%Z in
  string_of_list_ascii
    (if ((k <=? n) && (n <=? 21))%Z then
       s ++ zeros (Z.to_nat (n - k))
     else if ((0 <? n) && (n <=? 21))%Z then
       firstn (Z.to_nat n) s ++ "."%char :: skipn (Z.to_nat n) s
     else if ((-6 <? n) && (n <=? 0))%Z then
       "0"%char :: "."%char :: zeros (Z.to_nat (- n)) ++ s
     else
       let e := (n - 1)%Z in
       let esign := if (e <? 0)%Z then "-"%char else "+"%char in
       let mantissa :=
         match s with
         | [d] => [d]
         | d :: r => d :: "."%char :: r
         | [] => []
         end in
       mantissa ++ "e"%char :: esign :: digits_of (Z.abs e))%list.

Definition double_text (x : double) : string :=
  match x with
  | Zero => "0"
  | NaN => "NaN"
  | Infinity negative => if negative then "-Infinity" else "Infinity"
  | Finite negative m e =>
      let (s, scale) := shortest 17 1 m e in
      (if negative then "-" else "") ++ decimal_text s scale
  end.

Definition number_text (x : number) : string := double_text (of_literal x).

Definition number_truthy (x : number) : bool :=
  match of_literal x with
  | Zero | NaN => false
  | _ => true
  end.

(** [Math.round]: the integer nearest to [x], ties towards plus infinity. *)
Definition round (x : double) : double :=
  match x with
  | Finite negative m e =>
      if (0 <=? e)%Z then x
      else
        let d := (2 ^ (- e))%Z in
        let n := (if negative then - m else m)%Z in
        of_Z ((2 * n + d) / (2 * d))
  | _ => x
  end.

(** ** StringToNumber *)

Definition white_space : list string :=
  [" "; String (ascii_of_nat 9) ""; String (ascii_of_nat 10) "";
   String (ascii_of_nat 11) ""; String (ascii_of_nat 12) "";
   String (ascii_of_nat 13) ""].

Definition is_space (c : ascii) : bool :=
  existsb (fun s => s =? String c "") white_space.

Fixpoint trim_start (l : list ascii) : list ascii :=
  match l with
  | c :: r => if is_space c then trim_start r else l
  | [] => []
  end.

Definition trim (l : list ascii) : list ascii :=
  rev (trim_start (rev (trim_start l))).

Definition digit_in (radix : Z) (c : ascii) : option Z :=
  match Json.hex_val c with
  | Some n => if (Z.of_N n <? radix)%Z then Some (Z.of_N n) else None
  | None => None
  end.

Fixpoint radix_val (radix : Z) (l : list ascii) (acc : Z) : option Z :=
  match l with
  | [] => Some acc
  | c :: r =>
      match digit_in radix c with
      | Some d => radix_val radix r (radix * acc + d)%Z
      | None => None
      end
  end.

(** StrUnsignedDecimalLiteral without [Infinity]: digits, a fraction and
    an exponent, with at least one digit before the exponent. *)
Definition unsigned_decimal (negative : bool) (l : list ascii) : double :=
  let (int, r) := Json.take_digits l in
  let '(frac, r) :=
    match r with
    | "."%char :: r' => Json.take_digits r'
    | _ => ([], r)
    end in
  if Json.is_nil int && Json.is_nil frac then NaN
  else
    let m := Json.digits_val (int ++ frac) in
    let shift := Z.of_nat (List.length frac) in
    match r with
    | [] => of_decimal negative m (- shift)
    | c :: r' =>
        if Ascii.eqb c "e" || Ascii.eqb c "E" then
          let '(esign, r'') :=
            match r' with
            | "-"%char :: t => (-1, t)%Z
            | "+"%char :: t => (1, t)%Z
            | _ => (1, r')%Z
            end in
          let (ds, rest) := Json.take_digits r'' in
          if Json.is_nil ds || negb (Json.is_nil rest) then NaN
          else of_decimal negative m (esign * Json.digits_val ds - shift)
        else NaN
    end.

Definition infinity_text : list ascii := list_ascii_of_string "Infinity".

Definition list_eqb (a b : list ascii) : bool :=
  string_of_list_ascii a =? string_of_list_ascii b.

Definition signed_decimal (negative : bool) (l : list ascii) : double :=
  if list_eqb l infinity_text then Infinity negative else unsigned_decimal negative l.

Definition radix_literal (radix : Z) (l : list ascii) : double :=
  match l with
  | [] => NaN
  | _ =>
      match radix_val radix l 0 with
      | Some z => of_Z z
      | None => NaN
      end
  end.

Definition string_to_number (s : string) : double :=
  match trim (list_ascii_of_string s) with
  | [] => Zero
  | "-"%char :: r => signed_decimal true r
  | "+"%char :: r => signed_decimal false r
  | "0"%char :: "x"%char :: r | "0"%char :: "X"%char :: r => radix_literal 16 r
  | "0"%char :: "o"%char :: r | "0"%char :: "O"%char :: r => radix_literal 8 r
  | "0"%char :: "b"%char :: r | "0"%char :: "B"%char :: r => radix_literal 2 r
  | l => signed_decimal false l
  end.

(** ToNumber of a primitive. *)
Definition to_number (v : value) : double :=
  match v with
  | VNull => Zero
  | VBool true => of_Z 1
  | VBool false => Zero
  | VNum n => of_literal n
  | VStr s => string_to_number s
  | _ => NaN
  end.

Definition round_text (v : value) : string := double_text (round (to_number v)).

(** The longest string of the engine. *)
Definition max_length : Z := 536870888.

(** ToIntegerOrInfinity, refused when negative or too long. *)
Definition count (v : value) : option nat :=
  match to_number v with
  | Zero | NaN => Some O
  | Infinity _ => None
  | Finite negative m e =>
      let t := (if (0 <=? e)%Z then m * 2 ^ e else m / 2 ^ (- e))%Z in
      if (t =? 0)%Z then Some O
      else if negative || (max_length <? t)%Z then None
      else Some (Z.to_nat t)
  end.

(** [v > 0] *)
Definition is_positive (v : value) : bool :=
  match to_number v with
  | Finite false _ _ | Infinity false => true
  | _ => false
  end.

(** ** Strings *)

Definition lower_char (c : ascii) : ascii :=
  let n := nat_of_ascii c in
  if (65 <=? n)%nat && (n <=? 90)%nat then ascii_of_nat (n + 32) else c.

Definition to_lower (s : string) : string :=
  string_of_list_ascii (map lower_char (list_ascii_of_string s)).

(** [s] contains [t]. *)
Fixpoint contains (s t : string) : bool :=
  is_prefix t s ||
  match s with
  | EmptyString => false
  | String _ s' => contains s' t
  end.

Definition unreserved (c : ascii) : bool :=
  let n := nat_of_ascii c in
  ((65 <=? n)%nat && (n <=? 90)%nat) || ((97 <=? n)%nat && (n <=? 122)%nat)
  || is_digit c
  || existsb (Ascii.eqb c) (list_ascii_of_string "-_.!~*'()").

Definition hex_digit (n : nat) : ascii :=
  if (n <? 10)%nat then ascii_of_nat (48 + n) else ascii_of_nat (55 + n).

Definition percent (c : ascii) : list ascii :=
  if unreserved c then [c]
  else
    let n := nat_of_ascii c in
    ["%"%char; hex_digit (n / 16); hex_digit (n mod 16)].

(** A surrogate that is not part of a pair is three bytes from [ED A0]. *)
Fixpoint lone_surrogate (l : list ascii) : bool :=
  match l with
  | a :: r =>
      match r with
      | b :: _ =>
          ((nat_of_ascii a =? 237)%nat && (160 <=? nat_of_ascii b)%nat)
          || lone_surrogate r
      | [] => false
      end
  | [] => false
  end.

Definition encode_uri_component (s : string) : option string :=
  let l := list_ascii_of_string s in
  if lone_surrogate l then None
  else Some (string_of_list_ascii (flat_map percent l)).

(** The text of the member [k] that an object literal inherits:
    [constructor] is the function [Object], [__proto__] is the prototype
    itself. *)
Definition native (k : string) : string :=
  if k =? "__proto__" then "[object Object]"
  else if k =? "constructor" then "function Object() { [native code] }"
  else "function " ++ k ++ "() { [native code] }".

Definition builtins : Builtins :=
  {| toLowerCase := to_lower;
     includes := contains;
     encodeURIComponent := encode_uri_component;
     Number_truthy := number_truthy;
     Number_toString := number_text;
     Math_round_text := round_text;
     repeat_count := count;
     positive := is_positive;
     native_text := native |}.

End Host.

(** * Properties *)

(** ** Parsing *)

Module JsonFuel.

Import Json.

Lemma skip_ws_length s : (List.length (skip_ws s) <= List.length s)%nat.
Proof.
  induction s as [|c r IH]; cbn; [lia|].
  destruct (is_ws c); cbn; lia.
Qed.

Lemma skip_ws_cons s c r :
  skip_ws s = c :: r -> (List.length r < List.length s)%nat.
Proof. intros H. pose proof (skip_ws_length s) as L. rewrite H in L. cbn in L. lia. Qed.

Lemma eat_length c s r : eat c s = Some r -> (List.length r < List.length s)%nat.
Proof.
  destruct s as [|d t]; cbn; [discriminate|].
  destruct (Ascii.eqb d c); [|discriminate]. intros H; injection H as <-. lia.
Qed.

Lemma closes_length c s r : closes c s = Some r -> (List.length r < List.length s)%nat.
Proof.
  unfold closes. destruct (skip_ws s) as [|d t] eqn:E; [discriminate|].
  destruct (Ascii.eqb d c); [|discriminate]. intros H; injection H as <-.
  eapply skip_ws_cons; eassumption.
Qed.

Lemma parse_chars_length n :
  forall s acc str r,
    (List.length s <= n)%nat -> parse_chars s acc = Some (str, r) ->
    (List.length r < List.length s)%nat.
Proof.
  induction n as [|n IH]; intros s acc str r Hn H.
  - destruct s; [discriminate | cbn in Hn; lia].
  - destruct s as [|c t]; [discriminate|]. cbn [parse_chars] in H. cbn in Hn.
    destruct (Ascii.eqb c dquote).
    { injection H as _ <-. cbn. lia. }
    destruct (Ascii.eqb c backslash).
    + destruct t as [|e t']; [discriminate|]. cbn in Hn.
      destruct (Ascii.eqb e "u").
      * destruct t' as [|h1 [|h2 [|h3 [|h4 t'']]]]; try discriminate.
        destruct (hex4 h1 h2 h3 h4) as [code|]; [|discriminate].
        destruct t'' as [|b [|u [|k1 [|k2 [|k3 [|k4 r3]]]]]];
          try (apply IH in H; cbn in *; lia).
        destruct (if is_high code && Ascii.eqb b backslash && Ascii.eqb u "u"
                  then hex4 k1 k2 k3 k4 else None) as [m|];
          [destruct (is_low m)|];
          apply IH in H; cbn in *; lia.
      * destruct (simple_escape e); [|discriminate].
        apply IH in H; cbn in *; lia.
    + destruct (nat_of_ascii c <? 32)%nat; [discriminate|].
      apply IH in H; cbn in *; lia.
Qed.

Lemma take_digits_length s ds r :
  take_digits s = (ds, r) -> (List.length r <= List.length s)%nat.
Proof.
  revert ds r. induction s as [|c t IH]; intros ds r H; cbn in H.
  - injection H as _ <-. lia.
  - destruct (is_digit c).
    + destruct (take_digits t) as [ds' r'] eqn:E. injection H as _ <-.
      specialize (IH _ _ eq_refl). cbn. lia.
    + injection H as _ <-. lia.
Qed.

Lemma parse_frac_length s fp r :
  parse_frac s = Some (fp, r) -> (List.length r <= List.length s)%nat.
Proof.
  unfold parse_frac. destruct (eat "." s) as [t|] eqn:E.
  - destruct (take_digits t) as [ds r'] eqn:D. destruct (is_nil ds); [discriminate|].
    intros H; injection H as _ <-.
    apply eat_length in E. apply take_digits_length in D. lia.
  - intros H; injection H as _ <-. lia.
Qed.

Lemma parse_exp_length s e r :
  parse_exp s = Some (e, r) -> (List.length r <= List.length s)%nat.
Proof.
  unfold parse_exp.
  destruct (match eat "e" s with Some t => Some t | None => eat "E" s end) as [t|] eqn:E.
  - assert (Ht : (List.length t < List.length s)%nat).
    { destruct (eat "e" s) eqn:E1; [injection E as <-|]; eapply eat_length; eassumption. }
    destruct (match eat "-" t with
              | Some u => (true, u)
              | None => match eat "+" t with Some u => (false, u) | None => (false, t) end
              end) as [eneg r1] eqn:S.
    assert (Hr1 : (List.length r1 <= List.length t)%nat).
    { destruct (eat "-" t) eqn:E1.
      - injection S as _ <-. apply eat_length in E1. lia.
      - destruct (eat "+" t) eqn:E2; injection S as _ <-;
          [apply eat_length in E2; lia | lia]. }
    destruct (take_digits r1) as [ep r2] eqn:D. destruct (is_nil ep); [discriminate|].
    intros H; injection H as _ <-. apply take_digits_length in D. lia.
  - intros H; injection H as _ <-. lia.
Qed.

Lemma parse_number_length s n r :
  parse_number s = Some (n, r) -> (List.length r <= List.length s)%nat.
Proof.
  unfold parse_number.
  destruct (match eat "-" s with Some t => (true, t) | None => (false, s) end)
    as [neg s1] eqn:S.
  assert (H1 : (List.length s1 <= List.length s)%nat).
  { destruct (eat "-" s) eqn:E; injection S as _ <-; [apply eat_length in E; lia | lia]. }
  destruct (take_digits s1) as [ip s2] eqn:D. apply take_digits_length in D.
  destruct (is_nil ip || leading_zero ip); [discriminate|].
  destruct (parse_frac s2) as [[fp s3]|] eqn:F; [|discriminate].
  destruct (parse_exp s3) as [[e s4]|] eqn:X; [|discriminate].
  intros H; injection H as _ <-.
  apply parse_frac_length in F. apply parse_exp_length in X. lia.
Qed.

Lemma parse_literal_length s v r :
  parse_literal s = Some (v, r) -> (List.length r <= List.length s)%nat.
Proof.
  unfold parse_literal. intros H.
  repeat match type of H with
         | match ?l with _ => _ end = _ =>
             is_var l; destruct l as [|? ?]; try discriminate
         | match ?c with _ => _ end = _ =>
             is_var c; destruct c as [[] [] [] [] [] [] [] []]; try discriminate
         end;
    injection H as _ <-; cbn; lia.
Qed.

(** No parser gives back more text than it was given. *)
Lemma parse_length fuel :
  (forall s v r, parse_value fuel s = Some (v, r) ->
                 (List.length r <= List.length s)%nat)
  /\ (forall s acc v r, parse_elements fuel s acc = Some (v, r) ->
                        (List.length r <= List.length s)%nat)
  /\ (forall s acc v r, parse_members fuel s acc = Some (v, r) ->
                        (List.length r <= List.length s)%nat).
Proof.
  induction fuel as [|f (IHv & IHe & IHm)]; [repeat split; discriminate|].
  repeat split.
  - intros s v r H. cbn [parse_value] in H.
    destruct (skip_ws s) as [|c t] eqn:W; [discriminate|].
    apply skip_ws_cons in W.
    destruct (Ascii.eqb c dquote).
    { destruct (parse_chars t []) as [[str rest]|] eqn:C; [|discriminate].
      injection H as _ <-. apply (parse_chars_length _ _ _ _ _ (le_n _)) in C. lia. }
    destruct (Ascii.eqb c "[").
    { destruct (closes "]" t) as [rest|] eqn:C.
      - injection H as _ <-. apply closes_length in C. lia.
      - apply IHe in H. lia. }
    destruct (Ascii.eqb c "{").
    { destruct (closes "}" t) as [rest|] eqn:C.
      - injection H as _ <-. apply closes_length in C. lia.
      - apply IHm in H. lia. }
    destruct (is_letter c).
    { apply parse_literal_length in H. cbn in H. lia. }
    destruct (parse_number (c :: t)) as [[n rest]|] eqn:N; [|discriminate].
    injection H as _ <-. apply parse_number_length in N. cbn in N. lia.
  - intros s acc v r H. cbn [parse_elements] in H.
    destruct (parse_value f s) as [[x t]|] eqn:V; [|discriminate].
    apply IHv in V.
    destruct (skip_ws t) as [|c rest] eqn:W; [discriminate|].
    apply skip_ws_cons in W.
    destruct (Ascii.eqb c ","); [apply IHe in H; lia|].
    destruct (Ascii.eqb c "]"); [|discriminate].
    injection H as _ <-. lia.
  - intros s acc v r H. cbn [parse_members] in H.
    destruct (skip_ws s) as [|c t] eqn:W; [discriminate|].
    apply skip_ws_cons in W.
    destruct (Ascii.eqb c dquote); [|discriminate].
    destruct (parse_chars t []) as [[key r1]|] eqn:C; [|discriminate].
    apply (parse_chars_length _ _ _ _ _ (le_n _)) in C.
    destruct (closes ":" r1) as [r2|] eqn:K; [|discriminate].
    apply closes_length in K.
    destruct (parse_value f r2) as [[x r3]|] eqn:V; [|discriminate].
    apply IHv in V.
    destruct (skip_ws r3) as [|d rest] eqn:W3; [discriminate|].
    apply skip_ws_cons in W3.
    destruct (Ascii.eqb d ","); [apply IHm in H; lia|].
    destruct (Ascii.eqb d "}"); [|discriminate].
    injection H as _ <-. lia.
Qed.

(** Beyond twice the length of the text, fuel changes nothing. *)
Lemma parse_stable f :
  forall f',
    (forall s, (2 * List.length s + 1 <= f)%nat -> (2 * List.length s + 1 <= f')%nat ->
               parse_value f s = parse_value f' s)
    /\ (forall s acc,
          (2 * List.length s + 2 <= f)%nat -> (2 * List.length s + 2 <= f')%nat ->
          parse_elements f s acc = parse_elements f' s acc)
    /\ (forall s acc,
          (2 * List.length s + 2 <= f)%nat -> (2 * List.length s + 2 <= f')%nat ->
          parse_members f s acc = parse_members f' s acc).
Proof.
  induction f as [|f IH]; intros f'.
  { repeat split; intros; lia. }
  destruct f' as [|f']; [repeat split; intros; lia|].
  destruct (IH f') as (IHv & IHe & IHm).
  repeat split.
  - intros s Hf Hf'. cbn [parse_value].
    destruct (skip_ws s) as [|c t] eqn:W; [reflexivity|].
    apply skip_ws_cons in W.
    destruct (Ascii.eqb c dquote); [reflexivity|].
    destruct (Ascii.eqb c "[").
    { destruct (closes "]" t); [reflexivity | apply IHe; lia]. }
    destruct (Ascii.eqb c "{").
    { destruct (closes "}" t); [reflexivity | apply IHm; lia]. }
    reflexivity.
  - intros s acc Hf Hf'. cbn [parse_elements].
    rewrite (IHv s) by lia.
    destruct (parse_value f' s) as [[x t]|] eqn:V; [|reflexivity].
    apply (proj1 (parse_length f')) in V.
    destruct (skip_ws t) as [|c rest] eqn:W; [reflexivity|].
    apply skip_ws_cons in W.
    destruct (Ascii.eqb c ","); [apply IHe; lia | reflexivity].
  - intros s acc Hf Hf'. cbn [parse_members].
    destruct (skip_ws s) as [|c t] eqn:W; [reflexivity|].
    apply skip_ws_cons in W.
    destruct (Ascii.eqb c dquote); [|reflexivity].
    destruct (parse_chars t []) as [[key r1]|] eqn:C; [|reflexivity].
    apply (parse_chars_length _ _ _ _ _ (le_n _)) in C.
    destruct (closes ":" r1) as [r2|] eqn:K; [|reflexivity].
    apply closes_length in K.
    rewrite (IHv r2) by lia.
    destruct (parse_value f' r2) as [[x r3]|] eqn:V; [|reflexivity].
    apply (proj1 (parse_length f')) in V.
    destruct (skip_ws r3) as [|d rest] eqn:W3; [reflexivity|].
    apply skip_ws_cons in W3.
    destruct (Ascii.eqb d ","); [apply IHm; lia | reflexivity].
Qed.

(** The fuel that [JSON.parse] runs with is enough: with more fuel the
    result is the same, so a SyntaxError is never for want of fuel. *)
Lemma parse_value_fuel s fuel :
  (enough s <= fuel)%nat -> parse_value fuel s = parse_value (enough s) s.
Proof.
  intros H. unfold enough in *. apply (proj1 (parse_stable fuel _)); lia.
Qed.

End JsonFuel.

Lemma parse_elements_array fuel s acc v rest :
  Json.parse_elements fuel s acc = Some (v, rest) -> exists l, v = VArr l.
Proof.
  revert s acc.
  induction fuel as [|f IH]; intros s acc H; [discriminate|].
  cbn [Json.parse_elements] in H.
  destruct (Json.parse_value f s) as [[x r]|]; [|discriminate].
  destruct (Json.skip_ws r) as [|c r']; [discriminate|].
  destruct (Ascii.eqb c ","); [eapply IH; eassumption|].
  destruct (Ascii.eqb c "]"); [|discriminate].
  injection H as <- _. eexists; reflexivity.
Qed.

(** A text that starts with an opening bracket denotes an array, if it
    denotes anything. *)
Lemma JSON_parse_bracket p v :
  JSON_parse (string_of_list_ascii ("["%char :: p)) = Ok v -> exists l, v = VArr l.
Proof.
  unfold JSON_parse, Json.parse, Json.enough.
  rewrite list_ascii_of_string_of_list_ascii.
  remember (2 * List.length ("["%char :: p) + 2)%nat as fuel eqn:Hf.
  destruct fuel as [|f]; [cbn in Hf; lia|].
  cbn [Json.parse_value Json.skip_ws].
  change (Json.is_ws "[") with false. cbv iota.
  change (Ascii.eqb "[" dquote) with false.
  change (Ascii.eqb "[" "[") with true. cbv iota.
  destruct (Json.closes "]" p) as [r|].
  - destruct (Json.skip_ws r); intros H; inversion H; eauto.
  - destruct (Json.parse_elements f p []) as [[x rest]|] eqn:E; [|discriminate].
    destruct (parse_elements_array _ _ _ _ _ E) as [l ->].
    destruct (Json.skip_ws rest); intros H; inversion H; eauto.
Qed.

Lemma match_brackets_open t m :
  match_brackets t = Some m -> exists p, m = string_of_list_ascii ("["%char :: p).
Proof.
  unfold match_brackets.
  destruct (from_first_open _) as [r|]; [|discriminate].
  destruct (through_last_close r) as [p|]; [|discriminate].
  intros H; injection H as <-. eexists; reflexivity.
Qed.

Lemma match_brackets_array t m v :
  match_brackets t = Some m -> JSON_parse m = Ok v -> exists l, v = VArr l.
Proof.
  intros Hm Hp. destruct (match_brackets_open _ _ Hm) as [p ->].
  eapply JSON_parse_bracket; eassumption.
Qed.

(** ** Completions *)

Lemma bind_Ok {A C} (c : completion A) (k : A -> completion C) v :
  bind c k = Ok v -> exists a, c = Ok a /\ k a = Ok v.
Proof. destruct c; cbn; [eauto | discriminate]. Qed.

Lemma try_catch_total {A} (body : completion A) (handler : error -> completion A) :
  (forall e, exists a, handler e = Ok a) -> exists a, try_catch body handler = Ok a.
Proof. intros H. destruct body; cbn; eauto. Qed.

Ltac bind_inv H :=
  let a := fresh "a" in
  let E := fresh "E" in
  apply bind_Ok in H; destruct H as (a & E & H).

Tactic Notation "invert_bind" hyp(H) "as" ident(a) ident(E) :=
  apply bind_Ok in H; destruct H as (a & E & H).

Lemma all_map_Ok {A C} (f : A -> completion C) (P : A -> Prop) (Q : C -> Prop) l :
  (forall x, P x -> exists v, f x = Ok v /\ Q v) ->
  Forall P l ->
  exists vs, all (map f l) = Ok vs /\ List.length vs = List.length l /\ Forall Q vs.
Proof.
  intros Hf. induction 1 as [|x r Hx _ (vs & E & L & F)].
  - exists []. repeat split; constructor.
  - destruct (Hf x Hx) as (v & Ev & Qv).
    exists (v :: vs). cbn [map all]. rewrite Ev, E. cbn.
    repeat split; [congruence | constructor; assumption].
Qed.

Lemma all_map_inv {A C} (f : A -> completion C) (Q : C -> Prop) l vs :
  (forall x v, f x = Ok v -> Q v) ->
  all (map f l) = Ok vs -> Forall Q vs /\ List.length vs = List.length l.
Proof.
  intros Hf. revert vs. induction l as [|x r IH]; intros vs H; cbn in H.
  - injection H as <-. split; [constructor | reflexivity].
  - bind_inv H. bind_inv H. injection H as <-.
    destruct (IH _ E0). split; [constructor; eauto | cbn; congruence].
Qed.

(** [all] raises exactly when one of the completions does. *)
Lemma all_map_Throw {A C} (f : A -> completion C) l e :
  all (map f l) = Throw e -> exists x, In x l /\ f x = Throw e.
Proof.
  induction l as [|x r IH]; cbn; [discriminate|].
  destruct (f x) as [v|e'] eqn:E; cbn.
  - destruct (all (map f r)) as [vs|e'']; cbn; [discriminate|].
    intros H. injection H as ->. destruct IH as (y & Hy & Ey); eauto.
  - intros H. injection H as ->. eauto.
Qed.

Lemma all_map_raises {A C} (f : A -> completion C) l x e :
  In x l -> f x = Throw e -> exists e', all (map f l) = Throw e'.
Proof.
  induction l as [|y r IH]; intros Hin Hx; [destruct Hin|].
  cbn. destruct Hin as [->|Hin].
  - rewrite Hx. cbn. eauto.
  - destruct (f y); cbn; [|eauto].
    destruct (IH Hin Hx) as (e' & ->). cbn. eauto.
Qed.

Definition nullish (v : value) : bool :=
  match v with
  | VUndefined | VNull => true
  | _ => false
  end.

Definition is_object (v : value) : bool :=
  match v with
  | VObj _ => true
  | _ => false
  end.

Lemma get_member v k : nullish v = false -> get v k = Ok (member v k).
Proof. destruct v; try discriminate; reflexivity. Qed.

Lemma get_Ok v k x : get v k = Ok x -> nullish v = false /\ x = member v k.
Proof. destruct v; cbn; try discriminate; intros H; injection H as <-; auto. Qed.

(** ** Conversion to text *)

Section Conversions.

Variable B : Builtins.

(** The value can be converted to text. *)
Definition prints (v : value) : bool :=
  match ToString B v with
  | Ok _ => true
  | Throw _ => false
  end.

(** The object that [JSON.parse] gives for [{"toString":1}]. *)
Definition unprintable : value := VObj [("toString", VInt 1)].

Lemma ToString_unprintable : ToString B unprintable = Throw TypeError.
Proof. reflexivity. Qed.

Lemma truthy_not_nullish v : truthy B v = true -> nullish v = false.
Proof. destruct v; cbn; congruence. Qed.

Lemma item_text_truthy v : truthy B v = true -> item_text B v = ToString B v.
Proof. destruct v; cbn; try discriminate; reflexivity. Qed.

Lemma prints_Ok v : prints v = true -> exists s, ToString B v = Ok s.
Proof. unfold prints. destruct (ToString B v); [eauto | discriminate]. Qed.

Lemma Ok_prints v s : ToString B v = Ok s -> prints v = true.
Proof. unfold prints. intros ->. reflexivity. Qed.

Lemma ToPrimitive_prints v : prints v = true -> exists p, ToPrimitive B v = Ok p.
Proof.
  intros H. destruct (prints_Ok _ H) as (s & E).
  destruct v; cbn [ToPrimitive]; try rewrite E; cbn; eauto.
Qed.

Lemma lookup_Ok table key k :
  ToString B key = Ok k ->
  lookup B table key
  = Ok (match own table k with
        | Some v => v
        | None => if is_prototype_key k then VNative k else VUndefined
        end).
Proof. unfold lookup. intros ->. reflexivity. Qed.

Lemma lookup_Throw table key e :
  ToString B key = Throw e -> lookup B table key = Throw e.
Proof. unfold lookup. intros ->. reflexivity. Qed.

Lemma lookup_inv table key v :
  lookup B table key = Ok v -> exists k, ToString B key = Ok k.
Proof. unfold lookup. destruct (ToString B key); cbn; [eauto | discriminate]. Qed.

End Conversions.

(** ** Mock Recommendation Table *)

Section MockTable.

Variable B : Builtins.

Definition supported_moods : list string :=
  ["coffee"; "quick-bite"; "healthy"; "comfort"; "date-night"; "adventure"].

Definition quick_bite : value :=
  VArr
    [mock "Chipotle" "Fast-casual spot with delicious burritos and bowls ready in minutes." "3 min walk";
     mock "Panera Bread" "Quick service restaurant with fresh sandwiches and soups." "5 min walk"].

Lemma own_mockData_supported m :
  In m supported_moods -> exists a b, own mockData m = Some (VArr [a; b]).
Proof.
  intros H. repeat (destruct H as [<-|H]; [do 2 eexists; reflexivity|]).
  destruct H.
Qed.

(** For a supported mood the table gives its own list of two entries. *)
Lemma getMockRecommendations_supported m :
  In m supported_moods ->
  exists a b, own mockData m = Some (VArr [a; b])
              /\ getMockRecommendations B (VStr m) = Ok (VArr [a; b]).
Proof.
  intros H. destruct (own_mockData_supported m H) as (a & b & E).
  exists a, b. split; [exact E|].
  unfold getMockRecommendations. rewrite (lookup_Ok B mockData (VStr m) m eq_refl), E. reflexivity.
Qed.

(** For a mood string that is neither in the table nor the name of a
    member of [Object.prototype], the table gives the quick-bite list. *)
Lemma getMockRecommendations_default m :
  own mockData m = None -> is_prototype_key m = false ->
  getMockRecommendations B (VStr m) = Ok quick_bite.
Proof.
  intros E P. unfold getMockRecommendations.
  rewrite (lookup_Ok B mockData (VStr m) m eq_refl), E, P. reflexivity.
Qed.

(** Whatever the mood, as long as its key is no member of
    [Object.prototype], the table gives a list of exactly two entries. *)
Lemma getMockRecommendations_two mood k :
  ToString B mood = Ok k -> is_prototype_key k = false ->
  exists a b, getMockRecommendations B mood = Ok (VArr [a; b]).
Proof.
  intros Hk P. unfold getMockRecommendations. rewrite (lookup_Ok B _ _ k Hk), P.
  cbn [own mockData].
  repeat match goal with
         | |- context [String.eqb ?a k] => destruct (String.eqb a k)
         end; do 2 eexists; reflexivity.
Qed.

(** A mood string that names a member of [Object.prototype] gets that
    member. *)
Lemma getMockRecommendations_prototype m :
  In m object_prototype_keys -> getMockRecommendations B (VStr m) = Ok (VNative m).
Proof.
  intros H. repeat (destruct H as [<-|H]; [reflexivity|]). destruct H.
Qed.

(** The table answers exactly when the mood can be a property key, and
    then with something truthy. *)
Lemma getMockRecommendations_Ok mood k :
  ToString B mood = Ok k ->
  exists v, getMockRecommendations B mood = Ok v /\ truthy B v = true.
Proof.
  intros Hk. unfold getMockRecommendations. rewrite (lookup_Ok B _ _ k Hk). cbn [bind].
  match goal with |- context [truthy B ?x] => destruct (truthy B x) eqn:T end.
  - eauto.
  - rewrite (lookup_Ok B mockData (VStr "quick-bite") "quick-bite" eq_refl).
    eexists. split; reflexivity.
Qed.

Lemma getMockRecommendations_Throw mood e :
  ToString B mood = Throw e -> getMockRecommendations B mood = Throw e.
Proof.
  intros H. unfold getMockRecommendations. rewrite (lookup_Throw B _ _ _ H). reflexivity.
Qed.

Lemma getMockRecommendations_inv mood v :
  getMockRecommendations B mood = Ok v -> exists k, ToString B mood = Ok k.
Proof.
  destruct (ToString B mood) as [k|e] eqn:E; [eauto|].
  rewrite (getMockRecommendations_Throw _ _ E). discriminate.
Qed.

(** C8: a mood string that names a member of [Object.prototype] is not in
    the table, yet the lookup finds the inherited member, which is truthy,
    and returns it instead of the quick-bite list. *)
Theorem C8_prototype_key_not_defaulted :
  own mockData "constructor" = None
  /\ getMockRecommendations B (VStr "constructor") = Ok (VNative "constructor")
  /\ getMockRecommendations B (VStr "constructor") <> Ok quick_bite.
Proof.
  repeat split; try reflexivity. discriminate.
Qed.

End MockTable.

(** The table has a failure mode: a mood that cannot be a property key. *)
Example getMockRecommendations_raises :
  JSON_parse ("{" ++ q "toString" ++ ":1}") = Ok unprintable
  /\ getMockRecommendations Host.builtins unprintable = Throw TypeError.
Proof. split; reflexivity. Qed.

(** ** Address formatting *)

Section Address.

Variable B : Builtins.

Definition address_fields : list string := ["address"; "locality"; "region"; "postcode"].

(** The fields of [location] that are set, in the order of the address. *)
Definition set_fields (location : value) : list value :=
  filter (truthy B) (map (member location) address_fields).

(** What formatting makes of the texts of the fields that are set. *)
Definition joined (texts : list string) : value :=
  if join ", " texts =? "" then VNull else VStr (join ", " texts).

Lemma address_parts_set_fields location : address_parts B location = set_fields location.
Proof.
  unfold address_parts, set_fields, push_if, address_fields. cbn [map filter].
  destruct (truthy B (member location "address")),
           (truthy B (member location "locality")),
           (truthy B (member location "region")),
           (truthy B (member location "postcode")); reflexivity.
Qed.

Lemma set_fields_truthy location : Forall (fun f => truthy B f = true) (set_fields location).
Proof. apply Forall_forall. intros f H. apply filter_In in H. apply H. Qed.

Lemma map_item_text l :
  Forall (fun f => truthy B f = true) l -> map (item_text B) l = map (ToString B) l.
Proof.
  induction 1 as [|x r Hx _ IH]; [reflexivity|].
  cbn. now rewrite IH, item_text_truthy.
Qed.

Lemma formatAddress_joined location :
  formatAddress B location
  = if truthy B location
    then texts <- all (map (ToString B) (set_fields location)) ;; Ok (joined texts)
    else Ok VNull.
Proof.
  unfold formatAddress, join_values, joined, or_else.
  destruct (truthy B location); [|reflexivity]. cbn [negb].
  rewrite address_parts_set_fields, map_item_text by apply set_fields_truthy.
  destruct (all (map (ToString B) (set_fields location))) as [texts|e]; [|reflexivity].
  cbn [bind truthy]. destruct (join ", " texts =? ""); reflexivity.
Qed.

Lemma formatAddress_result location a :
  formatAddress B location = Ok a -> a = VNull \/ exists s, s <> "" /\ a = VStr s.
Proof.
  rewrite formatAddress_joined.
  destruct (truthy B location); [|intros H; injection H as <-; now left].
  destruct (all (map (ToString B) (set_fields location))) as [texts|e]; [|discriminate].
  cbn [bind]. unfold joined. intros H.
  destruct (String.eqb_spec (join ", " texts) ""); injection H as <-; [now left|].
  right. eauto.
Qed.

Lemma formatAddress_of_string s : formatAddress B (VStr s) = Ok VNull.
Proof.
  unfold formatAddress. destruct (truthy B (VStr s)); reflexivity.
Qed.

Lemma formatAddress_null : formatAddress B VNull = Ok VNull.
Proof. reflexivity. Qed.

End Address.

(** C7, as amended: address formatting joins the texts of the fields among
    address, locality, region and postcode that are set with a comma and a
    space, and raises when one of them cannot be converted to text; its
    result is never the empty string, and it is null when no field is set;
    applied to its own output it gives null, so it is idempotent only
    where its result is null. *)
Theorem C7_formatAddress (B : Builtins) (location : value) :
  formatAddress B location
  = (if truthy B location
     then texts <- all (map (ToString B) (set_fields B location)) ;;
          Ok (joined texts)
     else Ok VNull)
  /\ formatAddress B location <> Ok (VStr "")
  /\ (set_fields B location = [] -> formatAddress B location = Ok VNull)
  /\ (Forall (fun f => prints B f = true) (set_fields B location) ->
      exists a, formatAddress B location = Ok a)
  /\ (truthy B location = true ->
      forall f e, In f (set_fields B location) -> ToString B f = Throw e ->
      exists e', formatAddress B location = Throw e')
  /\ (forall a, formatAddress B location = Ok a ->
      formatAddress B a = Ok VNull
      /\ (formatAddress B a = Ok a <-> a = VNull)).
Proof.
  split; [apply formatAddress_joined|].
  split.
  { intros H. destruct (formatAddress_result B _ _ H) as [E|(s & Hs & E)];
      [discriminate | congruence]. }
  split.
  { intros E. rewrite formatAddress_joined, E. destruct (truthy B location); reflexivity. }
  split.
  { intros H. rewrite formatAddress_joined. destruct (truthy B location); [|eauto].
    destruct (all_map_Ok (ToString B) (fun f => prints B f = true) (fun _ => True)
                (set_fields B location)) as (texts & -> & _); [|exact H|cbn; eauto].
    intros f Hf. destruct (prints_Ok B f Hf) as (s & ->). eauto. }
  split.
  { intros Ht f e Hin He. rewrite formatAddress_joined, Ht.
    destruct (all_map_raises (ToString B) _ f e Hin He) as (e' & ->). cbn. eauto. }
  intros a H.
  assert (Ha : formatAddress B a = Ok VNull).
  { destruct (formatAddress_result B _ _ H) as [->|(s & _ & ->)];
      [reflexivity | apply formatAddress_of_string]. }
  split; [exact Ha|]. rewrite Ha. split; congruence.
Qed.

Definition main_street : value :=
  VObj [("address", VStr "1 Main St"); ("locality", VStr "Seattle");
        ("region", VStr "WA"); ("postcode", VStr "98101")].

Lemma C7_formatAddress_witness :
  formatAddress Host.builtins (VStr "1 Main St, Seattle, WA, 98101") = Ok VNull
  /\ (formatAddress Host.builtins (VStr "1 Main St, Seattle, WA, 98101")
      = Ok (VStr "1 Main St, Seattle, WA, 98101")
      <-> VStr "1 Main St, Seattle, WA, 98101" = VNull).
Proof.
  refine (proj2 (proj2 (proj2 (proj2 (proj2
            (C7_formatAddress Host.builtins main_street)))))
            (VStr "1 Main St, Seattle, WA, 98101") _).
  reflexivity.
Defined.

(** C7, as stated, fails: formatting the address that formatting produced
    from a location with its four fields does not give that address back. *)
Lemma C7_not_idempotent :
  formatAddress Host.builtins main_street = Ok (VStr "1 Main St, Seattle, WA, 98101")
  /\ formatAddress Host.builtins (VStr "1 Main St, Seattle, WA, 98101") = Ok VNull.
Proof. split; reflexivity. Qed.

Example formatAddress_no_fields :
  formatAddress Host.builtins (VObj [("country", VStr "US")]) = Ok VNull.
Proof. reflexivity. Qed.

(** A street that is an object with a [toString] of its own. *)
Example formatAddress_raises :
  formatAddress Host.builtins (VObj [("address", unprintable)]) = Throw TypeError.
Proof. reflexivity. Qed.

(** ** Hours formatting *)

Section Hours.

Variable B : Builtins.
Variable w : World.





Lemma days_is_today_undefined : days_is_today w "undefined" = false.
Proof. reflexivity. Qed.










End Hours.


(** A provider that refuses every connection. *)
Definition offline (foursquare gemini : option string) : World :=
  {| FOURSQUARE_API_KEY := foursquare;
     GEMINI_API_KEY := gemini;
     fetch := fun _ => Rejected;
     today := "Monday";
     currentTime := "Monday 12:00 PM" |}.






Example formatHours_flag :
  formatHours Host.builtins (offline None None)
    (VObj [("display", VStr "Open"); ("open_now", VBool false)])
  = Ok (VStr "Check hours").
Proof. reflexivity. Qed.

(** An opening time that is an object with a [toString] of its own. *)
Example formatHours_raises :
  formatHours Host.builtins (offline None None)
    (VObj [("display", VStr "Mon");
           ("regular", VArr [VObj [("day", VInt 1); ("open", unprintable);
                                   ("close", VStr "1700")]])])
  = Throw TypeError.
Proof. reflexivity. Qed.

(** ** Places Lookup *)

Section PlacesLookup.

Variable B : Builtins.
Variable w : World.

Definition rate_limited : lookup_result := {| places := []; rateLimited := true |}.

Lemma coarse_entry_object place v : coarse_entry B place = Ok v -> is_object v = true.
Proof.
  unfold coarse_entry. intros H. do 5 bind_inv H. injection H as <-. reflexivity.
Qed.

Lemma full_entry_object place detail v :
  full_entry B w place detail = Ok v -> is_object v = true.
Proof.
  unfold full_entry. intros H. do 7 bind_inv H. injection H as <-. reflexivity.
Qed.

Lemma detailed_entry_object place v :
  detailed_entry B w place = Ok v -> is_object v = true.
Proof.
  unfold detailed_entry, try_catch.
  match goal with |- match ?c with _ => _ end = _ -> _ => destruct c as [x|e] eqn:H end.
  - intros X; injection X as <-.
    do 3 bind_inv H. destruct a1 as [status body].
    destruct (ok_status status).
    + bind_inv H. eapply full_entry_object; eassumption.
    + eapply coarse_entry_object; eassumption.
  - apply coarse_entry_object.
Qed.

(** One entry for each search result whose coarse entry can be built,
    whatever happens to its detail fetch. *)
Lemma detailed_entry_Ok place :
  (exists c, coarse_entry B place = Ok c) ->
  exists v, detailed_entry B w place = Ok v /\ is_object v = true.
Proof.
  intros (c & E).
  destruct (detailed_entry B w place) as [v|e] eqn:D.
  - exists v. split; [reflexivity|]. eapply detailed_entry_object; eassumption.
  - exfalso. unfold detailed_entry, try_catch in D. rewrite E in D.
    match type of D with match ?c with _ => _ end = _ => destruct c end; discriminate.
Qed.

(** The mapper raises exactly when the coarse entry does, after the
    detail path has raised. *)
Lemma detailed_entry_Throw place e :
  detailed_entry B w place = Throw e -> coarse_entry B place = Throw e.
Proof.
  unfold detailed_entry, try_catch.
  match goal with |- match ?c with _ => _ end = _ -> _ => destruct c end;
    [discriminate | auto].
Qed.

Lemma filter_not_null_objects l :
  Forall (fun v => is_object v = true) l -> filter not_null l = l.
Proof.
  induction 1 as [|x r Hx _ IH]; [reflexivity|].
  cbn. destruct x; try discriminate. now rewrite IH.
Qed.

Lemma mood_terms_Ok mood k :
  ToString B mood = Ok k -> exists terms, mood_terms B mood = Ok terms.
Proof.
  intros H. unfold mood_terms. rewrite !(lookup_Ok B _ _ _ H). cbn. eauto.
Qed.

Lemma mood_terms_Throw mood e :
  ToString B mood = Throw e -> mood_terms B mood = Throw e.
Proof.
  intros H. unfold mood_terms. rewrite (lookup_Throw B _ _ _ H). reflexivity.
Qed.

Lemma mood_terms_inv mood terms :
  mood_terms B mood = Ok terms -> exists k, ToString B mood = Ok k.
Proof.
  destruct (ToString B mood) as [k|e] eqn:E; [eauto|].
  rewrite (mood_terms_Throw _ _ E). discriminate.
Qed.

Lemma getPlacesFromFoursquare_Throw location mood maxDistance e :
  ToString B mood = Throw e ->
  getPlacesFromFoursquare B w location mood maxDistance = Throw e.
Proof.
  intros H. unfold getPlacesFromFoursquare. rewrite (mood_terms_Throw _ _ H). reflexivity.
Qed.

Lemma getPlacesFromFoursquare_terms location mood maxDistance terms :
  mood_terms B mood = Ok terms ->
  getPlacesFromFoursquare B w location mood maxDistance
  = try_catch (getPlacesFromFoursquare_try B w location terms) (fun _ => Ok no_places).
Proof. unfold getPlacesFromFoursquare. intros ->. reflexivity. Qed.

Lemma getPlacesFromFoursquare_total location mood maxDistance k :
  ToString B mood = Ok k ->
  exists r, getPlacesFromFoursquare B w location mood maxDistance = Ok r.
Proof.
  intros H. destruct (mood_terms_Ok _ _ H) as (terms & E).
  rewrite (getPlacesFromFoursquare_terms _ _ _ _ E). apply try_catch_total. eauto.
Qed.

Lemma getPlacesFromFoursquare_inv location mood maxDistance r :
  getPlacesFromFoursquare B w location mood maxDistance = Ok r ->
  exists k, ToString B mood = Ok k.
Proof.
  destruct (ToString B mood) as [k|e] eqn:E; [eauto|].
  rewrite (getPlacesFromFoursquare_Throw _ _ _ _ E). discriminate.
Qed.

Lemma getPlacesFromFoursquare_status location terms rq status body :
  build_search_request B w location terms = Ok rq ->
  fetch w rq = Response status body ->
  getPlacesFromFoursquare_try B w location terms
  = if ((status =? 429) || (status =? 402))%Z then Ok rate_limited
    else if negb (ok_status status) then Ok no_places
    else
      searchData <- JSON_parse body ;;
      results <- get searchData "results" ;;
      first3 <- slice_0_3 (or_else B results (VArr [])) ;;
      detailedPlaces <- all (map (detailed_entry B w) first3) ;;
      Ok {| places := filter not_null detailedPlaces; rateLimited := false |}.
Proof.
  intros Hrq Hf. unfold getPlacesFromFoursquare_try, await_fetch.
  rewrite Hrq. cbn [bind]. rewrite Hf. reflexivity.
Qed.

Lemma search_request_inv location mood maxDistance rq :
  search_request B w location mood maxDistance = Ok rq ->
  exists terms, mood_terms B mood = Ok terms
                /\ build_search_request B w location terms = Ok rq.
Proof. unfold search_request. intros H. bind_inv H. eauto. Qed.

(** Every place that the lookup returns is an object. *)
Lemma getPlacesFromFoursquare_objects location mood maxDistance r :
  getPlacesFromFoursquare B w location mood maxDistance = Ok r ->
  Forall (fun p => is_object p = true) (places r).
Proof.
  unfold getPlacesFromFoursquare. intros H. bind_inv H. unfold try_catch in H.
  destruct (getPlacesFromFoursquare_try B w location a) as [x|e] eqn:T;
    injection H as <-; [|constructor].
  unfold getPlacesFromFoursquare_try in T.
  bind_inv T. bind_inv T. destruct a1 as [status body].
  destruct ((status =? 429) || (status =? 402))%Z; [injection T as <-; constructor|].
  destruct (negb (ok_status status)); [injection T as <-; constructor|].
  do 4 bind_inv T. injection T as <-. cbn [places].
  apply all_map_inv with (Q := fun v => is_object v = true) in E5 as [F _];
    [|apply detailed_entry_object].
  rewrite filter_not_null_objects; assumption.
Qed.

End PlacesLookup.

(** C4, as amended: when the mood can be converted to a property key,
    Places Lookup returns a result and does not raise; whatever is raised
    inside its [try] block becomes the empty, not rate-limited result; a
    search response with status 429 or 402 gives the empty, rate-limited
    result, and one with any other non-success status gives the empty,
    not rate-limited result. When the mood cannot be converted to a
    property key, the lookup of the mood in the two tables, which comes
    before the [try] block, raises, and Places Lookup raises to its
    caller. *)
Theorem C4_places_lookup_errors (B : Builtins) (w : World)
  (location mood maxDistance : value) :
  (forall e,
     ToString B mood = Throw e ->
     getPlacesFromFoursquare B w location mood maxDistance = Throw e)
  /\ (forall k,
        ToString B mood = Ok k ->
        exists terms,
          mood_terms B mood = Ok terms
          /\ (exists r, getPlacesFromFoursquare B w location mood maxDistance = Ok r)
          /\ (forall e,
                getPlacesFromFoursquare_try B w location terms = Throw e ->
                getPlacesFromFoursquare B w location mood maxDistance
                = Ok {| places := []; rateLimited := false |}))
  /\ (forall rq status body,
        search_request B w location mood maxDistance = Ok rq ->
        fetch w rq = Response status body ->
        (status = 429%Z \/ status = 402%Z ->
         getPlacesFromFoursquare B w location mood maxDistance
         = Ok {| places := []; rateLimited := true |})
        /\ (status <> 429%Z -> status <> 402%Z -> ok_status status = false ->
            getPlacesFromFoursquare B w location mood maxDistance
            = Ok {| places := []; rateLimited := false |})).
Proof.
  split; [intros e; apply getPlacesFromFoursquare_Throw|].
  split.
  { intros k Hk. destruct (mood_terms_Ok B _ _ Hk) as (terms & E).
    exists terms. split; [exact E|].
    split; [eapply getPlacesFromFoursquare_total; eassumption|].
    intros e He. rewrite (getPlacesFromFoursquare_terms B w _ _ _ _ E), He. reflexivity. }
  intros rq status body Hrq Hf.
  destruct (search_request_inv B w _ _ _ _ Hrq) as (terms & E & Hb).
  rewrite (getPlacesFromFoursquare_terms B w _ _ _ _ E).
  rewrite (getPlacesFromFoursquare_status B w _ _ _ _ _ Hb Hf).
  split.
  - intros [-> | ->]; reflexivity.
  - intros H1 H2 Hok.
    apply Z.eqb_neq in H1, H2. rewrite H1, H2, Hok. reflexivity.
Qed.

(** C4, as stated, fails: a mood that is an object with a [toString] of
    its own makes Places Lookup raise to its caller. *)
Lemma C4_mood_lookup_raises :
  JSON_parse ("{" ++ q "toString" ++ ":1}") = Ok unprintable
  /\ getPlacesFromFoursquare Host.builtins (offline (Some "fsq-key") None)
       (VStr "Seattle, WA") unprintable (VInt 1000)
     = Throw TypeError.
Proof. split; reflexivity. Qed.

Lemma Forall_firstn {A} (P : A -> Prop) n l : Forall P l -> Forall P (firstn n l).
Proof.
  intros H. revert n. induction H as [|x r Hx _ IH]; intros [|n]; cbn;
    constructor; auto.
Qed.

Lemma append_assoc (a b c : string) : (a ++ b) ++ c = a ++ (b ++ c).
Proof. induction a as [|x a IH]; cbn; [reflexivity | now rewrite IH]. Qed.

Lemma search_request_url (B : Builtins) (w : World) (location mood maxDistance : value) rq :
  search_request B w location mood maxDistance = Ok rq ->
  exists prefix, url rq = prefix ++ "&limit=5&sort=RELEVANCE&open_now=true".
Proof.
  intros H. destruct (search_request_inv B w _ _ _ _ H) as ([query categoryId] & _ & Hb).
  unfold build_search_request in Hb. do 3 bind_inv Hb. injection Hb as <-. cbn [url].
  exists ("https://api.foursquare.com/v3/places/search?query=" ++ a ++ "&near=" ++ a0
          ++ "&categories=" ++ a1).
  rewrite !append_assoc. reflexivity.
Qed.

(** C9, as amended: when the search succeeds with [n] results and the
    coarse entry of each of the first three can be built (the result is
    not null, and the fields of its address and its distance can be
    converted to text), the lookup returns one place for each of the first
    three results and nothing for the others, so [min n 3] places,
    although the search request asks for up to five. When the entry of one
    of the first three raises, the lookup returns no place at all. *)
Theorem C9_first_three_results (B : Builtins) (w : World)
  (location mood maxDistance : value) rq status body searchData results :
  search_request B w location mood maxDistance = Ok rq ->
  fetch w rq = Response status body ->
  ok_status status = true ->
  JSON_parse body = Ok searchData ->
  nullish searchData = false ->
  or_else B (member searchData "results") (VArr []) = VArr results ->
  (Forall (fun place => exists c, coarse_entry B place = Ok c) (firstn 3 results) ->
   exists entries,
     all (map (detailed_entry B w) (firstn 3 results)) = Ok entries
     /\ getPlacesFromFoursquare B w location mood maxDistance
        = Ok {| places := entries; rateLimited := false |}
     /\ List.length entries = Nat.min (List.length results) 3)
  /\ (forall e,
        all (map (detailed_entry B w) (firstn 3 results)) = Throw e ->
        getPlacesFromFoursquare B w location mood maxDistance
        = Ok {| places := []; rateLimited := false |})
  /\ exists prefix, url rq = prefix ++ "&limit=5&sort=RELEVANCE&open_now=true".
Proof.
  intros Hrq Hf Hok Hp Hn Hr.
  destruct (search_request_inv B w _ _ _ _ Hrq) as (terms & Et & Hb).
  assert (H429 : ((status =? 429) || (status =? 402))%Z = false).
  { unfold ok_status in Hok. lia. }
  assert (Hl : getPlacesFromFoursquare B w location mood maxDistance
               = try_catch
                   (detailedPlaces <- all (map (detailed_entry B w) (firstn 3 results)) ;;
                    Ok {| places := filter not_null detailedPlaces; rateLimited := false |})
                   (fun _ => Ok no_places)).
  { rewrite (getPlacesFromFoursquare_terms B w _ _ _ _ Et).
    rewrite (getPlacesFromFoursquare_status B w _ _ _ _ _ Hb Hf).
    rewrite H429, Hok, Hp. cbn [negb bind].
    rewrite (get_member _ _ Hn). cbn [bind]. rewrite Hr. reflexivity. }
  split; [|split].
  - intros Hres.
    destruct (all_map_Ok (detailed_entry B w)
                (fun place => exists c, coarse_entry B place = Ok c)
                (fun v => is_object v = true) (firstn 3 results))
      as (entries & E & L & F).
    { apply detailed_entry_Ok. }
    { exact Hres. }
    exists entries. split; [exact E|]. split.
    + rewrite Hl, E. cbn. rewrite filter_not_null_objects by assumption. reflexivity.
    + rewrite L, length_firstn. apply Nat.min_comm.
  - intros e He. rewrite Hl, He. reflexivity.
  - eapply search_request_url; eassumption.
Qed.

(** C10: the search request and the result of Places Lookup are the same
    for any two values of [maxDistance]. *)
Theorem C10_maxDistance_unused (B : Builtins) (w : World)
  (location mood maxDistance1 maxDistance2 : value) :
  search_request B w location mood maxDistance1
  = search_request B w location mood maxDistance2
  /\ getPlacesFromFoursquare B w location mood maxDistance1
     = getPlacesFromFoursquare B w location mood maxDistance2.
Proof. split; reflexivity. Qed.

(** ** Scenarios: provider behaviours on which the embedding is run *)

Module Scenario.

(** JSON text written with apostrophes in place of double quotes. *)
Definition quoted (s : string) : string :=
  string_of_list_ascii
    (map (fun c => if Ascii.eqb c "'" then dquote else c) (list_ascii_of_string s)).

Definition search_body : string :=
  quoted "{'results':[{'fsq_id':'a1','name':'Cafe A','distance':120.5,'location':{'address':'9 Pine St'}},{'fsq_id':'a2','name':'Cafe B','distance':300},{'fsq_id':'a3','name':'Cafe C'},{'fsq_id':'a4','name':'Cafe D'}]}".

Definition detail_a1 : string :=
  quoted "{'name':'Cafe A Roasters','location':{'address':'1 Main St','locality':'Seattle','region':'WA','postcode':'98101'},'rating':8.5,'price':2,'hours':{'display':'Mon 8-5','open_now':true,'regular':[{'day':1,'open':'0800','close':'1700'}]},'categories':[{'name':'Coffee Shop'}]}".

(** The text-generation provider answers with [text] as its first candidate. *)
Definition generated (text : string) : fetch_outcome :=
  Response 200 (quoted "{'candidates':[{'content':{'parts':[{'text':'" ++ text
                ++ quoted "'}]}}]}").

(** The places provider answers the search with [search], has details for
    the place [a1] only, and cannot be reached for the place [a3]; the
    text provider answers with [gemini]. *)
Definition world (search gemini : fetch_outcome) (gemini_key : option string) : World :=
  {| FOURSQUARE_API_KEY := Some "fsq-key";
     GEMINI_API_KEY := gemini_key;
     fetch := fun rq =>
       if is_prefix "https://api.foursquare.com/v3/places/search?" (url rq) then search
       else if is_prefix "https://api.foursquare.com/v3/places/a1?" (url rq)
       then Response 200 detail_a1
       else if is_prefix "https://api.foursquare.com/v3/places/a3?" (url rq)
       then Rejected
       else if is_prefix "https://generativelanguage.googleapis.com/" (url rq)
       then gemini
       else Response 404 "not found";
     today := "Monday";
     currentTime := "Monday 12:00 PM" |}.

Definition seattle : value := VStr "Seattle, WA".
Definition coffee : value := VStr "coffee".

Definition lookup_with (search : fetch_outcome) : completion lookup_result :=
  getPlacesFromFoursquare Host.builtins (world search Rejected None)
    seattle coffee (VInt 1000).

Definition entry_a1 : value :=
  VObj [("name", VStr "Cafe A Roasters");
        ("address", VStr "1 Main St, Seattle, WA, 98101");
        ("distance", VStr "121 meters");
        ("rating", VStr "8.5/10");
        ("price", VStr "$$");
        ("hours", VStr "Open 0800-1700");
        ("category", VStr "Coffee Shop")].

Definition entry_a2 : value :=
  VObj [("name", VStr "Cafe B"); ("address", VNull); ("distance", VStr "300 meters")].

Definition entry_a3 : value :=
  VObj [("name", VStr "Cafe C"); ("address", VNull); ("distance", VNull)].

Example lookup_success :
  lookup_with (Response 200 search_body)
  = Ok {| places := [entry_a1; entry_a2; entry_a3]; rateLimited := false |}.
Proof. vm_compute. reflexivity. Qed.

Example lookup_429 : lookup_with (Response 429 "") = Ok rate_limited.
Proof. vm_compute. reflexivity. Qed.

Example lookup_402 : lookup_with (Response 402 "") = Ok rate_limited.
Proof. vm_compute. reflexivity. Qed.

Example lookup_500 : lookup_with (Response 500 "oops") = Ok no_places.
Proof. vm_compute. reflexivity. Qed.

Example lookup_unreachable : lookup_with Rejected = Ok no_places.
Proof. vm_compute. reflexivity. Qed.

Example lookup_malformed : lookup_with (Response 200 "<html>") = Ok no_places.
Proof. vm_compute. reflexivity. Qed.

(** A null among the results rejects the promise of its entry, and with it
    the whole lookup. *)
Example lookup_null_result :
  lookup_with (Response 200 (quoted "{'results':[{'name':'Cafe A'},null]}")) = Ok no_places.
Proof. vm_compute. reflexivity. Qed.

Definition results : list value :=
  [VObj [("fsq_id", VStr "a1"); ("name", VStr "Cafe A");
         ("distance", VNum (mkNum 1205 (-1)));
         ("location", VObj [("address", VStr "9 Pine St")])];
   VObj [("fsq_id", VStr "a2"); ("name", VStr "Cafe B"); ("distance", VInt 300)];
   VObj [("fsq_id", VStr "a3"); ("name", VStr "Cafe C")];
   VObj [("fsq_id", VStr "a4"); ("name", VStr "Cafe D")]].

Definition search_rq : request :=
  {| url := "https://api.foursquare.com/v3/places/search?query=coffee&near=Seattle%2C%20WA&categories=13035&limit=5&sort=RELEVANCE&open_now=true";
     method := "GET";
     headers := [("Authorization", "fsq-key"); ("Accept", "application/json")];
     payload := None |}.

Example search_body_results :
  JSON_parse search_body = Ok (VObj [("results", VArr results)]).
Proof. vm_compute. reflexivity. Qed.

End Scenario.

Lemma C4_places_lookup_errors_witness :
  Scenario.lookup_with (Response 429 "") = Ok {| places := []; rateLimited := true |}.
Proof.
  refine (proj1 (proj2 (proj2
            (C4_places_lookup_errors Host.builtins
               (Scenario.world (Response 429 "") Rejected None)
               Scenario.seattle Scenario.coffee (VInt 1000)))
            Scenario.search_rq 429%Z "" _ _) _).
  - vm_compute. reflexivity.
  - vm_compute. reflexivity.
  - now left.
Defined.

Lemma C9_first_three_results_witness :
  exists entries,
    all (map (detailed_entry Host.builtins
                (Scenario.world (Response 200 Scenario.search_body) Rejected None))
             (firstn 3 Scenario.results))
    = Ok entries
    /\ Scenario.lookup_with (Response 200 Scenario.search_body)
       = Ok {| places := entries; rateLimited := false |}
    /\ List.length entries = Nat.min (List.length Scenario.results) 3.
Proof.
  refine (proj1 (C9_first_three_results Host.builtins
           (Scenario.world (Response 200 Scenario.search_body) Rejected None)
           Scenario.seattle Scenario.coffee (VInt 1000)
           Scenario.search_rq 200%Z Scenario.search_body
           (VObj [("results", VArr Scenario.results)]) Scenario.results
           _ _ _ _ _ _) _).
  - vm_compute. reflexivity.
  - vm_compute. reflexivity.
  - reflexivity.
  - vm_compute. reflexivity.
  - reflexivity.
  - reflexivity.
  - repeat constructor; eexists; vm_compute; reflexivity.
Defined.

(** C9, as stated, fails: the search succeeds with one result, and the
    lookup returns no place, because the entry of the result cannot be
    built: the result is null, or the street of its address is an object
    with a [toString] of its own. *)
Lemma C9_result_without_entry :
  JSON_parse (Scenario.quoted "{'results':[null]}")
  = Ok (VObj [("results", VArr [VNull])])
  /\ Scenario.lookup_with (Response 200 (Scenario.quoted "{'results':[null]}"))
     = Ok no_places
  /\ JSON_parse (Scenario.quoted
        "{'results':[{'fsq_id':'b1','name':'Cafe B','location':{'address':{'toString':1}}}]}")
     = Ok (VObj [("results",
                  VArr [VObj [("fsq_id", VStr "b1"); ("name", VStr "Cafe B");
                              ("location", VObj [("address", unprintable)])]])])
  /\ Scenario.lookup_with
       (Response 200 (Scenario.quoted
          "{'results':[{'fsq_id':'b1','name':'Cafe B','location':{'address':{'toString':1}}}]}"))
     = Ok no_places.
Proof. repeat split; vm_compute; reflexivity. Qed.

(** ** Generate-from-scratch *)

Lemma try_catch_same {A} (c d : completion A) :
  (c = d \/ exists e, c = Throw e) -> try_catch c (fun _ => d) = d.
Proof. intros [->|(e & ->)]; [destruct d|]; reflexivity. Qed.

Lemma own_Some_In fields k v : own fields k = Some v -> exists k', In (k', v) fields.
Proof.
  induction fields as [|[k' x] r IH]; cbn; [discriminate|].
  destruct (own r k) as [y|] eqn:E.
  - intros H. injection H as ->. destruct (IH eq_refl) as (k'' & Hin). eauto.
  - destruct (k' =? k); [|discriminate]. intros H. injection H as ->. eauto.
Qed.

(** An object literal whose values are all strings. *)
Definition texts_only (table : list (string * value)) : Prop :=
  Forall (fun kv => exists s, snd kv = VStr s) table.

Lemma texts_only_moodDescriptions : texts_only moodDescriptions.
Proof. repeat constructor; eexists; reflexivity. Qed.

Lemma texts_only_enhance_moodDescriptions : texts_only enhance_moodDescriptions.
Proof. repeat constructor; eexists; reflexivity. Qed.

Section Generation.

Variable B : Builtins.
Variable w : World.
Variables location mood timeAvailable maxDistance : value.

(** What a table of texts gives for a key, or the default, is a text. *)
Lemma lookup_text table key d default :
  texts_only table -> lookup B table key = Ok d ->
  exists s, ToString B (or_else B d (VStr default)) = Ok s.
Proof.
  intros Ht H. unfold lookup in H. bind_inv H. injection H as <-.
  destruct (own table a) as [v|] eqn:O.
  - destruct (own_Some_In _ _ _ O) as (k' & Hin).
    apply (proj1 (Forall_forall _ _) Ht) in Hin as (s & Hs). cbn in Hs. subst v.
    unfold or_else. destruct (truthy B (VStr s)); cbn; eauto.
  - destruct (is_prototype_key a); cbn; eauto.
Qed.

Lemma generate_prompt_Ok l k t m :
  ToString B location = Ok l -> ToString B mood = Ok k ->
  ToString B timeAvailable = Ok t -> ToString B maxDistance = Ok m ->
  exists prompt, generate_prompt B w location mood timeAvailable maxDistance = Ok prompt.
Proof.
  intros Hl Hk Ht Hm. unfold generate_prompt. rewrite Hl. cbn [bind].
  destruct (lookup B moodDescriptions mood) as [d|e] eqn:E.
  2:{ rewrite (lookup_Ok B _ _ _ Hk) in E. discriminate. }
  cbn [bind].
  destruct (lookup_text _ _ _ "looking for food" texts_only_moodDescriptions E)
    as (s & ->).
  cbn [bind]. rewrite Ht, Hm. cbn. eauto.
Qed.

Lemma generate_prompt_inv prompt :
  generate_prompt B w location mood timeAvailable maxDistance = Ok prompt ->
  prints B location = true /\ prints B mood = true
  /\ prints B timeAvailable = true /\ prints B maxDistance = true.
Proof.
  unfold generate_prompt. intros H. do 5 bind_inv H.
  apply lookup_inv in E0 as (k & Hk).
  repeat split; eapply Ok_prints; eassumption.
Qed.

(** The text of the first candidate in the answer of the text provider to
    [prompt], when the answer is a success and carries one. *)
Definition provider_text (prompt : string) : option string :=
  match fetch w (gemini_request w prompt) with
  | Response status body =>
      if ok_status status then
        match (data <- JSON_parse body ;; candidate_text data) with
        | Ok (VStr t) => Some t
        | _ => None
        end
      else None
  | Rejected => None
  end.

(** The text that the provider generates for the request, when the
    credential is set and the prompt can be built. *)
Definition generated_text : option string :=
  if key_set (GEMINI_API_KEY w) then
    match generate_prompt B w location mood timeAvailable maxDistance with
    | Ok prompt => provider_text prompt
    | Throw _ => None
    end
  else None.

(** What the greedy bracket span of a text denotes, if anything. *)
Definition bracketed_array (t : string) : option value :=
  match match_brackets t with
  | Some m =>
      match JSON_parse m with
      | Ok v => Some v
      | Throw _ => None
      end
  | None => None
  end.

Lemma match_brackets_empty : match_brackets "" = None.
Proof. reflexivity. Qed.

Lemma parse_generated_text t :
  try_catch (parse_generated B mood (VStr t))
            (fun _ => getMockRecommendations B mood)
  = match bracketed_array t with
    | Some v => Ok v
    | None => getMockRecommendations B mood
    end.
Proof.
  unfold parse_generated, bracketed_array. cbn [truthy text_match bind].
  destruct (String.eqb_spec t "") as [->|_].
  { cbn [negb]. apply try_catch_same. now left. }
  cbn [negb].
  destruct (match_brackets t) as [m|]; [|apply try_catch_same; now left].
  destruct (JSON_parse m); reflexivity.
Qed.

Lemma parse_generated_other text :
  match text with VStr _ => False | _ => True end ->
  try_catch (parse_generated B mood text)
            (fun _ => getMockRecommendations B mood)
  = getMockRecommendations B mood.
Proof.
  unfold parse_generated. intros H. apply try_catch_same.
  destruct (truthy B text); cbn [negb]; [|now left].
  destruct text; try destruct H; right; eexists; reflexivity.
Qed.

(** The [try] block and its [catch] in one equation. *)
Lemma getGeminiRecommendations_try_eq prompt :
  try_catch (getGeminiRecommendations_try B w mood prompt)
            (fun _ => getMockRecommendations B mood)
  = match provider_text prompt with
    | Some t =>
        match bracketed_array t with
        | Some v => Ok v
        | None => getMockRecommendations B mood
        end
    | None => getMockRecommendations B mood
    end.
Proof.
  unfold getGeminiRecommendations_try, provider_text, await_fetch.
  destruct (fetch w _) as [|status body]; [reflexivity|]. cbn [bind].
  destruct (ok_status status); cbn [negb]; [|apply try_catch_same; now left].
  destruct (JSON_parse body) as [data|e]; [|reflexivity]. cbn [bind].
  destruct (candidate_text data) as [text|e]; [|reflexivity]. cbn [bind].
  destruct text; try (apply parse_generated_other; exact I).
  apply parse_generated_text.
Qed.

(** The generation path in one equation. *)
Lemma getGeminiRecommendations_eq :
  getGeminiRecommendations B w location mood timeAvailable maxDistance
  = if key_set (GEMINI_API_KEY w) then
      prompt <- generate_prompt B w location mood timeAvailable maxDistance ;;
      match provider_text prompt with
      | Some t =>
          match bracketed_array t with
          | Some v => Ok v
          | None => getMockRecommendations B mood
          end
      | None => getMockRecommendations B mood
      end
    else getMockRecommendations B mood.
Proof.
  unfold getGeminiRecommendations.
  destruct (key_set (GEMINI_API_KEY w)); [|reflexivity]. cbn [negb].
  destruct (generate_prompt B w location mood timeAvailable maxDistance) as [prompt|e];
    [|reflexivity].
  cbn [bind]. apply getGeminiRecommendations_try_eq.
Qed.

(** With a generated text, the result depends on the text alone. *)
Lemma getGeminiRecommendations_generated t :
  generated_text = Some t ->
  getGeminiRecommendations B w location mood timeAvailable maxDistance
  = match bracketed_array t with
    | Some v => Ok v
    | None => getMockRecommendations B mood
    end.
Proof.
  unfold generated_text. rewrite getGeminiRecommendations_eq.
  destruct (key_set (GEMINI_API_KEY w)); [|discriminate].
  destruct (generate_prompt B w location mood timeAvailable maxDistance) as [prompt|e];
    [|discriminate].
  cbn [bind]. intros ->. reflexivity.
Qed.

(** Without one, the result is what the mock table gives, when the prompt
    can be built. *)
Lemma getGeminiRecommendations_not_generated :
  generated_text = None ->
  (key_set (GEMINI_API_KEY w) = true ->
   exists prompt, generate_prompt B w location mood timeAvailable maxDistance = Ok prompt) ->
  getGeminiRecommendations B w location mood timeAvailable maxDistance
  = getMockRecommendations B mood.
Proof.
  unfold generated_text. rewrite getGeminiRecommendations_eq.
  destruct (key_set (GEMINI_API_KEY w)); [|reflexivity].
  intros H Hp. destruct (Hp eq_refl) as (prompt & E). rewrite E in *.
  cbn [bind]. rewrite H. reflexivity.
Qed.

Lemma generated_text_mood t : generated_text = Some t -> exists k, ToString B mood = Ok k.
Proof.
  unfold generated_text. destruct (key_set (GEMINI_API_KEY w)); [|discriminate].
  destruct (generate_prompt B w location mood timeAvailable maxDistance) as [prompt|e] eqn:E;
    [|discriminate].
  intros _. apply generate_prompt_inv in E as (_ & Hm & _).
  apply prints_Ok, Hm.
Qed.

Lemma bracketed_array_is_array t v :
  bracketed_array t = Some v -> exists a, v = VArr a.
Proof.
  unfold bracketed_array.
  destruct (match_brackets t) as [m|] eqn:Hm; [|discriminate].
  destruct (JSON_parse m) as [x|] eqn:Hp; [|discriminate].
  intros H; injection H as <-. eapply match_brackets_array; eassumption.
Qed.

(** Generate-from-scratch returns exactly when the mood can be a property
    key and, with the credential set, the prompt can be written. *)
Lemma getGeminiRecommendations_returns :
  (exists v, getGeminiRecommendations B w location mood timeAvailable maxDistance = Ok v)
  <-> prints B mood = true
      /\ (key_set (GEMINI_API_KEY w) = true ->
          prints B location = true /\ prints B timeAvailable = true
          /\ prints B maxDistance = true).
Proof.
  rewrite getGeminiRecommendations_eq. split.
  - intros (v & H). destruct (key_set (GEMINI_API_KEY w)).
    + bind_inv H. apply generate_prompt_inv in E as (Hl & Hm & Ht & Hd). auto.
    + apply getMockRecommendations_inv in H as (k & Hk).
      split; [eapply Ok_prints; eassumption | discriminate].
  - intros (Hm & Hk). apply prints_Ok in Hm as (k & Hm).
    destruct (getMockRecommendations_Ok B _ _ Hm) as (v & Ev & _).
    destruct (key_set (GEMINI_API_KEY w)); [|eauto].
    destruct (Hk eq_refl) as (Hl & Ht & Hd).
    apply prints_Ok in Hl as (l & Hl), Ht as (t & Ht), Hd as (d & Hd).
    destruct (generate_prompt_Ok _ _ _ _ Hl Hm Ht Hd) as (prompt & ->). cbn [bind].
    destruct (provider_text prompt) as [text|]; [|eauto].
    destruct (bracketed_array text); eauto.
Qed.

End Generation.

(** C5, as amended: for every text of the provider, if the span from the
    first opening bracket of the text to its last closing bracket is
    well-formed JSON, Generate-from-scratch returns the array it denotes;
    if the text has no such span, or the span is not well-formed JSON, it
    returns the mock list of the mood. It returns, rather than raises,
    exactly when the mood can be converted to a property key and, with the
    credential set, the location and the two budgets can be converted to
    text: the prompt is written and the mock table is read outside the
    [try] block. *)
Theorem C5_generated_text_parsing (B : Builtins) (w : World)
  (location mood timeAvailable maxDistance : value) :
  (forall t,
     generated_text B w location mood timeAvailable maxDistance = Some t ->
     (forall m v, match_brackets t = Some m -> JSON_parse m = Ok v ->
        (exists a, v = VArr a)
        /\ getGeminiRecommendations B w location mood timeAvailable maxDistance = Ok v)
     /\ (match_brackets t = None ->
         getGeminiRecommendations B w location mood timeAvailable maxDistance
         = getMockRecommendations B mood)
     /\ (forall m e, match_brackets t = Some m -> JSON_parse m = Throw e ->
         getGeminiRecommendations B w location mood timeAvailable maxDistance
         = getMockRecommendations B mood)
     /\ (exists v, getMockRecommendations B mood = Ok v)
     /\ exists v, getGeminiRecommendations B w location mood timeAvailable maxDistance = Ok v)
  /\ ((exists v, getGeminiRecommendations B w location mood timeAvailable maxDistance = Ok v)
      <-> prints B mood = true
          /\ (key_set (GEMINI_API_KEY w) = true ->
              prints B location = true /\ prints B timeAvailable = true
              /\ prints B maxDistance = true)).
Proof.
  split; [|apply getGeminiRecommendations_returns].
  intros t Ht. rewrite (getGeminiRecommendations_generated _ _ _ _ _ _ _ Ht).
  destruct (generated_text_mood _ _ _ _ _ _ _ Ht) as (k & Hk).
  destruct (getMockRecommendations_Ok B _ _ Hk) as (mock & Em & _).
  unfold bracketed_array.
  split; [|split; [|split; [|split]]].
  - intros m v Hm Hv. split.
    + eapply match_brackets_array; eassumption.
    + rewrite Hm, Hv. reflexivity.
  - intros ->. reflexivity.
  - intros m e -> ->. reflexivity.
  - eauto.
  - destruct (match_brackets t) as [m|]; [|eauto].
    destruct (JSON_parse m); eauto.
Qed.

(** *** Texts with one well-formed array *)

(** The array written at position [i] with [len] characters, if that piece
    of the text goes from an opening to a closing bracket and is
    well-formed JSON. *)
Definition array_at (t : string) (i len : nat) : option value :=
  let s := substring i len t in
  match list_ascii_of_string s with
  | "["%char :: _ =>
      match last (list_ascii_of_string s) " "%char with
      | "]"%char =>
          match JSON_parse s with
          | Ok (VArr a) => Some (VArr a)
          | _ => None
          end
      | _ => None
      end
  | _ => None
  end.

(** Every well-formed JSON array written in the text, by position. *)
Definition array_occurrences (t : string) : list value :=
  flat_map
    (fun i =>
       flat_map
         (fun len => match array_at t i len with Some a => [a] | None => [] end)
         (seq 1 (String.length t - i)))
    (seq 0 (String.length t)).

(** The text contains exactly one well-formed JSON array, [a]. *)
Definition exactly_one_array (t : string) (a : value) : Prop :=
  array_occurrences t = [a].

Module GenerationScenario.

Import Scenario.

Definition gemini_world (text : string) : World :=
  world Rejected (generated text) (Some "gem-key").

Definition generate (text : string) : completion value :=
  getGeminiRecommendations Host.builtins (gemini_world text)
    seattle coffee (VInt 30) (VInt 1000).

(** The provider wraps the array in prose. *)
Definition chatty : string := quoted "Here you go: [{'name':'Starbucks'}] Enjoy!".
Definition chatty_escaped : string :=
  quoted "Here you go: [{\'name\':\'Starbucks\'}] Enjoy!".

(** The provider adds a bracketed remark after the array. *)
Definition remark : string :=
  quoted "[{'name':'Starbucks'}] Note: hours may vary [see store].".
Definition remark_escaped : string :=
  quoted "[{\'name\':\'Starbucks\'}] Note: hours may vary [see store].".

Definition starbucks : value := VArr [VObj [("name", VStr "Starbucks")]].

Example generated_text_chatty :
  generated_text Host.builtins (gemini_world chatty_escaped)
    seattle coffee (VInt 30) (VInt 1000) = Some chatty.
Proof. vm_compute. reflexivity. Qed.

Example generate_chatty : generate chatty_escaped = Ok starbucks.
Proof. vm_compute. reflexivity. Qed.

Example generate_no_brackets :
  generate "I cannot help with that." = getMockRecommendations Host.builtins coffee.
Proof. vm_compute. reflexivity. Qed.

Example generate_truncated :
  generate (quoted "[{\'name\':\'Starbucks\'}, {\'name\': ]")
  = getMockRecommendations Host.builtins coffee.
Proof. vm_compute. reflexivity. Qed.

Example generate_empty_array : generate "[]" = Ok (VArr []).
Proof. vm_compute. reflexivity. Qed.

End GenerationScenario.

Lemma C5_generated_text_parsing_witness :
  let run := GenerationScenario.generate GenerationScenario.chatty_escaped in
  (forall m v, match_brackets GenerationScenario.chatty = Some m -> JSON_parse m = Ok v ->
     (exists a, v = VArr a) /\ run = Ok v)
  /\ (match_brackets GenerationScenario.chatty = None ->
      run = getMockRecommendations Host.builtins Scenario.coffee)
  /\ (forall m e, match_brackets GenerationScenario.chatty = Some m ->
      JSON_parse m = Throw e ->
      run = getMockRecommendations Host.builtins Scenario.coffee)
  /\ (exists v, getMockRecommendations Host.builtins Scenario.coffee = Ok v)
  /\ exists v, run = Ok v.
Proof.
  refine (proj1 (C5_generated_text_parsing Host.builtins
           (GenerationScenario.gemini_world GenerationScenario.chatty_escaped)
           Scenario.seattle Scenario.coffee (VInt 30) (VInt 1000))
           GenerationScenario.chatty _).
  vm_compute. reflexivity.
Defined.

(** C5, as stated, fails. The text contains exactly one well-formed JSON
    array, and the output is the mock list, because the greedy span runs
    on to the closing bracket of a later remark. And the generation path
    raises to its caller when the location of the request is an object
    with a [toString] of its own, whatever the provider would answer. *)
Lemma C5_one_array_not_returned :
  exactly_one_array GenerationScenario.remark GenerationScenario.starbucks
  /\ generated_text Host.builtins
       (GenerationScenario.gemini_world GenerationScenario.remark_escaped)
       Scenario.seattle Scenario.coffee (VInt 30) (VInt 1000)
     = Some GenerationScenario.remark
  /\ GenerationScenario.generate GenerationScenario.remark_escaped
     = getMockRecommendations Host.builtins Scenario.coffee
  /\ getMockRecommendations Host.builtins Scenario.coffee <> Ok GenerationScenario.starbucks
  /\ getGeminiRecommendations Host.builtins
       (GenerationScenario.gemini_world GenerationScenario.chatty_escaped)
       unprintable Scenario.coffee (VInt 30) (VInt 1000)
     = Throw TypeError.
Proof.
  split; [vm_compute; reflexivity|].
  split; [vm_compute; reflexivity|].
  split; [vm_compute; reflexivity|].
  split; [vm_compute; discriminate|].
  vm_compute. reflexivity.
Qed.

(** ** Enhance-existing *)

Section Enhancement.

Variable B : Builtins.
Variable w : World.
Variables mood location : value.

Lemma own_app_other fields k' v k :
  (k' =? k) = false -> own (fields ++ [(k', v)]) k = own fields k.
Proof.
  intros Hk. induction fields as [|[a b] r IH]; cbn.
  - now rewrite Hk.
  - now rewrite IH.
Qed.

(** A recommendation is its place with a description attached. *)
Definition described (place recommendation : value) : Prop :=
  exists description, recommendation = with_description description place.

Lemma described_name place recommendation :
  is_object place = true -> described place recommendation ->
  member recommendation "name" = member place "name".
Proof.
  intros Ho (d & ->). destruct place; try discriminate.
  unfold with_description. cbn [spread member].
  now rewrite own_app_other.
Qed.

Lemma all_map_Forall2 {A C} (f : A -> completion C) (R : A -> C -> Prop) l vs :
  (forall x v, f x = Ok v -> R x v) ->
  all (map f l) = Ok vs -> Forall2 R l vs.
Proof.
  intros Hf. revert vs. induction l as [|x r IH]; intros vs H; cbn in H.
  - injection H as <-. constructor.
  - bind_inv H. bind_inv H. injection H as <-. constructor; eauto.
Qed.

Lemma describe_described text places recs :
  describe text places = Ok recs -> Forall2 described places recs.
Proof.
  unfold describe. apply all_map_Forall2. intros place v H.
  bind_inv H. injection H as <-. eexists. reflexivity.
Qed.

Lemma describe_Ok t places :
  describe (Ok t) places = Ok (map (with_description (VStr t)) places).
Proof.
  unfold describe. induction places as [|p r IH]; [reflexivity|].
  cbn [map all bind] in *. rewrite IH. reflexivity.
Qed.

Lemma describe_nil (text : completion string) : describe text [] = Ok [].
Proof. reflexivity. Qed.

Lemma describe_Throw (text : completion string) e p places :
  text = Throw e -> describe text (p :: places) = Throw e.
Proof. intros ->. reflexivity. Qed.

Lemma merge_description_described ds place v :
  merge_description B ds mood place = Ok v -> described place v.
Proof.
  unfold merge_description. intros H. bind_inv H.
  destruct (truthy B (get_opt a "description")).
  - injection H as <-. eexists; reflexivity.
  - bind_inv H. injection H as <-. eexists; reflexivity.
Qed.

Lemma merge_generated_described places text l :
  merge_generated B places mood text = Ok (Some l) -> Forall2 described places l.
Proof.
  unfold merge_generated. destruct (truthy B text); [|discriminate].
  intros H. invert_bind H as jsonMatch Hj. destruct jsonMatch as [m|]; [|discriminate].
  invert_bind H as descriptions Hd. destruct descriptions; try discriminate.
  invert_bind H as merged Hall. injection H as <-.
  eapply all_map_Forall2; [|eassumption].
  intros x v. apply merge_description_described.
Qed.

Lemma enhanceWithGemini_try_described places prompt recs :
  enhanceWithGemini_try B w places mood prompt = Ok recs -> Forall2 described places recs.
Proof.
  unfold enhanceWithGemini_try. intros H.
  invert_bind H as r Hr. destruct r as [status body].
  destruct (negb (ok_status status)); [eapply describe_described; eassumption|].
  invert_bind H as data Hdata. invert_bind H as text Htext. invert_bind H as merged Hm.
  destruct merged as [l|].
  - injection H as <-. eapply merge_generated_described; eassumption.
  - eapply describe_described; eassumption.
Qed.

(** Whatever the text provider does, what Enhance-existing returns is the
    places it was given, in order, each with a description attached. *)
Lemma enhanceWithGemini_described places recs :
  enhanceWithGemini B w places mood location = Ok recs -> Forall2 described places recs.
Proof.
  unfold enhanceWithGemini.
  destruct (key_set (GEMINI_API_KEY w)); cbn [negb];
    [|apply describe_described].
  intros H. invert_bind H as prompt Hp. unfold try_catch in H.
  destruct (enhanceWithGemini_try B w places mood prompt) as [l|e] eqn:T.
  - injection H as <-. eapply enhanceWithGemini_try_described; eassumption.
  - eapply describe_described; eassumption.
Qed.

Lemma Forall2_length_nonempty {A C} (R : A -> C -> Prop) l vs :
  Forall2 R l vs -> l <> [] -> vs <> [].
Proof. intros H Hl. destruct H; [congruence | discriminate]. Qed.

Lemma described_names places recs :
  Forall (fun p => is_object p = true) places ->
  Forall2 described places recs ->
  Forall (fun r => exists p, In p places /\ member r "name" = member p "name") recs.
Proof.
  intros Hobj H. induction H as [|p r ps rs Hd _ IH].
  - constructor.
  - inversion Hobj; subst. constructor.
    + exists p. split; [now left | now apply described_name].
    + eapply Forall_impl; [|apply IH; assumption].
      intros x (p' & Hin & E). exists p'. split; [now right | exact E].
Qed.

(** The name of the place and its category, or the default, can be
    converted to text: its line of the prompt can be written. *)
Definition line_prints (p : value) : bool :=
  prints B (member p "name")
  && prints B (or_else B (member p "category") (VStr "restaurant")).

Lemma place_line_Ok p :
  is_object p = true -> line_prints p = true -> exists s, place_line B p = Ok s /\ True.
Proof.
  unfold line_prints, place_line. intros Ho H. apply andb_prop in H as [Hn Hc].
  destruct p; try discriminate. cbn [get bind].
  apply prints_Ok in Hn as (n & ->), Hc as (c & ->). cbn. eauto.
Qed.

Lemma place_line_inv p s : place_line B p = Ok s -> line_prints p = true.
Proof.
  unfold place_line, line_prints. intros H. do 3 bind_inv H.
  apply get_Ok in E as (_ & ->).
  rewrite (Ok_prints B _ _ E0), (Ok_prints B _ _ E1). reflexivity.
Qed.

Lemma enhance_prompt_Ok places k l :
  Forall (fun p => is_object p = true) places ->
  Forall (fun p => line_prints p = true) places ->
  ToString B mood = Ok k -> ToString B location = Ok l ->
  exists prompt, enhance_prompt B places mood location = Ok prompt.
Proof.
  intros Ho Hl Hk Hloc. unfold enhance_prompt.
  destruct (all_map_Ok (place_line B)
              (fun p => is_object p = true /\ line_prints p = true) (fun _ => True) places)
    as (lines & -> & _).
  { intros p [H1 H2]. apply place_line_Ok; assumption. }
  { apply Forall_forall. intros p Hin.
    split; [apply (proj1 (Forall_forall _ _) Ho) | apply (proj1 (Forall_forall _ _) Hl)];
      assumption. }
  cbn [bind].
  destruct (lookup B enhance_moodDescriptions mood) as [d|e] eqn:E.
  2:{ rewrite (lookup_Ok B _ _ _ Hk) in E. discriminate. }
  cbn [bind].
  destruct (lookup_text B _ _ _ "is looking for food" texts_only_enhance_moodDescriptions E)
    as (s & ->).
  cbn [bind]. rewrite Hloc. cbn. eauto.
Qed.

Lemma enhance_prompt_inv places prompt :
  enhance_prompt B places mood location = Ok prompt ->
  Forall (fun p => line_prints p = true) places
  /\ prints B mood = true /\ prints B location = true.
Proof.
  unfold enhance_prompt. intros H. do 4 bind_inv H.
  apply lookup_inv in E0 as (k & Hk).
  split; [|split; eapply Ok_prints; eassumption].
  clear - E. revert a E. induction places as [|p r IH]; intros a E; [constructor|].
  cbn in E. invert_bind E as s Hs. invert_bind E as rest Hr.
  constructor; [eapply place_line_inv; eassumption | eapply IH; eassumption].
Qed.

Lemma in_location_text_Ok k l :
  ToString B mood = Ok k -> ToString B location = Ok l ->
  in_location_text B mood location = Ok ("A great " ++ k ++ " spot in " ++ l ++ ".").
Proof. intros Hk Hl. unfold in_location_text. rewrite Hk, Hl. reflexivity. Qed.

(** Enhance-existing returns exactly when, with the credential set, the
    lines of the prompt can be written. *)
Lemma enhanceWithGemini_returns places k l :
  Forall (fun p => is_object p = true) places ->
  ToString B mood = Ok k -> ToString B location = Ok l ->
  (exists recs, enhanceWithGemini B w places mood location = Ok recs)
  <-> (key_set (GEMINI_API_KEY w) = true ->
       Forall (fun p => line_prints p = true) places).
Proof.
  intros Ho Hk Hl. unfold enhanceWithGemini.
  pose proof (in_location_text_Ok _ _ Hk Hl) as Hin.
  destruct (key_set (GEMINI_API_KEY w)); cbn [negb].
  - split.
    + intros (recs & H) _. invert_bind H as prompt Hp.
      apply enhance_prompt_inv in Hp. apply Hp.
    + intros H. destruct (enhance_prompt_Ok _ _ _ Ho (H eq_refl) Hk Hl) as (prompt & ->).
      cbn [bind]. unfold try_catch.
      destruct (enhanceWithGemini_try B w places mood prompt); [eauto|].
      rewrite Hin, describe_Ok. eauto.
  - split; [discriminate|]. intros _. rewrite Hin, describe_Ok. eauto.
Qed.

Lemma enhanceWithGemini_raises places p e :
  key_set (GEMINI_API_KEY w) = true ->
  In p places -> place_line B p = Throw e ->
  exists e', enhanceWithGemini B w places mood location = Throw e'.
Proof.
  intros Hk Hin Hp. unfold enhanceWithGemini, enhance_prompt. rewrite Hk. cbn [negb].
  destruct (all_map_raises (place_line B) _ _ _ Hin Hp) as (e' & ->). cbn. eauto.
Qed.

End Enhancement.

(** ** Recommendation Assembler *)

Section Assembler.

Variable B : Builtins.
Variable w : World.

(** A POST whose body carries a location and a mood reaches the assembly. *)
Lemma handler_post ev parsed :
  httpMethod ev = "POST" ->
  parse_body B ev = Ok parsed ->
  truthy B (member parsed "location") = true ->
  truthy B (member parsed "mood") = true ->
  handler B w ev
  = match assemble B w (member parsed "location") (member parsed "mood")
            (member parsed "timeAvailable") (member parsed "maxDistance") with
    | Ok response => response
    | Throw _ => server_error
    end.
Proof.
  intros Hm Hp Hl Hmood. unfold handler, handler_try. rewrite Hm, Hp.
  change ("POST" =? "OPTIONS") with false. change ("POST" =? "POST") with true.
  cbn [negb bind].
  assert (Hn : nullish parsed = false).
  { destruct parsed; try reflexivity; cbn in Hl; discriminate. }
  rewrite (get_member _ _ Hn). cbn [bind]. rewrite Hl, Hmood. reflexivity.
Qed.

(** What a response with the envelope was assembled from. *)
Lemma handler_envelope ev recs src rl msg :
  handler B w ev = respond 200 (Envelope recs src rl msg) ->
  exists parsed,
    parse_body B ev = Ok parsed
    /\ truthy B (member parsed "location") = true
    /\ truthy B (member parsed "mood") = true
    /\ assemble B w (member parsed "location") (member parsed "mood")
         (member parsed "timeAvailable") (member parsed "maxDistance")
       = Ok (respond 200 (Envelope recs src rl msg)).
Proof.
  unfold handler, handler_try.
  destruct (httpMethod ev =? "OPTIONS"); [discriminate|].
  destruct (negb (httpMethod ev =? "POST")); [discriminate|].
  destruct (parse_body B ev) as [parsed|]; [|discriminate].
  cbn [bind]. intros H. exists parsed.
  destruct (get parsed "location") as [location|] eqn:G; [|discriminate].
  apply get_Ok in G as (_ & ->). cbn [bind] in H.
  destruct (truthy B (member parsed "location")); [|discriminate].
  destruct (truthy B (member parsed "mood")); [|discriminate].
  cbn [negb orb] in H.
  destruct (assemble B w _ _ _ _); [|discriminate].
  repeat split; congruence.
Qed.

Variables location mood timeAvailable maxDistance : value.

(** The output of Generate-from-scratch is the array that the provider
    wrote, or else the mock list. *)
Definition from_provider (recs : value) : Prop :=
  exists t, generated_text B w location mood timeAvailable maxDistance = Some t
            /\ bracketed_array t = Some recs.

Lemma getGeminiRecommendations_cases v :
  getGeminiRecommendations B w location mood timeAvailable maxDistance = Ok v ->
  from_provider v \/ getMockRecommendations B mood = Ok v.
Proof.
  rewrite getGeminiRecommendations_eq. unfold from_provider, generated_text.
  destruct (key_set (GEMINI_API_KEY w)); [|now right].
  intros H. invert_bind H as prompt Hp. rewrite Hp.
  destruct (provider_text w prompt) as [t|]; [|now right].
  destruct (bracketed_array t) as [x|] eqn:E; [|now right].
  injection H as <-. left. eauto.
Qed.

(** A lookup that found places has written the location into its request. *)
Lemma getPlacesFromFoursquare_location r :
  getPlacesFromFoursquare B w location mood maxDistance = Ok r ->
  places r <> [] -> prints B location = true.
Proof.
  unfold getPlacesFromFoursquare. intros H Hne. invert_bind H as terms Ht.
  unfold try_catch in H.
  destruct (getPlacesFromFoursquare_try B w location terms) as [x|e] eqn:T;
    injection H as <-; [|now destruct Hne].
  unfold getPlacesFromFoursquare_try in T. invert_bind T as rq Hrq.
  unfold build_search_request in Hrq. destruct terms as [query categoryId].
  invert_bind Hrq as eq Heq. invert_bind Hrq as el Hel.
  unfold encode in Hel. invert_bind Hel as s Hs. eapply Ok_prints; eassumption.
Qed.

Lemma assemble_rate_limited r :
  key_set (FOURSQUARE_API_KEY w) = true ->
  getPlacesFromFoursquare B w location mood maxDistance = Ok r ->
  rateLimited r = true ->
  assemble B w location mood timeAvailable maxDistance
  = (recs <- getGeminiRecommendations B w location mood timeAvailable maxDistance ;;
     Ok (respond 200 (Envelope recs "ai" true rate_limit_message))).
Proof.
  intros Hk Hr Hl. unfold assemble. rewrite Hk, Hr. cbn [bind]. rewrite Hl. reflexivity.
Qed.

Lemma assemble_places r :
  key_set (FOURSQUARE_API_KEY w) = true ->
  getPlacesFromFoursquare B w location mood maxDistance = Ok r ->
  rateLimited r = false ->
  places r <> [] ->
  assemble B w location mood timeAvailable maxDistance
  = (recs <- enhanceWithGemini B w (places r) mood location ;;
     Ok (respond 200 (Envelope (VArr recs) "foursquare" false VNull))).
Proof.
  intros Hk Hr Hl Hne. unfold assemble. rewrite Hk, Hr. cbn [bind]. rewrite Hl.
  destruct (places r) as [|p ps] eqn:Hp; [congruence|]. reflexivity.
Qed.

Lemma assemble_empty r :
  key_set (FOURSQUARE_API_KEY w) = true ->
  getPlacesFromFoursquare B w location mood maxDistance = Ok r ->
  rateLimited r = false ->
  places r = [] ->
  assemble B w location mood timeAvailable maxDistance
  = (recs <- getGeminiRecommendations B w location mood timeAvailable maxDistance ;;
     Ok (respond 200 (Envelope recs "ai" false VNull))).
Proof.
  intros Hk Hr Hl He. unfold assemble. rewrite Hk, Hr. cbn [bind]. rewrite Hl, He.
  reflexivity.
Qed.

Lemma assemble_without_places :
  key_set (FOURSQUARE_API_KEY w) = false ->
  assemble B w location mood timeAvailable maxDistance
  = (recs <- getGeminiRecommendations B w location mood timeAvailable maxDistance ;;
     Ok (respond 200 (Envelope recs "ai" false VNull))).
Proof. intros Hk. unfold assemble. rewrite Hk. reflexivity. Qed.

(** The four routes of the assembly. *)
Lemma assemble_routes :
  (exists r,
     key_set (FOURSQUARE_API_KEY w) = true
     /\ getPlacesFromFoursquare B w location mood maxDistance = Ok r
     /\ rateLimited r = false /\ places r <> []
     /\ assemble B w location mood timeAvailable maxDistance
        = (recs <- enhanceWithGemini B w (places r) mood location ;;
           Ok (respond 200 (Envelope (VArr recs) "foursquare" false VNull))))
  \/ (exists rl,
        (rl = true -> key_set (FOURSQUARE_API_KEY w) = true)
        /\ assemble B w location mood timeAvailable maxDistance
           = (recs <- getGeminiRecommendations B w location mood timeAvailable
                        maxDistance ;;
              Ok (success recs "ai" rl)))
  \/ (exists e,
        key_set (FOURSQUARE_API_KEY w) = true
        /\ getPlacesFromFoursquare B w location mood maxDistance = Throw e
        /\ assemble B w location mood timeAvailable maxDistance = Throw e).
Proof.
  destruct (key_set (FOURSQUARE_API_KEY w)) eqn:Hk.
  2:{ right. left. exists false. split; [discriminate|].
      now rewrite assemble_without_places. }
  destruct (getPlacesFromFoursquare B w location mood maxDistance) as [r|e] eqn:Hr.
  2:{ right. right. exists e. repeat split. unfold assemble. rewrite Hk, Hr. reflexivity. }
  destruct (rateLimited r) eqn:Hl.
  { right. left. exists true. split; [reflexivity|].
    now rewrite (assemble_rate_limited r). }
  destruct (places r) as [|p ps] eqn:Hp.
  { right. left. exists false. split; [discriminate|].
    now rewrite (assemble_empty r). }
  left. exists r. repeat split; try assumption; try congruence.
  rewrite (assemble_places r); try assumption; [|congruence]. now rewrite Hp.
Qed.

(** Every assembly that returns ends in a success response; its
    recommendations are the described places of a non-empty lookup, or
    the output of Generate-from-scratch. *)
Lemma assemble_cases response :
  assemble B w location mood timeAvailable maxDistance = Ok response ->
  exists recs src rl,
    response = success recs src rl
    /\ ((exists l, recs = VArr l /\ l <> [])
        \/ from_provider recs
        \/ getMockRecommendations B mood = Ok recs).
Proof.
  intros A.
  destruct assemble_routes as [(r & _ & _ & _ & Hne & E) | [(rl & _ & E) | (e & _ & _ & E)]];
    rewrite E in A; [| |discriminate].
  - invert_bind A as recs Hrecs. injection A as <-.
    exists (VArr recs), "foursquare", false. split; [reflexivity|].
    left. exists recs. split; [reflexivity|].
    eapply Forall2_length_nonempty; [|exact Hne].
    eapply enhanceWithGemini_described; eassumption.
  - invert_bind A as recs Hrecs. injection A as <-.
    exists recs, "ai", rl. split; [reflexivity|]. right.
    apply getGeminiRecommendations_cases, Hrecs.
Qed.

End Assembler.

(** C2, as amended: when the places credential is set and Places Lookup
    reports the rate limit, then, if Generate-from-scratch returns, the
    response is a success whose envelope has [rateLimitReached] true,
    source [ai], the notice of the rate limit for message, and for
    recommendations the output of Generate-from-scratch; if it raises, the
    response is the server error. It returns exactly when, with the text
    credential set, the location and the two budgets of the request can be
    converted to text. *)
Theorem C2_rate_limit_routed (B : Builtins) (w : World) (ev : Event)
  (parsed : value) (r : lookup_result) :
  httpMethod ev = "POST" ->
  parse_body B ev = Ok parsed ->
  truthy B (member parsed "location") = true ->
  truthy B (member parsed "mood") = true ->
  key_set (FOURSQUARE_API_KEY w) = true ->
  getPlacesFromFoursquare B w (member parsed "location") (member parsed "mood")
    (member parsed "maxDistance") = Ok r ->
  rateLimited r = true ->
  (forall recs,
     getGeminiRecommendations B w (member parsed "location") (member parsed "mood")
       (member parsed "timeAvailable") (member parsed "maxDistance") = Ok recs ->
     handler B w ev
     = respond 200
         (Envelope recs "ai" true
            (VStr "Live data temporarily unavailable. Showing AI-generated recommendations.")))
  /\ (forall e,
        getGeminiRecommendations B w (member parsed "location") (member parsed "mood")
          (member parsed "timeAvailable") (member parsed "maxDistance") = Throw e ->
        handler B w ev = respond 500 (ErrorBody "Failed to get recommendations"))
  /\ ((exists recs,
         getGeminiRecommendations B w (member parsed "location") (member parsed "mood")
           (member parsed "timeAvailable") (member parsed "maxDistance") = Ok recs)
      <-> (key_set (GEMINI_API_KEY w) = true ->
           prints B (member parsed "location") = true
           /\ prints B (member parsed "timeAvailable") = true
           /\ prints B (member parsed "maxDistance") = true)).
Proof.
  intros Hm Hp Hl Hmood Hk Hr Hrl.
  rewrite (handler_post B w ev parsed Hm Hp Hl Hmood).
  rewrite (assemble_rate_limited B w _ _ (member parsed "timeAvailable") _ r Hk Hr Hrl).
  split; [|split].
  - intros recs ->. reflexivity.
  - intros e ->. reflexivity.
  - rewrite getGeminiRecommendations_returns.
    destruct (getPlacesFromFoursquare_inv B w _ _ _ _ Hr) as (k & Hkey).
    rewrite (Ok_prints B _ _ Hkey). tauto.
Qed.

(** C3, as amended: when Places Lookup returns places and no rate limit,
    then, if Enhance-existing returns, the response is a success whose
    envelope has source [foursquare], and every recommendation has the
    name of one of those places; if it raises, the response is the server
    error. It returns exactly when, with the text credential set, the name
    and the category of every place can be converted to text. *)
Theorem C3_places_keep_their_names (B : Builtins) (w : World) (ev : Event)
  (parsed : value) (r : lookup_result) :
  httpMethod ev = "POST" ->
  parse_body B ev = Ok parsed ->
  truthy B (member parsed "location") = true ->
  truthy B (member parsed "mood") = true ->
  key_set (FOURSQUARE_API_KEY w) = true ->
  getPlacesFromFoursquare B w (member parsed "location") (member parsed "mood")
    (member parsed "maxDistance") = Ok r ->
  rateLimited r = false ->
  places r <> [] ->
  (forall recs,
     enhanceWithGemini B w (places r) (member parsed "mood") (member parsed "location")
     = Ok recs ->
     handler B w ev = respond 200 (Envelope (VArr recs) "foursquare" false VNull)
     /\ Forall (fun rec => exists p, In p (places r)
                                     /\ member rec "name" = member p "name") recs)
  /\ (forall e,
        enhanceWithGemini B w (places r) (member parsed "mood") (member parsed "location")
        = Throw e ->
        handler B w ev = respond 500 (ErrorBody "Failed to get recommendations"))
  /\ ((exists recs,
         enhanceWithGemini B w (places r) (member parsed "mood")
           (member parsed "location") = Ok recs)
      <-> (key_set (GEMINI_API_KEY w) = true ->
           Forall (fun p => line_prints B p = true) (places r))).
Proof.
  intros Hm Hp Hl Hmood Hk Hr Hrl Hne.
  pose proof (getPlacesFromFoursquare_objects B w _ _ _ _ Hr) as Hobj.
  rewrite (handler_post B w ev parsed Hm Hp Hl Hmood).
  rewrite (assemble_places B w _ _ (member parsed "timeAvailable") _ r Hk Hr Hrl Hne).
  split; [|split].
  - intros recs E. rewrite E. split; [reflexivity|].
    eapply described_names; [exact Hobj|].
    eapply enhanceWithGemini_described; eassumption.
  - intros e ->. reflexivity.
  - destruct (getPlacesFromFoursquare_inv B w _ _ _ _ Hr) as (k & Hkey).
    pose proof (getPlacesFromFoursquare_location B w _ _ _ _ Hr Hne) as Hloc.
    apply prints_Ok in Hloc as (l & Hloc).
    apply (enhanceWithGemini_returns B w _ _ _ k l Hobj Hkey Hloc).
Qed.

(** C1, as amended: in every success response that carries an envelope,
    for a mood that is no member name of [Object.prototype], the
    recommendations are an array, and the array is non-empty unless it is
    the array that the text provider wrote, which is returned as it is. *)
Theorem C1_recommendations (B : Builtins) (w : World) (ev : Event)
  (recs : value) (src : string) (rl : bool) (msg : value) :
  handler B w ev = respond 200 (Envelope recs src rl msg) ->
  (forall parsed k,
     parse_body B ev = Ok parsed ->
     ToString B (member parsed "mood") = Ok k ->
     is_prototype_key k = false) ->
  exists l, recs = VArr l
    /\ (l <> []
        \/ exists parsed,
             parse_body B ev = Ok parsed
             /\ from_provider B w (member parsed "location") (member parsed "mood")
                  (member parsed "timeAvailable") (member parsed "maxDistance") recs).
Proof.
  intros H Hmood.
  destruct (handler_envelope B w ev _ _ _ _ H) as (parsed & Hp & _ & _ & A).
  specialize (Hmood parsed).
  destruct (assemble_cases B w _ _ _ _ _ A) as (recs' & src' & rl' & A' & Hc).
  injection A' as -> _ _ _.
  destruct Hc as [(l & -> & Hl) | [Hprov | Hmock]].
  - exists l. split; [reflexivity | now left].
  - destruct Hprov as (t & Ht & Hb).
    destruct (bracketed_array_is_array t _ Hb) as (l & ->).
    exists l. split; [reflexivity|]. right. exists parsed. split; [exact Hp|].
    exists t. split; assumption.
  - destruct (getMockRecommendations_inv B _ _ Hmock) as (k & Hk).
    destruct (getMockRecommendations_two B _ _ Hk (Hmood k Hp Hk)) as (a & b & E).
    rewrite E in Hmock. injection Hmock as <-.
    exists [a; b]. split; [reflexivity | left; discriminate].
Qed.

(** ** The handler on the scenarios *)

Module HandlerScenario.

Import Scenario.

Definition post (b : string) : Event := {| httpMethod := "POST"; event_body := VStr b |}.

Definition seattle_coffee : string :=
  quoted "{'location':'Seattle, WA','mood':'coffee','timeAvailable':30,'maxDistance':1000}".

Definition event : Event := post seattle_coffee.

Definition parsed : value :=
  VObj [("location", seattle); ("mood", coffee);
        ("timeAvailable", VInt 30); ("maxDistance", VInt 1000)].

Example event_parsed : parse_body Host.builtins event = Ok parsed.
Proof. vm_compute. reflexivity. Qed.

(** The places provider reports its rate limit; no text credential. *)
Definition limited : World := world (Response 429 "") Rejected None.

(** The places provider reports its rate limit; the text provider answers. *)
Definition limited_with_text : World :=
  world (Response 429 "") (generated "[]") (Some "gem-key").

(** A request whose time budget is an object with a [toString] of its own. *)
Definition unprintable_time : Event :=
  post (quoted "{'location':'Seattle, WA','mood':'coffee','timeAvailable':{'toString':1},'maxDistance':1000}").

(** The places provider answers; the text provider describes one place. *)
Definition described_world : World :=
  world (Response 200 search_body)
        (generated (quoted "Sure: [{\'name\':\'cafe b\',\'description\':\'Quiet and bright.\'}]"))
        (Some "gem-key").

Definition found : lookup_result :=
  {| places := [entry_a1; entry_a2; entry_a3]; rateLimited := false |}.

Definition add (description : string) (place : value) : value :=
  with_description (VStr description) place.

Definition enhanced : list value :=
  [add "A great coffee spot worth checking out." entry_a1;
   add "Quiet and bright." entry_a2;
   add "A great coffee spot worth checking out." entry_a3].

(** The places provider answers with one place whose name is an object
    with a [toString] of its own, and has no details for it. *)
Definition unnamed_body : string :=
  quoted "{'results':[{'fsq_id':'c1','name':{'toString':1}}]}".

Definition unnamed_world : World :=
  world (Response 200 unnamed_body) (generated "[]") (Some "gem-key").

Definition unnamed_entry : value :=
  VObj [("name", unprintable); ("address", VNull); ("distance", VNull)].

Example handler_limited :
  handler Host.builtins limited event
  = respond 200 (Envelope (VArr [mock "Starbucks" "Cozy corner cafe with artisanal coffee and fresh pastries. Perfect for your caffeine fix!" "5 min walk";
                                 mock "Peet's Coffee" "Known for bold, rich roasts and excellent espresso drinks." "8 min walk"])
                          "ai" true rate_limit_message).
Proof. vm_compute. reflexivity. Qed.

Example handler_described :
  handler Host.builtins described_world event
  = respond 200 (Envelope (VArr enhanced) "foursquare" false VNull).
Proof. vm_compute. reflexivity. Qed.

(** The text provider answers with an empty array. *)
Definition empty_world : World := world Rejected (generated "[]") (Some "gem-key").

(** No credential is set and the mood names a member of [Object.prototype]. *)
Example handler_prototype_mood :
  handler Host.builtins (offline None None)
    (post (quoted "{'location':'Seattle, WA','mood':'constructor'}"))
  = respond 200 (Envelope (VNative "constructor") "ai" false VNull).
Proof. vm_compute. reflexivity. Qed.

Example handler_no_credentials :
  handler Host.builtins (offline None None) event
  = success (VArr [mock "Starbucks" "Cozy corner cafe with artisanal coffee and fresh pastries. Perfect for your caffeine fix!" "5 min walk";
                   mock "Peet's Coffee" "Known for bold, rich roasts and excellent espresso drinks." "8 min walk"])
            "ai" false.
Proof. vm_compute. reflexivity. Qed.

Example handler_options :
  handler Host.builtins (offline None None) {| httpMethod := "OPTIONS"; event_body := VNull |}
  = respond 200 EmptyBody.
Proof. reflexivity. Qed.

Example handler_missing_mood :
  handler Host.builtins (offline None None) (post (quoted "{'location':'Seattle, WA'}"))
  = respond 400 (ErrorBody "Location and mood are required").
Proof. vm_compute. reflexivity. Qed.

(** A location that is a number too small for binary64 is zero. *)
Example handler_tiny_location :
  handler Host.builtins (offline None None)
    (post (quoted "{'location':1e-400,'mood':'coffee'}"))
  = respond 400 (ErrorBody "Location and mood are required").
Proof. vm_compute. reflexivity. Qed.

(** A mood that cannot be a property key. *)
Example handler_unprintable_mood :
  handler Host.builtins (offline None None)
    (post (quoted "{'location':'Seattle, WA','mood':{'toString':1}}"))
  = server_error.
Proof. vm_compute. reflexivity. Qed.

End HandlerScenario.

Lemma C2_rate_limit_routed_witness :
  handler Host.builtins HandlerScenario.limited HandlerScenario.event
  = respond 200
      (Envelope (VArr [mock "Starbucks" "Cozy corner cafe with artisanal coffee and fresh pastries. Perfect for your caffeine fix!" "5 min walk";
                       mock "Peet's Coffee" "Known for bold, rich roasts and excellent espresso drinks." "8 min walk"])
         "ai" true
         (VStr "Live data temporarily unavailable. Showing AI-generated recommendations.")).
Proof.
  refine (proj1 (C2_rate_limit_routed Host.builtins HandlerScenario.limited
                   HandlerScenario.event HandlerScenario.parsed rate_limited
                   _ _ _ _ _ _ _) _ _).
  - reflexivity.
  - vm_compute. reflexivity.
  - reflexivity.
  - reflexivity.
  - reflexivity.
  - vm_compute. reflexivity.
  - reflexivity.
  - vm_compute. reflexivity.
Defined.

(** C2, as stated, fails: the places credential is set, Places Lookup
    reports the rate limit, and the response is the server error, because
    the time budget of the request cannot be written into the prompt. *)
Lemma C2_rate_limited_request_fails :
  key_set (FOURSQUARE_API_KEY HandlerScenario.limited_with_text) = true
  /\ getPlacesFromFoursquare Host.builtins HandlerScenario.limited_with_text
       Scenario.seattle Scenario.coffee (VInt 1000)
     = Ok {| places := []; rateLimited := true |}
  /\ parse_body Host.builtins HandlerScenario.unprintable_time
     = Ok (VObj [("location", Scenario.seattle); ("mood", Scenario.coffee);
                 ("timeAvailable", unprintable); ("maxDistance", VInt 1000)])
  /\ getGeminiRecommendations Host.builtins HandlerScenario.limited_with_text
       Scenario.seattle Scenario.coffee unprintable (VInt 1000)
     = Throw TypeError
  /\ handler Host.builtins HandlerScenario.limited_with_text
       HandlerScenario.unprintable_time
     = respond 500 (ErrorBody "Failed to get recommendations").
Proof. repeat split; vm_compute; reflexivity. Qed.

Lemma C3_places_keep_their_names_witness :
  handler Host.builtins HandlerScenario.described_world HandlerScenario.event
  = respond 200 (Envelope (VArr HandlerScenario.enhanced) "foursquare" false VNull)
  /\ Forall (fun rec => exists p, In p (places HandlerScenario.found)
                                  /\ member rec "name" = member p "name")
            HandlerScenario.enhanced.
Proof.
  refine (proj1 (C3_places_keep_their_names Host.builtins HandlerScenario.described_world
                   HandlerScenario.event HandlerScenario.parsed HandlerScenario.found
                   _ _ _ _ _ _ _ _) _ _).
  - reflexivity.
  - vm_compute. reflexivity.
  - reflexivity.
  - reflexivity.
  - reflexivity.
  - vm_compute. reflexivity.
  - reflexivity.
  - discriminate.
  - vm_compute. reflexivity.
Defined.

(** C3, as stated, fails: Places Lookup returns one place and no rate
    limit, and the response is the server error, because the name of the
    place cannot be written into the prompt. *)
Lemma C3_unprintable_name_fails :
  getPlacesFromFoursquare Host.builtins HandlerScenario.unnamed_world
    Scenario.seattle Scenario.coffee (VInt 1000)
  = Ok {| places := [HandlerScenario.unnamed_entry]; rateLimited := false |}
  /\ enhanceWithGemini Host.builtins HandlerScenario.unnamed_world
       [HandlerScenario.unnamed_entry] Scenario.coffee Scenario.seattle
     = Throw TypeError
  /\ handler Host.builtins HandlerScenario.unnamed_world HandlerScenario.event
     = respond 500 (ErrorBody "Failed to get recommendations").
Proof. repeat split; vm_compute; reflexivity. Qed.

Lemma C1_recommendations_witness :
  exists l, VArr HandlerScenario.enhanced = VArr l
    /\ (l <> []
        \/ exists parsed,
             parse_body Host.builtins HandlerScenario.event = Ok parsed
             /\ from_provider Host.builtins HandlerScenario.described_world
                  (member parsed "location") (member parsed "mood")
                  (member parsed "timeAvailable") (member parsed "maxDistance")
                  (VArr HandlerScenario.enhanced)).
Proof.
  apply (C1_recommendations Host.builtins HandlerScenario.described_world
           HandlerScenario.event (VArr HandlerScenario.enhanced) "foursquare" false VNull).
  - vm_compute. reflexivity.
  - intros parsed k H Hk. vm_compute in H. injection H as <-.
    vm_compute in Hk. injection Hk as <-. reflexivity.
Defined.

(** C1, as stated, fails: the text provider answers with an empty array,
    and the success response carries it. *)
Lemma C1_empty_recommendations :
  handler Host.builtins HandlerScenario.empty_world HandlerScenario.event
  = respond 200 (Envelope (VArr []) "ai" false VNull).
Proof. vm_compute. reflexivity. Qed.

(** * Further properties of the handler and of what it calls *)

(** ** The bracket span *)

Section BracketSpan.

Lemma from_first_open_app pre r :
  ~ In "["%char pre -> from_first_open (pre ++ "["%char :: r) = Some r.
Proof.
  induction pre as [|c pre IH]; intros H; cbn.
  - reflexivity.
  - destruct (Ascii.eqb_spec c "["%char) as [->|_].
    + exfalso. apply H. now left.
    + apply IH. intros Hin. apply H. now right.
Qed.

Lemma from_first_open_inv s r :
  from_first_open s = Some r ->
  exists pre, s = (pre ++ "["%char :: r)%list /\ ~ In "["%char pre.
Proof.
  induction s as [|c s IH]; cbn; [discriminate|].
  destruct (Ascii.eqb_spec c "["%char) as [->|Hc].
  - intros H; injection H as <-. exists []. split; [reflexivity | intros []].
  - intros H. destruct (IH H) as (pre & -> & Hn).
    exists (c :: pre). split; [reflexivity|].
    intros [E|Hin]; [congruence | contradiction].
Qed.

Lemma through_last_close_none s :
  through_last_close s = None <-> ~ In "]"%char s.
Proof.
  induction s as [|c s IH]; cbn.
  - split; [intros _ [] | reflexivity].
  - destruct (through_last_close s) as [p|].
    + split; [discriminate|]. intros H. exfalso.
      assert (Hs : ~ In "]"%char s) by (intros Hin; apply H; now right).
      apply IH in Hs. discriminate.
    + destruct (Ascii.eqb_spec c "]"%char) as [->|Hc].
      * split; [discriminate|]. intros H. exfalso. apply H. now left.
      * split; [|reflexivity]. intros _ [E|Hin]; [congruence|].
        now apply (proj1 IH).
Qed.

Lemma through_last_close_app mid post :
  ~ In "]"%char post ->
  through_last_close (mid ++ "]"%char :: post) = Some (mid ++ ["]"%char])%list.
Proof.
  intros H. apply through_last_close_none in H.
  induction mid as [|c mid IH]; cbn.
  - now rewrite H.
  - now rewrite IH.
Qed.

Lemma through_last_close_inv s p :
  through_last_close s = Some p ->
  exists mid post, s = (mid ++ "]"%char :: post)%list
                   /\ p = (mid ++ ["]"%char])%list /\ ~ In "]"%char post.
Proof.
  revert p. induction s as [|c s IH]; intros p; cbn; [discriminate|].
  destruct (through_last_close s) as [p'|] eqn:E.
  - intros H; injection H as <-.
    destruct (IH _ eq_refl) as (mid & post & -> & -> & Hn).
    exists (c :: mid), post. repeat split; assumption.
  - destruct (Ascii.eqb_spec c "]"%char) as [->|Hc]; [|discriminate].
    intros H; injection H as <-.
    exists [], s. repeat split. now apply through_last_close_none.
Qed.

End BracketSpan.

(** The characters of a text. *)
Definition chars (t : string) : list ascii := list_ascii_of_string t.

(** X1: the bracket span of a text is found exactly when the text is some
    characters without an opening bracket, an opening bracket, any
    characters, a closing bracket, and some characters without a closing
    bracket; the span is then what lies from the one bracket to the other. *)
Theorem X1_match_brackets_span (t m : string) :
  match_brackets t = Some m
  <-> exists pre mid post,
        chars t = (pre ++ "["%char :: mid ++ "]"%char :: post)%list
        /\ ~ In "["%char pre /\ ~ In "]"%char post
        /\ m = string_of_list_ascii ("["%char :: mid ++ ["]"%char]).
Proof.
  unfold match_brackets, chars. split.
  - destruct (from_first_open _) as [r|] eqn:Ho; [|discriminate].
    destruct (through_last_close r) as [p|] eqn:Hc; [|discriminate].
    intros H; injection H as <-.
    destruct (from_first_open_inv _ _ Ho) as (pre & E & Hpre).
    destruct (through_last_close_inv _ _ Hc) as (mid & post & -> & -> & Hpost).
    exists pre, mid, post. repeat split; assumption.
  - intros (pre & mid & post & -> & Hpre & Hpost & ->).
    rewrite (from_first_open_app pre _ Hpre).
    now rewrite (through_last_close_app mid post Hpost).
Qed.

(** X2: a text has no bracket span exactly when it has no opening bracket
    or no closing bracket after its first opening bracket. *)
Theorem X2_match_brackets_none (t : string) :
  match_brackets t = None
  <-> ~ In "["%char (chars t)
      \/ exists pre r, chars t = (pre ++ "["%char :: r)%list
                       /\ ~ In "["%char pre /\ ~ In "]"%char r.
Proof.
  unfold match_brackets, chars. split.
  - destruct (from_first_open _) as [r|] eqn:Ho.
    + destruct (through_last_close r) as [p|] eqn:Hc; [discriminate|].
      intros _. right.
      destruct (from_first_open_inv _ _ Ho) as (pre & E & Hpre).
      exists pre, r. repeat split; try assumption.
      now apply through_last_close_none.
    + intros _. left. intros Hin.
      apply in_split in Hin. destruct Hin as (l1 & l2 & E).
      revert Ho. rewrite E. clear E.
      induction l1 as [|c l1 IH]; cbn; [discriminate|].
      destruct (Ascii.eqb c "["); [discriminate | exact IH].
  - intros [Hn | (pre & r & E & Hpre & Hr)].
    + destruct (from_first_open _) as [r|] eqn:Ho; [|reflexivity].
      destruct (from_first_open_inv _ _ Ho) as (pre & E & _).
      exfalso. apply Hn. rewrite E. apply in_or_app. right. now left.
    + rewrite E, (from_first_open_app pre r Hpre).
      apply through_last_close_none in Hr. now rewrite Hr.
Qed.

(** ** Generate-from-scratch: what the provider can do to it *)

Lemma match_brackets_of_chars pre mid post :
  ~ In "["%char pre -> ~ In "]"%char post ->
  match_brackets (string_of_list_ascii (pre ++ "["%char :: mid ++ "]"%char :: post))
  = Some (string_of_list_ascii ("["%char :: mid ++ ["]"%char])).
Proof.
  intros Hpre Hpost. unfold match_brackets.
  rewrite list_ascii_of_string_of_list_ascii, (from_first_open_app pre _ Hpre).
  now rewrite (through_last_close_app mid post Hpost).
Qed.

(** X3: when the provider writes one array with prose around it, and the
    prose before has no opening bracket and the prose after no closing
    bracket, Generate-from-scratch returns what the array text denotes. *)
Theorem X3_array_in_prose (B : Builtins) (w : World)
  (location mood timeAvailable maxDistance : value)
  (pre mid post : list ascii) (v : value) :
  generated_text B w location mood timeAvailable maxDistance
  = Some (string_of_list_ascii (pre ++ "["%char :: mid ++ "]"%char :: post)) ->
  ~ In "["%char pre -> ~ In "]"%char post ->
  JSON_parse (string_of_list_ascii ("["%char :: mid ++ ["]"%char])) = Ok v ->
  getGeminiRecommendations B w location mood timeAvailable maxDistance = Ok v.
Proof.
  intros Ht Hpre Hpost Hv.
  rewrite (getGeminiRecommendations_generated _ _ _ _ _ _ _ Ht). unfold bracketed_array.
  now rewrite (match_brackets_of_chars pre mid post Hpre Hpost), Hv.
Qed.

Lemma X3_array_in_prose_witness :
  GenerationScenario.generate GenerationScenario.chatty_escaped
  = Ok GenerationScenario.starbucks.
Proof.
  apply (X3_array_in_prose Host.builtins
           (GenerationScenario.gemini_world GenerationScenario.chatty_escaped)
           Scenario.seattle Scenario.coffee (VInt 30) (VInt 1000)
           (chars "Here you go: ")
           (chars (Scenario.quoted "{'name':'Starbucks'}"))
           (chars " Enjoy!")).
  - vm_compute. reflexivity.
  - vm_compute. intuition discriminate.
  - vm_compute. intuition discriminate.
  - vm_compute. reflexivity.
Defined.

Section GenerationFailures.

Variable B : Builtins.
Variable w : World.
Variables location mood timeAvailable maxDistance : value.

(** The provider gives no text for [prompt]: no connection, a status
    that is no success, a body that is not JSON or denotes null, or a
    first candidate whose text is not a string. *)
Definition no_text_for (prompt : string) : Prop :=
  fetch w (gemini_request w prompt) = Rejected
  \/ (exists status body,
        fetch w (gemini_request w prompt) = Response status body
        /\ (ok_status status = false
            \/ (exists e, JSON_parse body = Throw e)
            \/ (exists data, JSON_parse body = Ok data
                             /\ forall t, candidate_text data <> Ok (VStr t)))).

(** The ways in which Generate-from-scratch is left without a text: no
    credential, or a prompt for which the provider gives none. *)
Definition no_generated_text : Prop :=
  key_set (GEMINI_API_KEY w) = false
  \/ exists prompt,
       generate_prompt B w location mood timeAvailable maxDistance = Ok prompt
       /\ no_text_for prompt.

Lemma no_text_for_None prompt : no_text_for prompt -> provider_text w prompt = None.
Proof.
  unfold no_text_for, provider_text.
  intros [-> | (status & body & -> & Hc)]; [reflexivity|].
  destruct (ok_status status); [|reflexivity].
  destruct Hc as [Hc | [(e & ->) | (data & -> & Hc)]];
    [discriminate | reflexivity |].
  cbn [bind]. destruct (candidate_text data) as [text|]; [|reflexivity].
  destruct text; try reflexivity. exfalso. eapply Hc. reflexivity.
Qed.

Lemma no_generated_text_falls_back :
  no_generated_text ->
  getGeminiRecommendations B w location mood timeAvailable maxDistance
  = getMockRecommendations B mood.
Proof.
  rewrite getGeminiRecommendations_eq.
  intros [-> | (prompt & Hp & Hn)]; [reflexivity|].
  rewrite Hp. cbn [bind]. rewrite (no_text_for_None _ Hn).
  destruct (key_set (GEMINI_API_KEY w)); reflexivity.
Qed.

End GenerationFailures.

(** X4: whenever the text provider gives no text (no credential, or, for
    the prompt of the request, a refused connection, a status that is no
    success, a body that is not JSON, or no text in the first candidate),
    Generate-from-scratch does what the mock table does for the mood: it
    returns the mock list, which is truthy, when the mood can be
    converted to a property key, and raises otherwise. *)
Theorem X4_generation_falls_back (B : Builtins) (w : World)
  (location mood timeAvailable maxDistance : value) :
  no_generated_text B w location mood timeAvailable maxDistance ->
  getGeminiRecommendations B w location mood timeAvailable maxDistance
  = getMockRecommendations B mood
  /\ (forall k, ToString B mood = Ok k ->
      exists v, getGeminiRecommendations B w location mood timeAvailable maxDistance = Ok v
                /\ truthy B v = true)
  /\ (forall e, ToString B mood = Throw e ->
      getGeminiRecommendations B w location mood timeAvailable maxDistance = Throw e).
Proof.
  intros H. rewrite (no_generated_text_falls_back B w _ _ _ _ H).
  split; [reflexivity|]. split.
  - intros k Hk. apply (getMockRecommendations_Ok B _ _ Hk).
  - intros e He. apply (getMockRecommendations_Throw B _ _ He).
Qed.

Lemma X4_generation_falls_back_witness :
  getGeminiRecommendations Host.builtins
    (Scenario.world Rejected (Response 503 "overloaded") (Some "gem-key"))
    Scenario.seattle Scenario.coffee (VInt 30) (VInt 1000)
  = getMockRecommendations Host.builtins Scenario.coffee.
Proof.
  refine (proj1 (X4_generation_falls_back Host.builtins
                   (Scenario.world Rejected (Response 503 "overloaded") (Some "gem-key"))
                   Scenario.seattle Scenario.coffee (VInt 30) (VInt 1000) _)).
  right. eexists. split; [vm_compute; reflexivity|].
  right. exists 503%Z, "overloaded". split; [|left; reflexivity].
  vm_compute. reflexivity.
Defined.

(** ** Places Lookup: the entries *)

Section Entries.

Variable B : Builtins.
Variable w : World.

(** An entry: an object with a name, an address and the distance of the
    search result. *)
Definition entry_of (place entry : value) : Prop :=
  exists fields distance,
    entry = VObj fields
    /\ distance_text B (member place "distance") = Ok distance
    /\ own fields "distance" = Some distance
    /\ own fields "name" <> None
    /\ own fields "address" <> None.

Lemma coarse_entry_eq place :
  nullish place = false ->
  coarse_entry B place
  = (address <- formatAddress B (member place "location") ;;
     distance <- distance_text B (member place "distance") ;;
     Ok (VObj [("name", member place "name"); ("address", address);
               ("distance", distance)])).
Proof. intros Hn. unfold coarse_entry. rewrite !(get_member place _ Hn). reflexivity. Qed.

Lemma coarse_entry_of place v : coarse_entry B place = Ok v -> entry_of place v.
Proof.
  unfold coarse_entry. intros H.
  invert_bind H as name Hn. invert_bind H as loc Hl. invert_bind H as address Ha.
  invert_bind H as d Hd. invert_bind H as distance Hdist.
  injection H as <-. apply get_Ok in Hd as [_ ->].
  eexists _, distance. split; [reflexivity|]. split; [exact Hdist|].
  cbn. repeat split; discriminate.
Qed.

Lemma full_entry_of place detail v :
  full_entry B w place detail = Ok v -> entry_of place v.
Proof.
  unfold full_entry. intros H.
  invert_bind H as name Hn. invert_bind H as address Ha.
  invert_bind H as d Hd. invert_bind H as distance Hdist.
  invert_bind H as rating Hr. invert_bind H as price Hp. invert_bind H as hours Hh.
  injection H as <-. apply get_Ok in Hd as [_ ->].
  eexists _, distance. split; [reflexivity|]. split; [exact Hdist|].
  cbn. repeat split; discriminate.
Qed.

Lemma detailed_entry_of place v : detailed_entry B w place = Ok v -> entry_of place v.
Proof.
  unfold detailed_entry, try_catch.
  match goal with |- match ?c with _ => _ end = _ -> _ => destruct c as [x|e] eqn:H end.
  2:{ apply coarse_entry_of. }
  intros X; injection X as <-.
  invert_bind H as id Hid. invert_bind H as fsq_id Hf.
  invert_bind H as r Hr. destruct r as [status body].
  destruct (ok_status status); [|now apply coarse_entry_of].
  invert_bind H as detail Hdetail. eapply full_entry_of; eassumption.
Qed.

(** The detail fetch of a place gives nothing to build on: the place is
    null or its identifier cannot be written into the request, or the
    request is refused, or answered with a status that is no success or
    with a body that is not JSON or denotes null. *)
Definition detail_unavailable (place : value) : Prop :=
  nullish place = true
  \/ (exists e, ToString B (member place "fsq_id") = Throw e)
  \/ exists fsq_id,
       ToString B (member place "fsq_id") = Ok fsq_id
       /\ (fetch w (detail_request w fsq_id) = Rejected
           \/ exists status body,
                fetch w (detail_request w fsq_id) = Response status body
                /\ (ok_status status = false
                    \/ (exists e, JSON_parse body = Throw e)
                    \/ JSON_parse body = Ok VNull)).

End Entries.

(** X5: whatever the places provider does, what Places Lookup returns has
    at most three places, none when it reports the rate limit, and every
    place is an object with a name, an address and a distance field; and
    it returns exactly when the mood can be converted to a property key. *)
Theorem X5_lookup_bounds (B : Builtins) (w : World) (location mood maxDistance : value) :
  (forall r,
     getPlacesFromFoursquare B w location mood maxDistance = Ok r ->
     (List.length (places r) <= 3)%nat
     /\ (rateLimited r = true -> places r = [])
     /\ Forall (fun p => exists fields,
                  p = VObj fields /\ own fields "name" <> None
                  /\ own fields "address" <> None /\ own fields "distance" <> None)
               (places r))
  /\ ((exists r, getPlacesFromFoursquare B w location mood maxDistance = Ok r)
      <-> prints B mood = true).
Proof.
  split.
  2:{ split.
      - intros (r & H). apply getPlacesFromFoursquare_inv in H as (k & Hk).
        eapply Ok_prints; eassumption.
      - intros H. apply prints_Ok in H as (k & Hk).
        eapply getPlacesFromFoursquare_total; eassumption. }
  intros r. unfold getPlacesFromFoursquare. intros H0. invert_bind H0 as terms Ht.
  unfold try_catch in H0.
  destruct (getPlacesFromFoursquare_try B w location terms) as [x|e] eqn:H;
    injection H0 as <-.
  2:{ cbn. repeat split; [lia | constructor]. }
  unfold getPlacesFromFoursquare_try in H.
  invert_bind H as rq Hrq. invert_bind H as resp Hresp. destruct resp as [status body].
  destruct ((status =? 429) || (status =? 402))%Z.
  { injection H as <-. cbn. repeat split; [lia | constructor]. }
  destruct (negb (ok_status status)).
  { injection H as <-. cbn. repeat split; [lia | constructor]. }
  invert_bind H as searchData Hs. invert_bind H as results Hres.
  invert_bind H as first3 Hf. invert_bind H as detailed Hd. injection H as <-.
  cbn [places rateLimited].
  assert (Hlen : (List.length first3 <= 3)%nat).
  { unfold slice_0_3 in Hf. destruct (or_else B results (VArr [])); try discriminate.
    assert (E : first3 = firstn 3 elems) by congruence.
    rewrite E. apply firstn_le_length. }
  pose proof (all_map_inv _ (fun v => is_object v = true) _ _
                (detailed_entry_object B w) Hd) as [Hobj Hl].
  rewrite (filter_not_null_objects _ Hobj).
  split; [lia|]. split; [discriminate|].
  apply (all_map_Forall2 _ (entry_of B)) in Hd; [|apply detailed_entry_of].
  clear - Hd.
  induction Hd as [|p v ps vs (fields & distance & -> & _ & Hdist & Hn & Ha) _ IH];
    constructor; [|exact IH].
  exists fields. repeat split; try assumption. rewrite Hdist. discriminate.
Qed.

(** X6: when the detail fetch of a search result gives nothing to build
    on (no connection, a status that is no success, a body that is not
    JSON or denotes null), the mapper does what the coarse entry does: it
    returns the entry built from the search result alone, with its name,
    its formatted address and its rounded distance, or raises when that
    entry cannot be built. *)
Theorem X6_detail_failure_degrades (B : Builtins) (w : World) (place : value) :
  detail_unavailable B w place ->
  detailed_entry B w place = coarse_entry B place
  /\ (nullish place = false ->
      forall address distance,
        formatAddress B (member place "location") = Ok address ->
        distance_text B (member place "distance") = Ok distance ->
        detailed_entry B w place
        = Ok (VObj [("name", member place "name"); ("address", address);
                    ("distance", distance)])).
Proof.
  intros Hd.
  assert (E : detailed_entry B w place = coarse_entry B place).
  { unfold detailed_entry, detail_unavailable, await_fetch in *.
    destruct Hd as [Hn | [(e & He) | (fsq_id & Hf & Hd)]].
    - destruct place; try discriminate; reflexivity.
    - destruct (get place "fsq_id") as [id|] eqn:G; [|reflexivity].
      apply get_Ok in G as (_ & ->). cbn [bind]. rewrite He. reflexivity.
    - destruct (get place "fsq_id") as [id|] eqn:G; [|reflexivity].
      apply get_Ok in G as (_ & ->). cbn [bind]. rewrite Hf. cbn [bind].
      destruct Hd as [-> | (status & body & -> & Hd)]; [reflexivity|].
      cbn [bind]. destruct (ok_status status).
      2:{ apply try_catch_same. now left. }
      destruct Hd as [Hd | [(e & ->) | ->]]; [discriminate | reflexivity | reflexivity]. }
  split; [exact E|].
  intros Hn address distance Ha Hdist.
  rewrite E, (coarse_entry_eq B place Hn), Ha. cbn [bind]. rewrite Hdist. reflexivity.
Qed.

Lemma X6_detail_failure_degrades_witness :
  detailed_entry Host.builtins
    (Scenario.world (Response 200 Scenario.search_body) Rejected None)
    (VObj [("fsq_id", VStr "a2"); ("name", VStr "Cafe B"); ("distance", VInt 300)])
  = Ok Scenario.entry_a2.
Proof.
  refine (proj2 (X6_detail_failure_degrades Host.builtins
           (Scenario.world (Response 200 Scenario.search_body) Rejected None)
           (VObj [("fsq_id", VStr "a2"); ("name", VStr "Cafe B"); ("distance", VInt 300)])
           _) _ VNull (VStr "300 meters") _ _).
  - right. right. exists "a2". split; [reflexivity|].
    right. exists 404%Z, "not found". split; [vm_compute; reflexivity | left; reflexivity].
  - reflexivity.
  - reflexivity.
  - vm_compute. reflexivity.
Defined.

(** X7: the distance of an entry is always the rounded distance of the
    search result, also when the details of the place were fetched: for
    every entry that the mapper returns, the distance text of the search
    result can be written and is the distance of the entry. *)
Theorem X7_distance_from_search (B : Builtins) (w : World) (place entry : value) :
  detailed_entry B w place = Ok entry ->
  exists fields distance,
    entry = VObj fields
    /\ distance_text B (member place "distance") = Ok distance
    /\ own fields "distance" = Some distance.
Proof.
  intros E. destruct (detailed_entry_of B w place entry E)
    as (fields & distance & -> & Hd & Ho & _).
  exists fields, distance. repeat split; assumption.
Qed.

Lemma X7_distance_from_search_witness :
  exists fields distance,
    Scenario.entry_a1 = VObj fields
    /\ distance_text Host.builtins (member (nth 0 Scenario.results VNull) "distance")
       = Ok distance
    /\ own fields "distance" = Some distance.
Proof.
  apply (X7_distance_from_search Host.builtins
           (Scenario.world (Response 200 Scenario.search_body) Rejected None)
           (nth 0 Scenario.results VNull)).
  vm_compute. reflexivity.
Defined.

(** ** Enhance-existing: what is attached to a place *)

Section Descriptions.

Variable B : Builtins.
Variable w : World.
Variables mood location : value.

(** The description is the text of one of the three templates. *)
Definition generic (text : completion string) (description : value) : Prop :=
  exists t, text = Ok t /\ description = VStr t.

(** Where the description of a place comes from: one of the three generic
    texts, or the description of an entry of the provider whose name
    matches the name of the place. *)
Definition description_origin (place description : value) : Prop :=
  generic (in_location_text B mood location) description
  \/ generic (popular_text B mood) description
  \/ generic (worth_text B mood) description
  \/ exists ai, name_matches B place ai = Ok true
                /\ description = member ai "description"
                /\ truthy B description = true.

Definition well_described (place recommendation : value) : Prop :=
  exists description,
    recommendation = with_description description place
    /\ description_origin place description.

Lemma description_origin_truthy place d :
  description_origin place d -> truthy B d = true.
Proof.
  unfold generic, in_location_text, popular_text, worth_text.
  intros [(t & E & ->) | [(t & E & ->) | [(t & E & ->) | (ai & _ & _ & H)]]];
    try exact H.
  - do 2 bind_inv E. injection E as <-. reflexivity.
  - bind_inv E. injection E as <-. reflexivity.
  - bind_inv E. injection E as <-. reflexivity.
Qed.

Lemma find_Ok (p : value -> completion bool) l v :
  find p l = Ok v -> v = VUndefined \/ (In v l /\ p v = Ok true).
Proof.
  induction l as [|h r IH]; cbn.
  - intros H; injection H as <-. now left.
  - intros H. invert_bind H as b Hb. destruct b.
    + injection H as <-. right. split; [now left | exact Hb].
    + destruct (IH H) as [-> | [Hin Hp]]; [now left | right; split; [now right | exact Hp]].
Qed.

Lemma merge_description_origin ds place v :
  merge_description B ds mood place = Ok v -> well_described place v.
Proof.
  unfold merge_description. intros H. invert_bind H as aiData Hf.
  destruct (truthy B (get_opt aiData "description")) eqn:T.
  - injection H as <-. eexists. split; [reflexivity|].
    destruct (find_Ok _ _ _ Hf) as [-> | [_ Hm]]; [discriminate|].
    right. right. right. exists aiData. split; [exact Hm|].
    assert (Hn : nullish aiData = false).
    { unfold name_matches in Hm. invert_bind Hm as dn Hdn. now apply get_Ok in Hdn. }
    assert (E : get_opt aiData "description" = member aiData "description").
    { destruct aiData; try discriminate; reflexivity. }
    rewrite E in *. split; [reflexivity | exact T].
  - invert_bind H as t Ht. injection H as <-. eexists. split; [reflexivity|].
    right. right. left. exists t. split; [exact Ht | reflexivity].
Qed.

Lemma describe_origin text places recs :
  (forall p d, generic text d -> description_origin p d) ->
  describe text places = Ok recs -> Forall2 well_described places recs.
Proof.
  intros Ho. unfold describe. apply all_map_Forall2. intros p v H.
  invert_bind H as t Ht. injection H as <-.
  eexists. split; [reflexivity|]. apply Ho. exists t. split; [exact Ht | reflexivity].
Qed.

Lemma enhanceWithGemini_origin places recs :
  enhanceWithGemini B w places mood location = Ok recs ->
  Forall2 well_described places recs.
Proof.
  assert (Hin : forall l, describe (in_location_text B mood location) places = Ok l ->
                          Forall2 well_described places l).
  { intros l. apply describe_origin. intros; now left. }
  assert (Hpop : forall l, describe (popular_text B mood) places = Ok l ->
                           Forall2 well_described places l).
  { intros l. apply describe_origin. intros; right; now left. }
  unfold enhanceWithGemini.
  destruct (key_set (GEMINI_API_KEY w)); cbn [negb]; [|apply Hin].
  intros H. invert_bind H as prompt Hp. unfold try_catch in H.
  destruct (enhanceWithGemini_try B w places mood prompt) as [l|e] eqn:T; [|now apply Hin].
  injection H as <-. unfold enhanceWithGemini_try in T.
  invert_bind T as r Hr. destruct r as [status body].
  destruct (negb (ok_status status)); [now apply Hpop|].
  invert_bind T as data Hdata. invert_bind T as text Htext. invert_bind T as merged Hm.
  destruct merged as [l'|]; [|now apply Hpop].
  injection T as <-. unfold merge_generated in Hm.
  destruct (truthy B text); [|discriminate].
  invert_bind Hm as jsonMatch Hj. destruct jsonMatch as [m|]; [|discriminate].
  invert_bind Hm as descriptions Hd. destruct descriptions; try discriminate.
  invert_bind Hm as merged Hall. injection Hm as <-.
  eapply all_map_Forall2; [|eassumption].
  intros x v. apply merge_description_origin.
Qed.

Lemma own_app_same fields k v : own (fields ++ [(k, v)]) k = Some v.
Proof.
  induction fields as [|[a b] r IH]; cbn.
  - now rewrite String.eqb_refl.
  - now rewrite IH.
Qed.

Lemma with_description_member d fields k :
  member (with_description d (VObj fields)) k
  = if "description" =? k then d else member (VObj fields) k.
Proof.
  unfold with_description. cbn [spread member].
  destruct (String.eqb_spec "description" k) as [<-|Hk].
  - now rewrite own_app_same.
  - rewrite own_app_other; [reflexivity|]. now apply String.eqb_neq.
Qed.

End Descriptions.

(** X8: whatever the text provider does, what Enhance-existing returns is
    one recommendation for each place, in the order of the places; a
    recommendation has every field of its place unchanged, apart from the
    description, and its description is never missing or empty. For a
    mood and a location that can be converted to text, it returns exactly
    when, with the credential set, the name and the category of every
    place can be converted to text. *)
Theorem X8_enhance_keeps_places (B : Builtins) (w : World)
  (places : list value) (mood location : value) :
  Forall (fun p => is_object p = true) places ->
  (forall recs,
     enhanceWithGemini B w places mood location = Ok recs ->
     Forall2 (fun p r =>
                (forall k, k <> "description" -> member r k = member p k)
                /\ truthy B (member r "description") = true)
             places recs)
  /\ (prints B mood = true -> prints B location = true ->
      ((exists recs, enhanceWithGemini B w places mood location = Ok recs)
       <-> (key_set (GEMINI_API_KEY w) = true ->
            Forall (fun p => line_prints B p = true) places))).
Proof.
  intros Hobj. split.
  - intros recs E. apply enhanceWithGemini_origin in E.
    induction E as [|p r ps rs (d & -> & Ho) _ IH]; constructor.
    + inversion Hobj as [|? ? Hp _]; subst. destruct p; try discriminate.
      split.
      * intros k Hk. rewrite with_description_member.
        destruct (String.eqb_spec "description" k); [congruence | reflexivity].
      * rewrite with_description_member. cbn.
        eapply description_origin_truthy; eassumption.
    + apply IH. now inversion Hobj.
  - intros Hm Hl. apply prints_Ok in Hm as (k & Hk), Hl as (l & Hl).
    apply (enhanceWithGemini_returns B w _ _ _ k l Hobj Hk Hl).
Qed.

Lemma X8_enhance_keeps_places_witness :
  Forall2 (fun p r =>
             (forall k, k <> "description" -> member r k = member p k)
             /\ truthy Host.builtins (member r "description") = true)
          (places HandlerScenario.found) HandlerScenario.enhanced.
Proof.
  refine (proj1 (X8_enhance_keeps_places Host.builtins HandlerScenario.described_world
           (places HandlerScenario.found) Scenario.coffee Scenario.seattle _) _ _).
  - repeat constructor.
  - vm_compute. reflexivity.
Defined.



(** ** Enhance-existing: the merge *)

Section Merge.

Variable B : Builtins.
Variable w : World.
Variables mood location : value.

(** The provider answered the request for these places with a text whose
    bracket span denotes the array [descriptions]. *)
Definition provider_described (places descriptions : list value) : Prop :=
  key_set (GEMINI_API_KEY w) = true
  /\ exists prompt status body data t m,
       enhance_prompt B places mood location = Ok prompt
       /\ fetch w (gemini_request w prompt) = Response status body
       /\ ok_status status = true
       /\ JSON_parse body = Ok data
       /\ candidate_text data = Ok (VStr t)
       /\ t <> ""
       /\ match_brackets t = Some m
       /\ JSON_parse m = Ok (VArr descriptions).

Lemma enhanceWithGemini_merge places descriptions :
  provider_described places descriptions ->
  enhanceWithGemini B w places mood location
  = try_catch (all (map (merge_description B descriptions mood) places))
      (fun _ => describe (in_location_text B mood location) places).
Proof.
  intros (Hk & prompt & status & body & data & t & m
          & Hprompt & Hf & Hok & Hd & Ht & Hne & Hm & Hp).
  unfold enhanceWithGemini, enhanceWithGemini_try, merge_generated, await_fetch.
  rewrite Hk, Hprompt. cbn [negb bind].
  rewrite Hf. cbn [bind]. rewrite Hok, Hd. cbn [negb bind]. rewrite Ht. cbn [bind truthy].
  apply String.eqb_neq in Hne. rewrite Hne. cbn [negb text_match bind].
  rewrite Hm, Hp. cbn [bind].
  destruct (all (map (merge_description B descriptions mood) places)); reflexivity.
Qed.

(** The name of an entry is a string. *)
Definition named (v : value) : Prop :=
  nullish v = false /\ exists s, member v "name" = VStr s.

(** The names match: equal, or one contained in the other, letter case
    apart. *)
Definition names_match (place d : value) : bool :=
  match member place "name", member d "name" with
  | VStr pn, VStr dn =>
      let pl := toLowerCase B pn in
      let dl := toLowerCase B dn in
      (dl =? pl) || includes B pl dl || includes B dl pl
  | _, _ => false
  end.

Lemma name_matches_named place d :
  named place -> named d -> name_matches B place d = Ok (names_match place d).
Proof.
  intros (Hp & pn & Ep) (Hd & dn & Ed). unfold name_matches, names_match.
  rewrite (get_member d "name" Hd), (get_member place "name" Hp), Ep, Ed.
  reflexivity.
Qed.

Lemma find_name_matches place ds :
  named place -> Forall named ds ->
  find (name_matches B place) ds
  = Ok (match List.find (names_match place) ds with
        | Some d => d
        | None => VUndefined
        end).
Proof.
  intros Hp. induction 1 as [|d r Hd _ IH]; [reflexivity|].
  cbn [find List.find]. rewrite (name_matches_named place d Hp Hd). cbn [bind].
  destruct (names_match place d); [reflexivity | exact IH].
Qed.

(** The place with the generic text of the merge. *)
Definition worth (place : value) : completion value :=
  t <- worth_text B mood ;;
  Ok (with_description (VStr t) place).

End Merge.

(** X10: when every provider entry and the place have a string name, the
    merge attaches to the place the description of the first provider
    entry whose name matches, if that description is there and not empty,
    and else the generic worth-checking-out text, for which the mood is
    converted to text; later matching entries are not looked at. *)
Theorem X10_first_match_wins (B : Builtins) (mood place : value) (ds : list value) :
  named place -> Forall named ds ->
  merge_description B ds mood place
  = match List.find (names_match B place) ds with
    | Some d =>
        if truthy B (member d "description")
        then Ok (with_description (member d "description") place)
        else worth B mood place
    | None => worth B mood place
    end
  /\ forall k,
       ToString B mood = Ok k ->
       merge_description B ds mood place
       = Ok (with_description
               (match List.find (names_match B place) ds with
                | Some d =>
                    or_else B (member d "description")
                      (VStr ("A great " ++ k ++ " spot worth checking out."))
                | None => VStr ("A great " ++ k ++ " spot worth checking out.")
                end)
               place).
Proof.
  intros Hp Hds.
  assert (E : merge_description B ds mood place
              = match List.find (names_match B place) ds with
                | Some d =>
                    if truthy B (member d "description")
                    then Ok (with_description (member d "description") place)
                    else worth B mood place
                | None => worth B mood place
                end).
  { unfold merge_description.
    rewrite (find_name_matches B place ds Hp Hds). cbn [bind].
    destruct (List.find (names_match B place) ds) as [d|] eqn:E; [|reflexivity].
    apply find_some in E as [Hin _].
    rewrite Forall_forall in Hds. destruct (Hds d Hin) as (Hn & _).
    destruct d; try discriminate; reflexivity. }
  split; [exact E|].
  intros k Hk. rewrite E. unfold worth, worth_text, or_else. rewrite Hk. cbn [bind].
  destruct (List.find (names_match B place) ds) as [d|]; [|reflexivity].
  destruct (truthy B (member d "description")); reflexivity.
Qed.

Lemma X10_first_match_wins_witness :
  merge_description Host.builtins
    [VObj [("name", VStr "Cafe")];
     VObj [("name", VStr "cafe b"); ("description", VStr "Quiet and bright.")];
     VObj [("name", VStr "CAFE B"); ("description", VStr "Loud.")]]
    Scenario.coffee Scenario.entry_a2
  = Ok (with_description (VStr "A great coffee spot worth checking out.")
          Scenario.entry_a2).
Proof.
  refine (proj2 (X10_first_match_wins Host.builtins Scenario.coffee Scenario.entry_a2
                   _ _ _) "coffee" _).
  - split; [reflexivity | eexists; reflexivity].
  - repeat constructor; eexists; reflexivity.
  - reflexivity.
Defined.

(** X11: when the first entry of the provider's array has no string for a
    name, the merge is abandoned for all places: every place gets the
    generic in-location text, also a place that a later entry describes. *)
Theorem X11_unnamed_entry_discards_all (B : Builtins) (w : World)
  (mood location place d : value) (places ds : list value) :
  provider_described B w mood location (place :: places) (d :: ds) ->
  (forall s, member d "name" <> VStr s) ->
  exists t,
    in_location_text B mood location = Ok t
    /\ enhanceWithGemini B w (place :: places) mood location
       = Ok (map (with_description (VStr t)) (place :: places)).
Proof.
  intros Hprov Hd.
  rewrite (enhanceWithGemini_merge B w mood location _ _ Hprov).
  destruct Hprov as (_ & prompt & _ & _ & _ & _ & _ & Hprompt & _).
  apply enhance_prompt_inv in Hprompt as (_ & Hm & Hl).
  apply prints_Ok in Hm as (k & Hk), Hl as (l & Hl).
  exists ("A great " ++ k ++ " spot in " ++ l ++ ".").
  split; [apply in_location_text_Ok; assumption|].
  assert (Hmerge : exists e, merge_description B (d :: ds) mood place = Throw e).
  { unfold merge_description, name_matches. cbn [find].
    destruct d; cbn [get bind member]; try (eexists; reflexivity);
      match goal with
      | |- context [lower B ?v] =>
          destruct v eqn:E; cbn [lower bind]; try (eexists; reflexivity)
      end;
      exfalso; eapply Hd; cbn [member]; exact E. }
  destruct Hmerge as (e & Hmerge). cbn [map all]. rewrite Hmerge. cbn [bind try_catch].
  rewrite (in_location_text_Ok B _ _ _ _ Hk Hl).
  apply (describe_Ok _ (place :: places)).
Qed.

Module MergeScenario.

Import Scenario.

(** The first entry of the provider's array has no name. *)
Definition unnamed_world : World :=
  world (Response 200 search_body)
        (generated (quoted "[{\'description\':\'Cosy.\'},{\'name\':\'cafe b\',\'description\':\'Quiet and bright.\'}]"))
        (Some "gem-key").

Definition unnamed_descriptions : list value :=
  [VObj [("description", VStr "Cosy.")];
   VObj [("name", VStr "cafe b"); ("description", VStr "Quiet and bright.")]].

Example provider_described_unnamed :
  provider_described Host.builtins unnamed_world coffee seattle
    (places HandlerScenario.found) unnamed_descriptions.
Proof.
  split; [reflexivity|].
  eexists. exists 200%Z.
  eexists. eexists. eexists. eexists.
  split; [vm_compute; reflexivity|].
  split; [vm_compute; reflexivity|].
  split; [reflexivity|].
  split; [vm_compute; reflexivity|].
  split; [vm_compute; reflexivity|].
  split; [discriminate|].
  split; [vm_compute; reflexivity | vm_compute; reflexivity].
Defined.

End MergeScenario.

Lemma X11_unnamed_entry_discards_all_witness :
  exists t,
    in_location_text Host.builtins Scenario.coffee Scenario.seattle = Ok t
    /\ enhanceWithGemini Host.builtins MergeScenario.unnamed_world
         (places HandlerScenario.found) Scenario.coffee Scenario.seattle
       = Ok (map (with_description (VStr t)) (places HandlerScenario.found)).
Proof.
  apply (X11_unnamed_entry_discards_all Host.builtins MergeScenario.unnamed_world
           Scenario.coffee Scenario.seattle
           Scenario.entry_a1 (VObj [("description", VStr "Cosy.")])
           [Scenario.entry_a2; Scenario.entry_a3]
           [VObj [("name", VStr "cafe b"); ("description", VStr "Quiet and bright.")]]).
  - exact MergeScenario.provider_described_unnamed.
  - intros s. discriminate.
Defined.

(** ** Enhance-existing: the two generic texts *)

Section EnhancementFailures.

Variable B : Builtins.
Variable w : World.
Variables mood location : value.
Variable places : list value.

(** The provider could not be asked or could not be understood. *)
Definition enhancement_broke : Prop :=
  key_set (GEMINI_API_KEY w) = false
  \/ exists prompt,
       enhance_prompt B places mood location = Ok prompt
       /\ (fetch w (gemini_request w prompt) = Rejected
           \/ exists status body,
                fetch w (gemini_request w prompt) = Response status body
                /\ ok_status status = true
                /\ ((exists e, JSON_parse body = Throw e) \/ JSON_parse body = Ok VNull)).

(** The provider answered, and the answer carries no array. *)
Definition enhancement_empty : Prop :=
  key_set (GEMINI_API_KEY w) = true
  /\ exists prompt status body,
       enhance_prompt B places mood location = Ok prompt
       /\ fetch w (gemini_request w prompt) = Response status body
       /\ (ok_status status = false
           \/ (ok_status status = true
               /\ exists data text,
                    JSON_parse body = Ok data
                    /\ candidate_text data = Ok text
                    /\ (truthy B text = false
                        \/ exists t, text = VStr t /\ match_brackets t = None))).

End EnhancementFailures.

(** X22: Enhance-existing has two generic texts for the two kinds of
    failure. When the credential is missing, or the prompt was written
    and the connection is refused or the body of the answer is not JSON,
    every place gets the in-location text; when the prompt was written
    and the status is no success or the answer carries no text or no
    bracket span, every place gets the popular-destination text. *)
Theorem X22_enhancement_generic_texts (B : Builtins) (w : World)
  (mood location : value) (places : list value) :
  (enhancement_broke B w mood location places ->
   enhanceWithGemini B w places mood location
   = describe (in_location_text B mood location) places)
  /\ (enhancement_empty B w mood location places ->
      exists t,
        popular_text B mood = Ok t
        /\ enhanceWithGemini B w places mood location
           = Ok (map (with_description (VStr t)) places)).
Proof.
  split.
  - intros H. unfold enhanceWithGemini, enhancement_broke, enhanceWithGemini_try,
                await_fetch in *.
    destruct (key_set (GEMINI_API_KEY w)); [|reflexivity]. cbn [negb].
    destruct H as [H | (prompt & -> & H)]; [discriminate|]. cbn [bind].
    destruct H as [-> | (status & body & -> & Hok & H)]; [reflexivity|].
    cbn [bind]. rewrite Hok. cbn [negb].
    destruct H as [(e & ->) | ->]; reflexivity.
  - intros (Hk & prompt & status & body & Hp & Hf & H).
    pose proof (enhance_prompt_inv B _ _ _ _ Hp) as (_ & Hm & _).
    apply prints_Ok in Hm as (k & Hm).
    assert (Hpop : popular_text B mood = Ok ("A popular " ++ k ++ " destination.")).
    { unfold popular_text. rewrite Hm. reflexivity. }
    exists ("A popular " ++ k ++ " destination."). split; [exact Hpop|].
    unfold enhanceWithGemini, enhanceWithGemini_try, merge_generated, await_fetch.
    rewrite Hk, Hp. cbn [negb bind]. rewrite Hf. cbn [bind]. rewrite Hpop, describe_Ok.
    destruct H as [-> | (Hok & data & text & Hd & Ht & H)]; [reflexivity|].
    rewrite Hok, Hd. cbn [negb bind]. rewrite Ht. cbn [bind].
    destruct H as [-> | (t & -> & Hmatch)]; [reflexivity|].
    cbn [text_match]. rewrite Hmatch. destruct (truthy B (VStr t)); reflexivity.
Qed.

Lemma X22_enhancement_generic_texts_witness :
  enhanceWithGemini Host.builtins
    (Scenario.world (Response 200 Scenario.search_body) Rejected (Some "gem-key"))
    (places HandlerScenario.found) Scenario.coffee Scenario.seattle
  = describe (in_location_text Host.builtins Scenario.coffee Scenario.seattle)
      (places HandlerScenario.found).
Proof.
  refine (proj1 (X22_enhancement_generic_texts Host.builtins _ _ _ _) _).
  right. eexists. split; [vm_compute; reflexivity|].
  left. vm_compute. reflexivity.
Defined.

(** ** The handler: methods, bodies and routes *)

Section HandlerCases.

Variable B : Builtins.
Variable w : World.

Definition bad_request : http_response :=
  respond 400 (ErrorBody "Location and mood are required").

Definition method_not_allowed : http_response :=
  respond 405 (ErrorBody "Method not allowed").

(** The body of the event is JSON text for something other than null. *)
Definition body_parsed (ev : Event) (parsed : value) : Prop :=
  parse_body B ev = Ok parsed /\ nullish parsed = false.

Definition body_unusable (ev : Event) : Prop :=
  (exists e, parse_body B ev = Throw e)
  \/ (exists parsed, parse_body B ev = Ok parsed /\ nullish parsed = true).

(** The assembly of the request that the body carries. *)
Definition assembled (parsed : value) : completion http_response :=
  assemble B w (member parsed "location") (member parsed "mood")
    (member parsed "timeAvailable") (member parsed "maxDistance").

Lemma assemble_success location mood timeAvailable maxDistance response :
  assemble B w location mood timeAvailable maxDistance = Ok response ->
  exists recs src rl, response = success recs src rl.
Proof.
  intros A. destruct (assemble_cases B w _ _ _ _ _ A) as (recs & src & rl & E & _). eauto.
Qed.

(** The four outcomes of a POST. *)
Lemma handler_post_cases ev :
  httpMethod ev = "POST" ->
  (body_unusable ev /\ handler B w ev = server_error)
  \/ (exists parsed,
        body_parsed ev parsed
        /\ (truthy B (member parsed "location") && truthy B (member parsed "mood")) = false
        /\ handler B w ev = bad_request)
  \/ (exists parsed recs src rl,
        body_parsed ev parsed
        /\ (truthy B (member parsed "location") && truthy B (member parsed "mood")) = true
        /\ assembled parsed = Ok (success recs src rl)
        /\ handler B w ev = success recs src rl)
  \/ (exists parsed e,
        body_parsed ev parsed
        /\ (truthy B (member parsed "location") && truthy B (member parsed "mood")) = true
        /\ assembled parsed = Throw e
        /\ handler B w ev = server_error).
Proof.
  intros Hm.
  destruct (parse_body B ev) as [parsed|e] eqn:Hp.
  2:{ left. split; [left; eauto|]. unfold handler, handler_try. rewrite Hm, Hp. reflexivity. }
  destruct (nullish parsed) eqn:Hn.
  { left. split; [right; eauto|]. unfold handler, handler_try. rewrite Hm, Hp.
    destruct parsed; try discriminate; reflexivity. }
  destruct (truthy B (member parsed "location")) eqn:Hl;
    [destruct (truthy B (member parsed "mood")) eqn:Hmood|].
  - right. right. rewrite (handler_post B w ev parsed Hm Hp Hl Hmood).
    destruct (assemble B w (member parsed "location") (member parsed "mood")
                (member parsed "timeAvailable") (member parsed "maxDistance"))
      as [response|e] eqn:A.
    + left. destruct (assemble_success _ _ _ _ _ A) as (recs & src & rl & ->).
      exists parsed, recs, src, rl.
      repeat split; try assumption; rewrite ?Hl, ?Hmood; reflexivity.
    + right. exists parsed, e.
      repeat split; try assumption; rewrite ?Hl, ?Hmood; reflexivity.
  - right. left. exists parsed. split; [split; assumption|].
    split; [rewrite Hl, Hmood; reflexivity|].
    unfold handler, handler_try. rewrite Hm, Hp. cbn [bind]. rewrite (get_member _ _ Hn).
    cbn [bind]. rewrite Hl, Hmood. reflexivity.
  - right. left. exists parsed. split; [split; assumption|].
    split; [rewrite Hl; reflexivity|].
    unfold handler, handler_try. rewrite Hm, Hp. cbn [bind]. rewrite (get_member _ _ Hn).
    cbn [bind]. rewrite Hl. reflexivity.
Qed.

Lemma handler_not_post ev :
  httpMethod ev <> "POST" ->
  handler B w ev
  = if httpMethod ev =? "OPTIONS" then respond 200 EmptyBody else method_not_allowed.
Proof.
  intros H. unfold handler. apply String.eqb_neq in H. rewrite H. reflexivity.
Qed.

(** The assembly returns when the fields of the request can be converted
    to text and, with the text credential set, so can the name and the
    category of every place that the lookup finds. *)
Lemma assemble_returns location mood timeAvailable maxDistance :
  prints B location = true -> prints B mood = true ->
  prints B timeAvailable = true -> prints B maxDistance = true ->
  (key_set (GEMINI_API_KEY w) = true ->
   forall r, getPlacesFromFoursquare B w location mood maxDistance = Ok r ->
             Forall (fun p => line_prints B p = true) (places r)) ->
  exists response, assemble B w location mood timeAvailable maxDistance = Ok response.
Proof.
  intros Hl Hm Ht Hd Hlines.
  assert (Hgen : exists recs,
             getGeminiRecommendations B w location mood timeAvailable maxDistance
             = Ok recs).
  { apply getGeminiRecommendations_returns. auto. }
  destruct Hgen as (v & Ev).
  destruct (assemble_routes B w location mood timeAvailable maxDistance)
    as [(r & _ & Hr & _ & Hne & ->) | [(rl & _ & ->) | (e & _ & Hr & _)]].
  - pose proof (getPlacesFromFoursquare_objects B w _ _ _ _ Hr) as Hobj.
    apply prints_Ok in Hl as (l & Hl), Hm as (k & Hm).
    destruct (proj2 (enhanceWithGemini_returns B w mood location (places r) k l
                       Hobj Hm Hl)) as (recs & ->).
    { intros Hk. apply (Hlines Hk r Hr). }
    cbn. eauto.
  - rewrite Ev. cbn. eauto.
  - apply prints_Ok in Hm as (k & Hm).
    destruct (getPlacesFromFoursquare_total B w location mood maxDistance k Hm)
      as (r & Hr'). congruence.
Qed.

End HandlerCases.

(** X12: every response of the handler carries the four cross-origin
    headers; the status is 405 exactly when the method is neither OPTIONS
    nor POST; and the body is empty exactly when the method is OPTIONS,
    in which case the status is 200 whatever the body of the request. *)
Theorem X12_method_gating (B : Builtins) (w : World) (ev : Event) :
  response_headers (handler B w ev) = cors_headers
  /\ (statusCode (handler B w ev) = 405%Z
      <-> httpMethod ev <> "OPTIONS" /\ httpMethod ev <> "POST")
  /\ (body (handler B w ev) = EmptyBody <-> httpMethod ev = "OPTIONS")
  /\ (httpMethod ev = "OPTIONS" -> handler B w ev = respond 200 EmptyBody).
Proof.
  destruct (String.eqb_spec (httpMethod ev) "POST") as [Hp|Hp].
  - assert (Ho : httpMethod ev <> "OPTIONS") by (rewrite Hp; discriminate).
    destruct (handler_post_cases B w ev Hp)
      as [(_ & ->) | [(parsed & _ & _ & ->)
                     | [(parsed & recs & src & rl & _ & _ & _ & ->)
                       | (parsed & e & _ & _ & _ & ->)]]];
      (split; [reflexivity|]); (split; [split; [discriminate | tauto]|]);
      (split; [split; [discriminate | tauto] | tauto]).
  - rewrite (handler_not_post B w ev Hp).
    destruct (String.eqb_spec (httpMethod ev) "OPTIONS") as [Ho|Ho].
    + split; [reflexivity|]. split; [split; [discriminate | tauto]|].
      split; [tauto | reflexivity].
    + split; [reflexivity|]. split; [tauto|].
      split; [split; [discriminate | tauto] | tauto].
Qed.

(** X13: for a POST, the status is 400 exactly when the body is usable
    and the location or the mood is missing or empty; 500 exactly when
    the body is not JSON text or denotes null, or the assembly raises;
    and 200 exactly when the assembly returns. The assembly returns, so
    that nothing that the two providers do makes the handler answer 500,
    when the four fields of the request can be converted to text and,
    with the text credential set, so can the name and the category of
    every place that the lookup finds. *)
Theorem X13_post_status (B : Builtins) (w : World) (ev : Event) :
  httpMethod ev = "POST" ->
  (statusCode (handler B w ev) = 400%Z
   <-> exists parsed,
         body_parsed B ev parsed
         /\ (truthy B (member parsed "location")
             && truthy B (member parsed "mood")) = false)
  /\ (statusCode (handler B w ev) = 500%Z
      <-> body_unusable B ev
          \/ exists parsed e,
               body_parsed B ev parsed
               /\ (truthy B (member parsed "location")
                   && truthy B (member parsed "mood")) = true
               /\ assembled B w parsed = Throw e)
  /\ (statusCode (handler B w ev) = 200%Z
      <-> exists parsed response,
            body_parsed B ev parsed
            /\ (truthy B (member parsed "location")
                && truthy B (member parsed "mood")) = true
            /\ assembled B w parsed = Ok response)
  /\ (forall parsed,
        body_parsed B ev parsed ->
        (truthy B (member parsed "location")
         && truthy B (member parsed "mood")) = true ->
        prints B (member parsed "location") = true ->
        prints B (member parsed "mood") = true ->
        prints B (member parsed "timeAvailable") = true ->
        prints B (member parsed "maxDistance") = true ->
        (key_set (GEMINI_API_KEY w) = true ->
         forall r,
           getPlacesFromFoursquare B w (member parsed "location")
             (member parsed "mood") (member parsed "maxDistance") = Ok r ->
           Forall (fun p => line_prints B p = true) (places r)) ->
        statusCode (handler B w ev) = 200%Z).
Proof.
  intros Hm.
  assert (Hex : forall parsed, body_parsed B ev parsed -> ~ body_unusable B ev).
  { intros parsed [Hp Hn] [(e & He) | (p' & Hp' & Hn')]; congruence. }
  assert (Hun : forall p q, body_parsed B ev p -> body_parsed B ev q -> p = q).
  { intros p q [Hp _] [Hq _]. congruence. }
  assert (H200 : statusCode (handler B w ev) = 200%Z
                 <-> exists parsed response,
                       body_parsed B ev parsed
                       /\ (truthy B (member parsed "location")
                           && truthy B (member parsed "mood")) = true
                       /\ assembled B w parsed = Ok response).
  { destruct (handler_post_cases B w ev Hm)
      as [(Hu & ->) | [(parsed & Hb & Hf & ->)
                      | [(parsed & recs & src & rl & Hb & Hf & A & ->)
                        | (parsed & e & Hb & Hf & A & ->)]]].
    - split; [discriminate|]. intros (p & r & Hp & _). destruct (Hex p Hp Hu).
    - split; [discriminate|]. intros (p & r & Hp & Ht & _).
      rewrite (Hun p parsed Hp Hb) in Ht. congruence.
    - split; [eauto | reflexivity].
    - split; [discriminate|]. intros (p & r & Hp & _ & A').
      rewrite (Hun p parsed Hp Hb) in A'. congruence. }
  split; [|split; [|split; [exact H200|]]].
  - destruct (handler_post_cases B w ev Hm)
      as [(Hu & ->) | [(parsed & Hb & Hf & ->)
                      | [(parsed & recs & src & rl & Hb & Hf & A & ->)
                        | (parsed & e & Hb & Hf & A & ->)]]].
    + split; [discriminate|]. intros (p & Hp & _). destruct (Hex p Hp Hu).
    + split; [eauto | reflexivity].
    + split; [discriminate|]. intros (p & Hp & Ht).
      rewrite (Hun p parsed Hp Hb) in Ht. congruence.
    + split; [discriminate|]. intros (p & Hp & Ht).
      rewrite (Hun p parsed Hp Hb) in Ht. congruence.
  - destruct (handler_post_cases B w ev Hm)
      as [(Hu & ->) | [(parsed & Hb & Hf & ->)
                      | [(parsed & recs & src & rl & Hb & Hf & A & ->)
                        | (parsed & e & Hb & Hf & A & ->)]]].
    + split; [now left | reflexivity].
    + split; [discriminate|].
      intros [Hu | (p & e & Hp & Ht & _)]; [destruct (Hex _ Hb Hu)|].
      rewrite (Hun p parsed Hp Hb) in Ht. congruence.
    + split; [discriminate|].
      intros [Hu | (p & e & Hp & _ & A')]; [destruct (Hex _ Hb Hu)|].
      rewrite (Hun p parsed Hp Hb) in A'. congruence.
    + split; [right; eauto | reflexivity].
  - intros parsed Hb Ht Hl Hmood Htime Hd Hlines. apply H200.
    destruct (assemble_returns B w _ _ _ _ Hl Hmood Htime Hd Hlines) as (response & A).
    exists parsed, response. repeat split; try assumption; apply Hb.
Qed.

Lemma X13_post_status_witness :
  statusCode (handler Host.builtins (Scenario.world Rejected Rejected None)
                HandlerScenario.event) = 200%Z.
Proof.
  refine (proj2 (proj2 (proj2 (X13_post_status Host.builtins
                                 (Scenario.world Rejected Rejected None)
                                 HandlerScenario.event _)))
            HandlerScenario.parsed _ _ _ _ _ _ _).
  - reflexivity.
  - split; [vm_compute; reflexivity | reflexivity].
  - reflexivity.
  - reflexivity.
  - reflexivity.
  - reflexivity.
  - reflexivity.
  - discriminate.
Defined.

Example handler_malformed_body :
  handler Host.builtins (offline None None) (HandlerScenario.post "location=Seattle")
  = server_error.
Proof. vm_compute. reflexivity. Qed.

Example handler_null_body :
  handler Host.builtins (offline None None)
    {| httpMethod := "POST"; event_body := VNull |}
  = server_error.
Proof. vm_compute. reflexivity. Qed.

Example handler_get :
  handler Host.builtins (offline None None)
    {| httpMethod := "GET"; event_body := VNull |}
  = method_not_allowed.
Proof. reflexivity. Qed.

Section Routes.

Variable B : Builtins.

(** Two worlds with the same text credential and clock whose text provider
    behaves in the same way. *)
Definition same_text_provider (w w' : World) : Prop :=
  GEMINI_API_KEY w' = GEMINI_API_KEY w
  /\ currentTime w' = currentTime w
  /\ forall prompt, fetch w' (gemini_request w prompt) = fetch w (gemini_request w prompt).

Lemma getGeminiRecommendations_same w w' location mood timeAvailable maxDistance :
  same_text_provider w w' ->
  getGeminiRecommendations B w' location mood timeAvailable maxDistance
  = getGeminiRecommendations B w location mood timeAvailable maxDistance.
Proof.
  intros (Hk & Hc & Hf).
  unfold getGeminiRecommendations, getGeminiRecommendations_try, await_fetch.
  assert (Hp : generate_prompt B w' location mood timeAvailable maxDistance
               = generate_prompt B w location mood timeAvailable maxDistance).
  { unfold generate_prompt, generate_prompt_text. now rewrite Hc. }
  assert (Hr : forall p, gemini_request w' p = gemini_request w p).
  { intros p. unfold gemini_request. now rewrite Hk. }
  rewrite Hk, Hp.
  destruct (key_set (GEMINI_API_KEY w)); [|reflexivity]. cbn [negb].
  destruct (generate_prompt B w location mood timeAvailable maxDistance); [|reflexivity].
  cbn [bind]. rewrite Hr, Hf. reflexivity.
Qed.

(** The route that the assembly took, read off its response. *)
Lemma assemble_route w location mood timeAvailable maxDistance recs src rl msg :
  assemble B w location mood timeAvailable maxDistance
  = Ok (respond 200 (Envelope recs src rl msg)) ->
  msg = (if rl then rate_limit_message else VNull)
  /\ ((src = "ai"
       /\ getGeminiRecommendations B w location mood timeAvailable maxDistance = Ok recs
       /\ (rl = true -> key_set (FOURSQUARE_API_KEY w) = true))
      \/ (src = "foursquare" /\ rl = false
          /\ key_set (FOURSQUARE_API_KEY w) = true
          /\ exists l, recs = VArr l /\ l <> [])).
Proof.
  intros A.
  destruct (assemble_routes B w location mood timeAvailable maxDistance)
    as [(r & Hk & Hr & _ & Hne & E) | [(rl' & Hk & E) | (e & _ & _ & E)]];
    rewrite E in A; [| |discriminate].
  - invert_bind A as l Hl. injection A as <- <- <- <-.
    split; [reflexivity|]. right. repeat split; try assumption.
    exists l. split; [reflexivity|].
    eapply Forall2_length_nonempty; [|exact Hne].
    eapply enhanceWithGemini_described; eassumption.
  - invert_bind A as v Hv. injection A as <- <- <- <-.
    split; [reflexivity|]. left. repeat split; assumption.
Qed.

End Routes.

(** X14: without the places credential the handler never consults the
    places provider: two invocations that differ only in what the places
    provider would answer give the same response, and a success response
    has source [ai], no rate limit and no message. *)
Theorem X14_no_places_credential (B : Builtins) (w w' : World) (ev : Event) :
  key_set (FOURSQUARE_API_KEY w) = false ->
  key_set (FOURSQUARE_API_KEY w') = false ->
  same_text_provider w w' ->
  handler B w' ev = handler B w ev
  /\ forall recs src rl msg,
       handler B w ev = respond 200 (Envelope recs src rl msg) ->
       src = "ai" /\ rl = false /\ msg = VNull.
Proof.
  intros Hk Hk' Hs.
  assert (Ha : forall l m t d, assemble B w' l m t d = assemble B w l m t d).
  { intros. rewrite !assemble_without_places by assumption.
    now rewrite (getGeminiRecommendations_same B w w' _ _ _ _ Hs). }
  split.
  - unfold handler, handler_try.
    destruct (httpMethod ev =? "OPTIONS"); [reflexivity|].
    destruct (negb (httpMethod ev =? "POST")); [reflexivity|].
    destruct (parse_body B ev) as [parsed|]; [|reflexivity].
    cbn [bind]. destruct (get parsed "location") as [location|]; [|reflexivity].
    cbn [bind].
    destruct (negb (truthy B location) || negb (truthy B (member parsed "mood")));
      [reflexivity|].
    now rewrite Ha.
  - intros recs src rl msg H.
    destruct (handler_envelope B w ev _ _ _ _ H) as (parsed & _ & _ & _ & A).
    rewrite assemble_without_places in A by assumption.
    invert_bind A as v Hv. injection A as _ <- <- <-. repeat split.
Qed.

Lemma X14_no_places_credential_witness :
  handler Host.builtins
    {| FOURSQUARE_API_KEY := None; GEMINI_API_KEY := Some "gem-key";
       fetch := fetch (Scenario.world (Response 429 "") (Scenario.generated "[]") None);
       today := "Monday"; currentTime := "Monday 12:00 PM" |}
    HandlerScenario.event
  = handler Host.builtins
      {| FOURSQUARE_API_KEY := None; GEMINI_API_KEY := Some "gem-key";
         fetch := fetch (Scenario.world (Response 200 Scenario.search_body)
                           (Scenario.generated "[]") None);
         today := "Monday"; currentTime := "Monday 12:00 PM" |}
      HandlerScenario.event.
Proof.
  refine (proj1 (X14_no_places_credential Host.builtins _ _ HandlerScenario.event _ _ _)).
  - reflexivity.
  - reflexivity.
  - split; [reflexivity|]. split; reflexivity.
Defined.

(** X15: when the places credential is set and Places Lookup returns no
    place and no rate limit (no result, or any failure other than the
    rate limit), then, if Generate-from-scratch returns, the response is
    a success with source [ai], no rate limit, no message, and the output
    of Generate-from-scratch; if it raises, the response is the server
    error. It returns exactly when, with the text credential set, the
    location and the two budgets of the request can be converted to text. *)
Theorem X15_empty_lookup_is_silent (B : Builtins) (w : World) (ev : Event)
  (parsed : value) (r : lookup_result) :
  httpMethod ev = "POST" ->
  parse_body B ev = Ok parsed ->
  truthy B (member parsed "location") = true ->
  truthy B (member parsed "mood") = true ->
  key_set (FOURSQUARE_API_KEY w) = true ->
  getPlacesFromFoursquare B w (member parsed "location") (member parsed "mood")
    (member parsed "maxDistance") = Ok r ->
  rateLimited r = false ->
  places r = [] ->
  (forall recs,
     getGeminiRecommendations B w (member parsed "location") (member parsed "mood")
       (member parsed "timeAvailable") (member parsed "maxDistance") = Ok recs ->
     handler B w ev = respond 200 (Envelope recs "ai" false VNull))
  /\ (forall e,
        getGeminiRecommendations B w (member parsed "location") (member parsed "mood")
          (member parsed "timeAvailable") (member parsed "maxDistance") = Throw e ->
        handler B w ev = respond 500 (ErrorBody "Failed to get recommendations"))
  /\ ((exists recs,
         getGeminiRecommendations B w (member parsed "location") (member parsed "mood")
           (member parsed "timeAvailable") (member parsed "maxDistance") = Ok recs)
      <-> (key_set (GEMINI_API_KEY w) = true ->
           prints B (member parsed "location") = true
           /\ prints B (member parsed "timeAvailable") = true
           /\ prints B (member parsed "maxDistance") = true)).
Proof.
  intros Hm Hp Hl Hmood Hk Hr Hrl Hpl.
  rewrite (handler_post B w ev parsed Hm Hp Hl Hmood).
  rewrite (assemble_empty B w _ _ (member parsed "timeAvailable") _ r Hk Hr Hrl Hpl).
  split; [|split].
  - intros recs ->. reflexivity.
  - intros e ->. reflexivity.
  - rewrite getGeminiRecommendations_returns.
    destruct (getPlacesFromFoursquare_inv B w _ _ _ _ Hr) as (k & Hkey).
    rewrite (Ok_prints B _ _ Hkey). tauto.
Qed.

Lemma X15_empty_lookup_is_silent_witness :
  handler Host.builtins (Scenario.world (Response 500 "oops") Rejected None)
    HandlerScenario.event
  = respond 200
      (Envelope (VArr [mock "Starbucks" "Cozy corner cafe with artisanal coffee and fresh pastries. Perfect for your caffeine fix!" "5 min walk";
                       mock "Peet's Coffee" "Known for bold, rich roasts and excellent espresso drinks." "8 min walk"])
         "ai" false VNull).
Proof.
  refine (proj1 (X15_empty_lookup_is_silent Host.builtins
           (Scenario.world (Response 500 "oops") Rejected None)
           HandlerScenario.event HandlerScenario.parsed no_places
           _ _ _ _ _ _ _ _) _ _).
  - reflexivity.
  - vm_compute. reflexivity.
  - reflexivity.
  - reflexivity.
  - reflexivity.
  - vm_compute. reflexivity.
  - reflexivity.
  - reflexivity.
  - vm_compute. reflexivity.
Defined.

(** X16: in every success response that carries an envelope, the message
    is the rate-limit notice when [rateLimitReached] is true and null
    otherwise; the source is [ai] or [foursquare]; a rate limit goes with
    source [ai] and a set places credential; and source [foursquare] goes
    with a set places credential and a non-empty array of recommendations. *)
Theorem X16_envelope_invariant (B : Builtins) (w : World) (ev : Event)
  (recs : value) (src : string) (rl : bool) (msg : value) :
  handler B w ev = respond 200 (Envelope recs src rl msg) ->
  msg = (if rl then rate_limit_message else VNull)
  /\ (src = "ai" \/ src = "foursquare")
  /\ (rl = true -> src = "ai" /\ key_set (FOURSQUARE_API_KEY w) = true)
  /\ (src = "foursquare" ->
      key_set (FOURSQUARE_API_KEY w) = true /\ exists l, recs = VArr l /\ l <> []).
Proof.
  intros H. destruct (handler_envelope B w ev _ _ _ _ H) as (parsed & _ & _ & _ & A).
  destruct (assemble_route B w _ _ _ _ _ _ _ _ A) as (Hmsg & Hr).
  split; [exact Hmsg|].
  destruct Hr as [(-> & _ & Hk) | (-> & -> & Hk & l & -> & Hl)].
  - split; [now left|]. split; [intros E; split; [reflexivity | now apply Hk]|].
    discriminate.
  - split; [now right|]. split; [discriminate|].
    intros _. split; [exact Hk|]. exists l. split; [reflexivity | exact Hl].
Qed.

Lemma X16_envelope_invariant_witness :
  rate_limit_message = (if true then rate_limit_message else VNull)
  /\ ("ai" = "ai" \/ "ai" = "foursquare")
  /\ (true = true ->
      "ai" = "ai" /\ key_set (FOURSQUARE_API_KEY HandlerScenario.limited) = true)
  /\ ("ai" = "foursquare" ->
      key_set (FOURSQUARE_API_KEY HandlerScenario.limited) = true
      /\ exists l, VArr [mock "Starbucks" "Cozy corner cafe with artisanal coffee and fresh pastries. Perfect for your caffeine fix!" "5 min walk";
                         mock "Peet's Coffee" "Known for bold, rich roasts and excellent espresso drinks." "8 min walk"]
                   = VArr l
                   /\ l <> []).
Proof.
  apply (X16_envelope_invariant Host.builtins HandlerScenario.limited
           HandlerScenario.event
           (VArr [mock "Starbucks" "Cozy corner cafe with artisanal coffee and fresh pastries. Perfect for your caffeine fix!" "5 min walk";
                  mock "Peet's Coffee" "Known for bold, rich roasts and excellent espresso drinks." "8 min walk"])
           "ai" true rate_limit_message).
  vm_compute. reflexivity.
Defined.

(** ** The feedback endpoint *)

Example feedback_rated :
  Feedback.handler Host.builtins
    (HandlerScenario.post
       (Scenario.quoted "{'recommendationId':'r1','rating':5,'comment':'Great','user':'u1'}"))
  = (Feedback.answer 200 (Feedback.Accepted true "Thank you for your feedback!"),
     [Feedback.Received (VObj [("recommendationId", VStr "r1"); ("rating", VInt 5);
                               ("comment", VStr "Great")])]).
Proof. vm_compute. reflexivity. Qed.

Example feedback_not_json :
  Feedback.handler Host.builtins (HandlerScenario.post "rating=5")
  = (Feedback.answer 500 (Feedback.Refused "Failed to submit feedback"),
     [Feedback.Failed SyntaxError]).
Proof. vm_compute. reflexivity. Qed.

Example feedback_null :
  Feedback.handler Host.builtins (HandlerScenario.post "null")
  = (Feedback.answer 500 (Feedback.Refused "Failed to submit feedback"),
     [Feedback.Failed TypeError]).
Proof. vm_compute. reflexivity. Qed.

(** X17: for a POST, the feedback endpoint answers 200 exactly when the
    body is JSON text that denotes something other than null, whatever
    fields it has: none of the three fields is required or checked. It
    then logs the three fields of the body, a missing one as undefined,
    and nothing else of the body. In every other case it answers 500. *)
Theorem X17_feedback_post (B : Builtins) (ev : Event) :
  httpMethod ev = "POST" ->
  (forall parsed,
     body_parsed B ev parsed ->
     Feedback.handler B ev
     = (Feedback.answer 200 (Feedback.Accepted true "Thank you for your feedback!"),
        [Feedback.Received
           (VObj [("recommendationId", member parsed "recommendationId");
                  ("rating", member parsed "rating");
                  ("comment", member parsed "comment")])]))
  /\ (body_unusable B ev ->
      exists e,
        Feedback.handler B ev
        = (Feedback.answer 500 (Feedback.Refused "Failed to submit feedback"),
           [Feedback.Failed e]))
  /\ (Feedback.status (fst (Feedback.handler B ev)) = 200%Z
      <-> exists parsed, body_parsed B ev parsed).
Proof.
  intros Hm.
  assert (Hok : forall parsed,
             body_parsed B ev parsed ->
             Feedback.handler B ev
             = (Feedback.answer 200
                  (Feedback.Accepted true "Thank you for your feedback!"),
                [Feedback.Received
                   (VObj [("recommendationId", member parsed "recommendationId");
                          ("rating", member parsed "rating");
                          ("comment", member parsed "comment")])])).
  { intros parsed [Hp Hn]. unfold Feedback.handler, Feedback.received.
    rewrite Hm, Hp. cbn [bind]. rewrite (get_member _ _ Hn). reflexivity. }
  assert (Hbad : body_unusable B ev ->
                 exists e,
                   Feedback.handler B ev
                   = (Feedback.answer 500 (Feedback.Refused "Failed to submit feedback"),
                      [Feedback.Failed e])).
  { intros [(e & He) | (parsed & Hp & Hn)];
      unfold Feedback.handler, Feedback.received; rewrite Hm.
    - rewrite He. eexists. reflexivity.
    - rewrite Hp. destruct parsed; try discriminate; eexists; reflexivity. }
  split; [exact Hok|]. split; [exact Hbad|].
  split.
  - intros H.
    destruct (parse_body B ev) as [parsed|e] eqn:Hp.
    + destruct (nullish parsed) eqn:Hn.
      * destruct Hbad as (e & He); [right; eauto|]. rewrite He in H. discriminate.
      * exists parsed. split; assumption.
    + destruct Hbad as (e' & He); [left; eauto|]. rewrite He in H. discriminate.
  - intros (parsed & Hb). rewrite (Hok parsed Hb). reflexivity.
Qed.

Lemma X17_feedback_post_witness :
  Feedback.handler Host.builtins (HandlerScenario.post "{}")
  = (Feedback.answer 200 (Feedback.Accepted true "Thank you for your feedback!"),
     [Feedback.Received
        (VObj [("recommendationId", VUndefined); ("rating", VUndefined);
               ("comment", VUndefined)])]).
Proof.
  refine (proj1 (X17_feedback_post Host.builtins (HandlerScenario.post "{}") _)
            (VObj []) _).
  - reflexivity.
  - split; [vm_compute; reflexivity | reflexivity].
Defined.

(** ** The older revision *)

Example radius_in_url :
  Older.search_request Host.builtins (offline (Some "fsq-key") None)
    (VStr "Seattle, WA") (VStr "coffee") (VInt 1000)
  <> Older.search_request Host.builtins (offline (Some "fsq-key") None)
       (VStr "Seattle, WA") (VStr "coffee") (VInt 2000).
Proof. vm_compute. discriminate. Qed.

Section OlderProperties.

Variable B : Builtins.

Lemma older_category_Ok mood k :
  ToString B mood = Ok k -> exists c, Older.category B mood = Ok c.
Proof.
  intros H. unfold Older.category. rewrite (lookup_Ok B _ _ _ H). cbn. eauto.
Qed.

Lemma older_category_Throw mood e :
  ToString B mood = Throw e -> Older.category B mood = Throw e.
Proof.
  intros H. unfold Older.category. rewrite (lookup_Throw B _ _ _ H). reflexivity.
Qed.

Lemma older_lookup_total w location mood maxDistance k :
  ToString B mood = Ok k ->
  exists v, OlderRevision.getPlacesFromFoursquare B w location mood maxDistance = Ok v.
Proof.
  intros H. unfold OlderRevision.getPlacesFromFoursquare.
  destruct (older_category_Ok _ _ H) as (c & ->). cbn [bind].
  apply try_catch_total. eauto.
Qed.

Lemma older_lookup_Throw w location mood maxDistance e :
  ToString B mood = Throw e ->
  OlderRevision.getPlacesFromFoursquare B w location mood maxDistance = Throw e.
Proof.
  intros H. unfold OlderRevision.getPlacesFromFoursquare.
  rewrite (older_category_Throw _ _ H). reflexivity.
Qed.

Lemma older_lookup_inv w location mood maxDistance v :
  OlderRevision.getPlacesFromFoursquare B w location mood maxDistance = Ok v ->
  exists k, ToString B mood = Ok k.
Proof.
  destruct (ToString B mood) as [k|e] eqn:E; [eauto|].
  rewrite (older_lookup_Throw _ _ _ _ _ E). discriminate.
Qed.

Lemma older_lookup_status w location mood maxDistance rq status body :
  Older.search_request B w location mood maxDistance = Ok rq ->
  fetch w rq = Response status body ->
  OlderRevision.getPlacesFromFoursquare B w location mood maxDistance
  = try_catch
      (if negb (ok_status status) then Ok (VArr [])
       else
         data <- JSON_parse body ;;
         results <- get data "results" ;;
         Ok (or_else B results (VArr [])))
      (fun _ => Ok (VArr [])).
Proof.
  unfold Older.search_request. intros Hrq Hf. invert_bind Hrq as c Hc.
  unfold OlderRevision.getPlacesFromFoursquare, OlderRevision.getPlacesFromFoursquare_try,
    await_fetch.
  rewrite Hc. cbn [bind]. rewrite Hrq. cbn [bind]. rewrite Hf. reflexivity.
Qed.

Lemma append_cancel_l (a x y : string) : a ++ x = a ++ y -> x = y.
Proof. induction a as [|c a IH]; cbn; intros H; [exact H | injection H as H; auto]. Qed.

Lemma names_of_nullish l :
  Exists (fun p => nullish p = true) l ->
  exists e, all (map (fun p => get p "name") l) = Throw e.
Proof.
  induction 1 as [p r Hp | p r _ (e & IH)]; cbn [map all].
  - destruct p; try discriminate; eexists; reflexivity.
  - destruct (get p "name"); cbn [bind]; [rewrite IH|]; eexists; reflexivity.
Qed.

(** The place is not null and its name can be written into the list of
    names: it is missing, or it can be converted to text. *)
Definition name_prints (p : value) : bool :=
  negb (nullish p)
  && match item_text B (member p "name") with
     | Ok _ => true
     | Throw _ => false
     end.

Lemma places_sentence_Ok l :
  Forall (fun p => name_prints p = true) l ->
  exists s, OlderRevision.places_sentence B l = Ok s.
Proof.
  intros H. unfold OlderRevision.places_sentence, join_values.
  assert (Hn : all (map (fun p => get p "name") l)
               = Ok (map (fun p => member p "name") l)).
  { induction H as [|p r Hp _ IH]; [reflexivity|].
    cbn [map all]. unfold name_prints in Hp. apply andb_prop in Hp as [Hp _].
    apply negb_true_iff in Hp. rewrite (get_member p "name" Hp), IH. reflexivity. }
  rewrite Hn. cbn [bind]. rewrite map_map.
  destruct (all_map_Ok (fun p => item_text B (member p "name"))
              (fun p => name_prints p = true) (fun _ => True) l) as (texts & -> & _).
  { intros p Hp. unfold name_prints in Hp. apply andb_prop in Hp as [_ Hp].
    destruct (item_text B (member p "name")); [eauto | discriminate]. }
  { exact H. }
  cbn. eauto.
Qed.

Lemma placesContext_Ok l :
  Forall (fun p => name_prints p = true) l ->
  exists context, OlderRevision.placesContext B (VArr l) = Ok context.
Proof.
  intros H. unfold OlderRevision.placesContext.
  destruct (0 <? List.length l)%nat; [apply places_sentence_Ok, H | eauto].
Qed.

Lemma placesContext_null l :
  Exists (fun p => nullish p = true) l ->
  exists e, OlderRevision.placesContext B (VArr l) = Throw e.
Proof.
  intros Hex. unfold OlderRevision.placesContext, OlderRevision.places_sentence.
  destruct l as [|p r]; [inversion Hex|]. cbn [List.length Nat.ltb Nat.leb].
  destruct (names_of_nullish _ Hex) as (e & ->). cbn. eauto.
Qed.

Lemma older_generate_prompt_Ok w location mood timeAvailable maxDistance places
      context l k t m :
  OlderRevision.placesContext B places = Ok context ->
  ToString B location = Ok l -> ToString B mood = Ok k ->
  ToString B timeAvailable = Ok t -> ToString B maxDistance = Ok m ->
  exists prompt,
    OlderRevision.generate_prompt B w location mood timeAvailable maxDistance places
    = Ok prompt.
Proof.
  intros Hc Hl Hk Ht Hm. unfold OlderRevision.generate_prompt. rewrite Hc, Hl. cbn [bind].
  destruct (lookup B moodDescriptions mood) as [d|e] eqn:E.
  2:{ rewrite (lookup_Ok B _ _ _ Hk) in E. discriminate. }
  cbn [bind].
  destruct (lookup_text B _ _ _ "looking for food" texts_only_moodDescriptions E)
    as (s & ->).
  cbn [bind]. rewrite Ht, Hm. cbn. eauto.
Qed.

Lemma older_getMockRecommendations_Ok mood k :
  ToString B mood = Ok k ->
  exists v, OlderRevision.getMockRecommendations B mood = Ok v.
Proof.
  intros Hk. unfold OlderRevision.getMockRecommendations.
  rewrite (lookup_Ok B _ _ k Hk). cbn [bind].
  match goal with |- context [truthy B ?x] => destruct (truthy B x) end; [eauto|].
  rewrite (lookup_Ok B OlderRevision.mockData (VStr "quick-bite") "quick-bite" eq_refl).
  eauto.
Qed.

Lemma older_getMockRecommendations_Throw mood e :
  ToString B mood = Throw e -> OlderRevision.getMockRecommendations B mood = Throw e.
Proof.
  intros H. unfold OlderRevision.getMockRecommendations.
  rewrite (lookup_Throw B _ _ _ H). reflexivity.
Qed.

Lemma older_generation_total w location mood timeAvailable maxDistance places prompt k :
  OlderRevision.generate_prompt B w location mood timeAvailable maxDistance places
  = Ok prompt ->
  ToString B mood = Ok k ->
  exists v,
    OlderRevision.getGeminiRecommendations B w location mood timeAvailable
      maxDistance places = Ok v.
Proof.
  intros Hp Hk. unfold OlderRevision.getGeminiRecommendations.
  destruct (older_getMockRecommendations_Ok _ _ Hk) as (mock & Hmock).
  destruct (negb (key_set (GEMINI_API_KEY w))); [eauto|].
  rewrite Hp. cbn [bind]. apply try_catch_total. eauto.
Qed.

End OlderProperties.

(** X18: the older lookup raises exactly when the mood cannot be
    converted to a property key, which it needs before its [try] block;
    otherwise it returns the empty list for every status that is no
    success, the rate-limit statuses 429 and 402 among them, and for a
    success it returns the results of the provider as they are, however
    many, or the empty list when there are none. *)
Theorem X18_older_lookup (B : Builtins) (w : World) (location mood maxDistance : value) :
  (forall e,
     ToString B mood = Throw e ->
     OlderRevision.getPlacesFromFoursquare B w location mood maxDistance = Throw e)
  /\ (forall k,
        ToString B mood = Ok k ->
        exists v, OlderRevision.getPlacesFromFoursquare B w location mood maxDistance
                  = Ok v)
  /\ forall rq status body,
       Older.search_request B w location mood maxDistance = Ok rq ->
       fetch w rq = Response status body ->
       (ok_status status = false ->
        OlderRevision.getPlacesFromFoursquare B w location mood maxDistance
        = Ok (VArr []))
       /\ (forall data,
             ok_status status = true -> JSON_parse body = Ok data ->
             nullish data = false ->
             OlderRevision.getPlacesFromFoursquare B w location mood maxDistance
             = Ok (or_else B (member data "results") (VArr []))).
Proof.
  split; [intros e; apply older_lookup_Throw|].
  split; [intros k; apply older_lookup_total|].
  intros rq status body Hrq Hf.
  rewrite (older_lookup_status B w _ _ _ _ _ _ Hrq Hf). split.
  - intros ->. reflexivity.
  - intros data -> -> Hn. cbn [negb bind]. rewrite (get_member _ _ Hn). reflexivity.
Qed.

Lemma X18_older_lookup_witness :
  OlderRevision.getPlacesFromFoursquare Host.builtins
    (Scenario.world (Response 429 "") Rejected None)
    Scenario.seattle Scenario.coffee (VInt 1000) = Ok (VArr []).
Proof.
  refine (proj1 (proj2 (proj2 (X18_older_lookup Host.builtins
                                 (Scenario.world (Response 429 "") Rejected None)
                                 Scenario.seattle Scenario.coffee (VInt 1000)))
                   _ 429%Z "" _ _) _).
  - vm_compute. reflexivity.
  - vm_compute. reflexivity.
  - reflexivity.
Defined.

(** X19: in the older revision the distance budget is the radius of the
    search: two search requests for the same location and mood are the
    same exactly when the two budgets are written the same. *)
Theorem X19_older_radius (B : Builtins) (w : World)
  (location mood maxDistance1 maxDistance2 : value) (rq1 rq2 : request) :
  Older.search_request B w location mood maxDistance1 = Ok rq1 ->
  Older.search_request B w location mood maxDistance2 = Ok rq2 ->
  (rq1 = rq2 <-> ToString B maxDistance1 = ToString B maxDistance2).
Proof.
  unfold Older.search_request, Older.build_search_request. intros H1 H2.
  invert_bind H1 as c Hc. invert_bind H2 as c' Hc'.
  assert (c' = c) by congruence. subst c'.
  invert_bind H1 as el Hel. invert_bind H2 as el' Hel'.
  assert (el' = el) by congruence. subst el'.
  invert_bind H1 as ec Hec. invert_bind H2 as ec' Hec'.
  assert (ec' = ec) by congruence. subst ec'.
  invert_bind H1 as em1 Hem1. invert_bind H2 as em2 Hem2.
  injection H1 as <-. injection H2 as <-. rewrite Hem1, Hem2. split.
  - intros H. f_equal.
    repeat (first [injection H as H | apply append_cancel_l in H]). exact H.
  - intros H. injection H as ->. reflexivity.
Qed.

Lemma X19_older_radius_witness :
  {| url := "https://api.foursquare.com/v3/places/search?query=restaurant&near=Seattle%2C%20WA&categories=13035&limit=5&radius=1000";
     method := "GET";
     headers := [("Authorization", "fsq-key"); ("Accept", "application/json")];
     payload := None |}
  = {| url := "https://api.foursquare.com/v3/places/search?query=restaurant&near=Seattle%2C%20WA&categories=13035&limit=5&radius=2000";
       method := "GET";
       headers := [("Authorization", "fsq-key"); ("Accept", "application/json")];
       payload := None |}
  <-> ToString Host.builtins (VInt 1000) = ToString Host.builtins (VInt 2000).
Proof.
  apply (X19_older_radius Host.builtins (offline (Some "fsq-key") None)
           (VStr "Seattle, WA") (VStr "coffee") (VInt 1000) (VInt 2000)).
  - vm_compute. reflexivity.
  - vm_compute. reflexivity.
Defined.

Section OlderHandler.

Variable B : Builtins.
Variable w : World.

Definition older_server_error : OlderRevision.older_response :=
  OlderRevision.reply 500 (OlderRevision.Problem "Failed to get recommendations").

(** The places that the older handler gives to its generation. *)
Definition older_places (location mood maxDistance : value) : completion value :=
  if key_set (FOURSQUARE_API_KEY w)
  then OlderRevision.getPlacesFromFoursquare B w location mood maxDistance
  else Ok (VArr []).

Lemma older_places_total location mood maxDistance k :
  ToString B mood = Ok k ->
  exists v, older_places location mood maxDistance = Ok v.
Proof.
  intros H. unfold older_places. destruct (key_set (FOURSQUARE_API_KEY w)); [|eauto].
  eapply older_lookup_total; eassumption.
Qed.

(** A POST whose body carries a location and a mood reaches the lookup
    and the generation. *)
Lemma older_handler_post ev parsed :
  httpMethod ev = "POST" ->
  parse_body B ev = Ok parsed ->
  truthy B (member parsed "location") = true ->
  truthy B (member parsed "mood") = true ->
  OlderRevision.handler B w ev
  = match
      (places <- older_places (member parsed "location") (member parsed "mood")
                   (member parsed "maxDistance") ;;
       OlderRevision.getGeminiRecommendations B w
         (member parsed "location") (member parsed "mood")
         (member parsed "timeAvailable") (member parsed "maxDistance") places)
    with
    | Ok recs => OlderRevision.reply 200 (OlderRevision.Recommendations recs)
    | Throw _ => older_server_error
    end.
Proof.
  intros Hm Hp Hl Hmood.
  unfold OlderRevision.handler, OlderRevision.handler_try, older_places in *.
  rewrite Hm, Hp. cbn [bind].
  change ("POST" =? "OPTIONS") with false. change ("POST" =? "POST") with true.
  cbn [negb].
  assert (Hn : nullish parsed = false).
  { destruct parsed; try reflexivity; cbn in Hl; discriminate. }
  rewrite (get_member parsed "location" Hn). cbn [bind].
  rewrite Hl, Hmood. cbn [negb orb].
  destruct (if key_set (FOURSQUARE_API_KEY w)
            then OlderRevision.getPlacesFromFoursquare B w (member parsed "location")
                   (member parsed "mood") (member parsed "maxDistance")
            else Ok (VArr [])) as [places|e]; [|reflexivity].
  cbn [bind].
  destruct (OlderRevision.getGeminiRecommendations B w _ _ _ _ places); reflexivity.
Qed.

End OlderHandler.

(** X20: without the text credential, the older handler answers every
    POST that carries a location and a mood that can be converted to a
    property key with the mock list of the mood, whatever the places
    provider does; for a mood that cannot, it answers with the server
    error. *)
Theorem X20_older_mock_without_credential (B : Builtins) (w : World) (ev : Event)
  (parsed : value) :
  httpMethod ev = "POST" ->
  parse_body B ev = Ok parsed ->
  truthy B (member parsed "location") = true ->
  truthy B (member parsed "mood") = true ->
  key_set (GEMINI_API_KEY w) = false ->
  (forall k,
     ToString B (member parsed "mood") = Ok k ->
     exists recs,
       OlderRevision.getMockRecommendations B (member parsed "mood") = Ok recs
       /\ OlderRevision.handler B w ev
          = OlderRevision.reply 200 (OlderRevision.Recommendations recs))
  /\ (forall e,
        ToString B (member parsed "mood") = Throw e ->
        OlderRevision.handler B w ev
        = OlderRevision.reply 500 (OlderRevision.Problem "Failed to get recommendations")).
Proof.
  intros Hm Hp Hl Hmood Hk.
  rewrite (older_handler_post B w ev parsed Hm Hp Hl Hmood).
  unfold OlderRevision.getGeminiRecommendations. rewrite Hk. cbn [negb]. split.
  - intros k Hkey.
    destruct (older_places_total B w (member parsed "location") (member parsed "mood")
                (member parsed "maxDistance") k Hkey) as (places & ->).
    destruct (older_getMockRecommendations_Ok B _ _ Hkey) as (recs & Hr).
    exists recs. split; [exact Hr|]. cbn [bind]. rewrite Hr. reflexivity.
  - intros e He.
    destruct (older_places B w (member parsed "location") (member parsed "mood")
                (member parsed "maxDistance")); [|reflexivity].
    cbn [bind]. rewrite (older_getMockRecommendations_Throw B _ _ He). reflexivity.
Qed.

Lemma X20_older_mock_without_credential_witness :
  exists recs,
    OlderRevision.getMockRecommendations Host.builtins
      (member HandlerScenario.parsed "mood") = Ok recs
    /\ OlderRevision.handler Host.builtins
         (Scenario.world (Response 200 "[null]") Rejected None) HandlerScenario.event
       = OlderRevision.reply 200 (OlderRevision.Recommendations recs).
Proof.
  refine (proj1 (X20_older_mock_without_credential Host.builtins
           (Scenario.world (Response 200 "[null]") Rejected None)
           HandlerScenario.event HandlerScenario.parsed _ _ _ _ _) "coffee" _).
  - reflexivity.
  - vm_compute. reflexivity.
  - reflexivity.
  - reflexivity.
  - reflexivity.
  - reflexivity.
Defined.

(** X21: with both credentials set, when the older lookup returns a list,
    the older handler answers 500 when the list holds a null: the names
    of the places are read for the prompt outside the [try] block of the
    generation. It answers 200 when no place is null and the name of
    every place, the location and the two budgets can be converted to
    text. *)
Theorem X21_older_null_place (B : Builtins) (w : World) (ev : Event)
  (parsed : value) (l : list value) :
  httpMethod ev = "POST" ->
  parse_body B ev = Ok parsed ->
  truthy B (member parsed "location") = true ->
  truthy B (member parsed "mood") = true ->
  key_set (FOURSQUARE_API_KEY w) = true ->
  key_set (GEMINI_API_KEY w) = true ->
  OlderRevision.getPlacesFromFoursquare B w (member parsed "location")
    (member parsed "mood") (member parsed "maxDistance") = Ok (VArr l) ->
  (Exists (fun p => nullish p = true) l ->
   OlderRevision.handler B w ev = older_server_error)
  /\ (Forall (fun p => name_prints B p = true) l ->
      prints B (member parsed "location") = true ->
      prints B (member parsed "timeAvailable") = true ->
      prints B (member parsed "maxDistance") = true ->
      exists recs,
        OlderRevision.handler B w ev
        = OlderRevision.reply 200 (OlderRevision.Recommendations recs)).
Proof.
  intros Hm Hp Hl Hmood Hkf Hkg Hlookup.
  rewrite (older_handler_post B w ev parsed Hm Hp Hl Hmood).
  unfold older_places. rewrite Hkf, Hlookup. cbn [bind].
  split.
  - intros Hex.
    unfold OlderRevision.getGeminiRecommendations, OlderRevision.generate_prompt.
    rewrite Hkg. cbn [negb].
    destruct (placesContext_null B _ Hex) as (e & ->). reflexivity.
  - intros Hall Hloc Ht Hd.
    destruct (placesContext_Ok B _ Hall) as (context & Hc).
    destruct (older_lookup_inv B w _ _ _ _ Hlookup) as (k & Hk).
    apply prints_Ok in Hloc as (tl & Hloc), Ht as (tt & Ht), Hd as (td & Hd).
    destruct (older_generate_prompt_Ok B w _ _ _ _ _ _ _ _ _ _ Hc Hloc Hk Ht Hd)
      as (prompt & Hprompt).
    destruct (older_generation_total B w _ _ _ _ _ _ _ Hprompt Hk) as (recs & ->).
    eauto.
Qed.

Module OlderScenario.

Import Scenario.

(** The places provider answers with a null among its results. *)
Definition null_world : World :=
  world (Response 200 (quoted "{'results':[{'name':'Cafe A'},null]}"))
        (generated "[]") (Some "gem-key").

Example newer_handler_null_place :
  handler Host.builtins null_world HandlerScenario.event
  = respond 200 (Envelope (VArr []) "ai" false VNull).
Proof. vm_compute. reflexivity. Qed.

Example older_handler_unprintable_mood :
  OlderRevision.handler Host.builtins (offline None None)
    (HandlerScenario.post (quoted "{'location':'Seattle, WA','mood':{'toString':1}}"))
  = older_server_error.
Proof. vm_compute. reflexivity. Qed.

End OlderScenario.

Lemma X21_older_null_place_witness :
  OlderRevision.handler Host.builtins OlderScenario.null_world HandlerScenario.event
  = older_server_error.
Proof.
  refine (proj1 (X21_older_null_place Host.builtins
                   OlderScenario.null_world HandlerScenario.event HandlerScenario.parsed
                   [VObj [("name", VStr "Cafe A")]; VNull] _ _ _ _ _ _ _) _).
  - reflexivity.
  - vm_compute. reflexivity.
  - reflexivity.
  - reflexivity.
  - reflexivity.
  - reflexivity.
  - vm_compute. reflexivity.
  - right. left. reflexivity.
Defined.
